(** * pcbdataset: a shallow embedding of api/cxx/pcbdataset.{hpp,cpp}

    The C++ API reads a dataset of PCB photographs: [PCBDataset] enumerates
    the [pcb<ID>] directories, [PCB] enumerates the [rec<ID>.jpg] recordings
    of one board and serves images, masks, crop rectangles and annotation
    lists, and [Annot] is one annotated component.

    Conventions of the embedding:
    - [int] is [Z]; [std::stoi] checks the 32-bit range itself.
    - [float] is IEEE-754 binary32 and [double] is binary64, both as
      [spec_float] with the operations of [SpecFloat] at the format's
      precision; conversions between the formats are written out.
    - [std::unordered_map<int, T>] is [gmap Z T]; [insert] keeps an
      existing entry.
    - a call either returns, throws a C++ exception, or has undefined
      behaviour ([outcome]); the member functions of [PCB] that fill the
      caches thread the object through explicitly.
    - the filesystem, the image codec, OpenCV's contour functions,
      [std::stof] and [std::sort] are collaborators outside the repository;
      they are the fields of [World] and [Externals]. *)

From Stdlib Require Import ZArith Bool Ascii String List Sorting.Permutation.
From Stdlib Require Import Floats.SpecFloat.
From stdpp Require Import base option list gmap strings.
Import ListNotations.

Local Open Scope string_scope.
Local Open Scope list_scope.
Local Open Scope Z_scope.

(** ** Outcomes of a call *)

Inductive exn : Type :=
| invalid_argument (what : string)
| runtime_error (what : string)
| out_of_range (what : string)
| cv_exception (what : string).

Inductive outcome (A : Type) : Type :=
| Ok (a : A)
| Throw (e : exn)
| Undefined.

Arguments Ok {A} a.
Arguments Throw {A} e.
Arguments Undefined {A}.

(** Sequencing: an exception or undefined behaviour ends the computation.
    With the instances, [x ← c; k] is stdpp's notation for it. *)
#[export] Instance outcome_ret : MRet outcome := fun A a => Ok a.

#[export] Instance outcome_bind : MBind outcome := fun A B k x =>
  match x with
  | Ok a => k a
  | Throw e => Throw e
  | Undefined => Undefined
  end.

(** ** std::string *)

Module Str.

Definition size (s : string) : Z := Z.of_nat (String.length s).

(** [s.substr(pos, n)]: throws [out_of_range] when [pos > size()];
    [n = None] is [std::string::npos]. Both arguments are [size_t]: a
    negative difference arrives as a value beyond any length. *)
Definition substr (s : string) (pos : Z) (n : option Z) : outcome string :=
  if (pos <? 0) || (size s <? pos) then Throw (out_of_range "basic_string::substr")
  else
    let len := match n with
               | None => String.length s
               | Some k => if k <? 0 then String.length s else Z.to_nat k
               end in
    Ok (String.substring (Z.to_nat pos) len s).

(** [isspace] in the C locale: space and the controls 9 to 13. *)
Definition isspace (c : ascii) : bool :=
  let n := nat_of_ascii c in
  (Nat.eqb n 32) || ((Nat.leb 9 n) && (Nat.leb n 13)).

Definition digit (c : ascii) : option Z :=
  let n := nat_of_ascii c in
  if (Nat.leb 48 n) && (Nat.leb n 57) then Some (Z.of_nat n - 48) else None.

Fixpoint skip_space (s : string) : string :=
  match s with
  | String c s' => if isspace c then skip_space s' else s
  | EmptyString => s
  end.

(** The longest prefix of decimal digits, read as a number; [None] when
    the prefix is empty. *)
Fixpoint digits_from (acc : option Z) (s : string) : option Z :=
  match s with
  | String c s' =>
      match digit c with
      | Some d => digits_from (Some (10 * default 0 acc + d)) s'
      | None => acc
      end
  | EmptyString => acc
  end.

Definition leading_digits (s : string) : option Z := digits_from None s.

Definition INT_MIN : Z := - 2 ^ 31.
Definition INT_MAX : Z := 2 ^ 31 - 1.

(** [std::stoi(s)], base 10: [strtol] skips white space, takes an
    optional sign and the longest run of digits and ignores what
    follows; no digits is [invalid_argument], a value outside [int] is
    [out_of_range]. *)
Definition stoi (s : string) : outcome Z :=
  let s1 := skip_space s in
  let '(neg, s2) :=
    match s1 with
    | String "-" r => (true, r)
    | String "+" r => (false, r)
    | _ => (false, s1)
    end in
  match leading_digits s2 with
  | None => Throw (invalid_argument "stoi")
  | Some n =>
      let v := if neg then - n else n in
      if (INT_MIN <=? v) && (v <=? INT_MAX) then Ok v
      else Throw (out_of_range "stoi")
  end.

(** [boost::split(out, s, boost::is_any_of(" "))] with the default
    [token_compress_off]: one token per separator plus one, empty tokens
    kept, so the result is never empty. *)
Fixpoint split_from (cur : string) (s : string) : list string :=
  match s with
  | EmptyString => [cur]
  | String c s' =>
      if Ascii.eqb c " " then cur :: split_from "" s'
      else split_from (cur +:+ String c "") s'
  end.

Definition split (s : string) : list string := split_from "" s.

(** [ss << n] for an [int]: the decimal digits, with a minus sign. *)
Fixpoint pos_digits (fuel : nat) (n : Z) (acc : string) : string :=
  match fuel with
  | O => acc
  | S fuel' =>
      let acc' := String (ascii_of_nat (Z.to_nat (48 + n mod 10))) acc in
      if n / 10 =? 0 then acc' else pos_digits fuel' (n / 10) acc'
  end.

Definition of_int (n : Z) : string :=
  if n <? 0 then "-" +:+ pos_digits (S (Z.to_nat (Z.log2 (- n)))) (- n) ""
  else pos_digits (S (Z.to_nat (Z.log2 n))) n "".

End Str.

(** ** float and double *)

(** Both formats are [spec_float]; a value of type [float] is kept in the
    canonical form of binary32 (precision 24, [emax] 128), a [double] in
    that of binary64 (precision 53, [emax] 1024). *)
Definition float : Type := spec_float.
Definition double : Type := spec_float.

Module F.

Definition mul (a b : float) : float := SFmul 24 128 a b.
Definition div (a b : float) : float := SFdiv 24 128 a b.
Definition sub (a b : float) : float := SFsub 24 128 a b.
Definition ltb (a b : float) : bool := SFltb a b.
Definition leb (a b : float) : bool := SFleb a b.
Definition eqb (a b : float) : bool := SFeqb a b.

Definition dmul (a b : double) : double := SFmul 53 1024 a b.
Definition ddiv (a b : double) : double := SFdiv 53 1024 a b.

(** [float] to [double]: exact, the mantissa is realigned. *)
Definition to_double (a : float) : double :=
  match a with
  | S754_finite s m e => binary_round 53 1024 s m e
  | _ => a
  end.

(** [double] to [float]: rounds to nearest, ties to even. *)
Definition of_double (a : double) : float :=
  match a with
  | S754_finite s m e => binary_round 24 128 s m e
  | _ => a
  end.

(** [int] to [float] and to [double]. *)
Definition of_int (n : Z) : float := binary_normalize 24 128 n 0 false.
Definition double_of_int (n : Z) : double := binary_normalize 53 1024 n 0 false.

(** The literal [87.4]: the [double] nearest to 874/10. *)
Definition lit_87_4 : double :=
  Eval vm_compute in ddiv (double_of_int 874) (double_of_int 10).

(** [std::max(a, b)] is [(a < b) ? b : a], [std::min(a, b)] is
    [(b < a) ? b : a]. *)
Definition max (a b : float) : float := if ltb a b then b else a.
Definition min (a b : float) : float := if ltb b a then b else a.

End F.

(** ** OpenCV value types *)

Record Point2f := mkPoint2f { pt_x : float; pt_y : float }.
Record Size2f := mkSize2f { width : float; height : float }.
Record RotatedRect := mkRotatedRect { center : Point2f; size : Size2f; angle : float }.
Record Rect := mkRect { rect_x : Z; rect_y : Z; rect_width : Z; rect_height : Z }.
Record Vec2f := mkVec2f { v0 : float; v1 : float }.

(** [cv::Size_<float>::area()]: [width * height]. *)
Definition area (s : Size2f) : float := F.mul (width s) (height s).

(** ** Annot (pcbdataset.cpp, lines 22-49) *)

Module Annot.

Record t := mk { rect : RotatedRect; scale : float; text : string }.

Definition sizePixels (a : t) (scaled : bool) : float :=
  let sz := area (size (rect a)) in
  if negb scaled then F.div sz (scale a) else sz.

Definition sizeCm2 (a : t) (scaled : bool) : float :=
  let sz := F.of_double
              (F.dmul (F.ddiv (F.to_double (width (size (rect a)))) F.lit_87_4)
                      (F.ddiv (F.to_double (height (size (rect a)))) F.lit_87_4)) in
  if negb scaled then F.div sz (scale a) else sz.

Definition aspect (a : t) : float :=
  F.div (F.max (width (size (rect a))) (height (size (rect a))))
        (F.min (width (size (rect a))) (height (size (rect a)))).

End Annot.

(** ** boost::filesystem::path

    A path is its string. The three operations below are the ones the
    source uses, for paths as [directory_iterator] yields them (a
    directory, a separator, an entry name); root directories and trailing
    separators, where boost has special cases, do not occur there. *)
Definition path : Type := string.

Module Path.

Fixpoint has_sep (s : string) : bool :=
  match s with
  | EmptyString => false
  | String c s' => Ascii.eqb c "/" || has_sep s'
  end.

(** [p.filename()]: what follows the last separator. *)
Fixpoint filename (p : path) : string :=
  match p with
  | EmptyString => ""
  | String c p' =>
      if has_sep p' then filename p'
      else if Ascii.eqb c "/" then p' else p
  end.

(** [p.parent_path()]: what precedes the last separator. *)
Fixpoint parent_path (p : path) : path :=
  match p with
  | EmptyString => ""
  | String c p' => if has_sep p' then String c (parent_path p') else ""
  end.

(** [p / name]. *)
Definition append (p : path) (name : string) : path :=
  match p with
  | EmptyString => name
  | _ => p +:+ "/" +:+ name
  end.

End Path.

(** ** std::unordered_map<int, V> *)

Module UMap.

(** [m.insert({k, v})]: no effect when [k] is already a key. *)
Definition insert {V} (k : Z) (v : V) (m : gmap Z V) : gmap Z V :=
  match m !! k with
  | Some _ => m
  | None => <[k := v]> m
  end.

(** [m.count(k)]. *)
Definition count {V} (k : Z) (m : gmap Z V) : Z :=
  match m !! k with
  | Some _ => 1
  | None => 0
  end.

(** [m[k]]: the value at [k], after inserting a value-initialised [dflt]
    when [k] is absent. *)
Definition index {V} (dflt : V) (k : Z) (m : gmap Z V) : V * gmap Z V :=
  match m !! k with
  | Some v => (v, m)
  | None => (dflt, <[k := dflt]> m)
  end.

End UMap.

(** ** Collaborators *)

(** [std::vector<cv::Point>]. *)
Definition Contour : Type := list (Z * Z).

Inductive ImreadFlag := IMREAD_UNCHANGED | IMREAD_GRAYSCALE.

(** What the source calls from OpenCV and the C++ library without
    defining it. [cv::resize], [setTo] and the region-of-interest operator
    can raise [cv::Exception]. *)
Class Externals := {
  Mat : Type;
  mat_rows : Mat -> Z;
  (** [cv::resize(src, dst, cv::Size(0, 0), fx, fy)] *)
  resize : Mat -> float -> float -> outcome Mat;
  (** [im.setTo(0, msk == 0)] *)
  setTo_zero_where_zero : Mat -> Mat -> outcome Mat;
  (** [im(ci)] *)
  mat_roi : Mat -> Rect -> outcome Mat;
  (** [cv::findContours(im, cnt, cv::RETR_EXTERNAL, cv::CHAIN_APPROX_NONE)] *)
  findContours : Mat -> list Contour;
  minAreaRect : Contour -> RotatedRect;
  boundingRect : Contour -> Rect;
  stof : string -> outcome float;
  (** [std::sort(first, last, comp)] *)
  std_sort : forall A : Type, (A -> A -> bool) -> list A -> list A;
}.

(** The filesystem at the time of a call, as the answers the queries
    give. [getlines p] is the sequence of lines [std::getline] reads from
    [std::ifstream(p)] until it fails. The boost queries can also raise
    [filesystem_error] (a directory that cannot be opened, an entry that
    cannot be examined); a [World] describes the calls in which every
    query answered, so a statement that a constructor returns is made
    only from a run in which it did. *)
Record World `{Externals} := mkWorld {
  is_directory : path -> bool;
  is_regular_file : path -> bool;
  directory_iterator : path -> list path;
  getlines : path -> list string;
  imread : path -> ImreadFlag -> Mat;
}.

(** ** PCB (pcbdataset.cpp, lines 53-239) *)

Module PCB.

Record t := mk {
  root : path;
  scale : float;
  _recordings : gmap Z path;
  _cache_cropinfo : gmap Z Rect;
  _cache_ics : gmap Z (list Annot.t);
}.

Definition set_cache_cropinfo (c : gmap Z Rect) (pcb : t) : t :=
  mk (root pcb) (scale pcb) (_recordings pcb) c (_cache_ics pcb).

Definition set_cache_ics (c : gmap Z (list Annot.t)) (pcb : t) : t :=
  mk (root pcb) (scale pcb) (_recordings pcb) (_cache_cropinfo pcb) c.

(** A non-const member function: the outcome and the object afterwards.
    What a call stored before it threw stays stored. *)
Definition M (A : Type) : Type := t -> outcome A * t.

Definition ret {A} (a : A) : M A := fun pcb => (Ok a, pcb).
Definition lift {A} (x : outcome A) : M A := fun pcb => (x, pcb).
Definition bind {A B} (c : M A) (k : A -> M B) : M B := fun pcb =>
  match c pcb with
  | (Ok a, pcb') => k a pcb'
  | (Throw e, pcb') => (Throw e, pcb')
  | (Undefined, pcb') => (Undefined, pcb')
  end.

Section Methods.
Context `{E : Externals}.

(** The body of the constructor's [BOOST_FOREACH] for one entry. *)
Definition is_recording_name (fname : string) : outcome bool :=
  if 7 <? Str.size fname then
    pre ← Str.substr fname 0 (Some 3);
    if String.eqb pre "rec" then
      suf ← Str.substr fname (Str.size fname - 4) (Some 4);
      Ok (String.eqb suf ".jpg")
    else Ok false
  else Ok false.

Fixpoint scan (w : World) (entries : list path) (recs : gmap Z path)
  : outcome (gmap Z path) :=
  match entries with
  | [] => Ok recs
  | p :: rest =>
      if is_regular_file w p then
        let fname := Path.filename p in
        hit ← is_recording_name fname;
        if hit : bool then
          rid ← Str.substr fname 3 None;
          rid ← Str.substr rid 0 (Some (Str.size rid - 4));
          id ← Str.stoi rid;
          scan w rest (UMap.insert id p recs)
        else scan w rest recs
      else scan w rest recs
  end.

(** [PCB::PCB(root, scale)]. *)
Definition make (w : World) (root0 : string) (scale0 : float) : outcome t :=
  if negb (is_directory w root0) then
    Throw (invalid_argument "Root path is not a directory.")
  else
    last ← Str.substr root0 (Str.size root0 - 1) (Some 1);
    if String.eqb last "/" then
      Throw (invalid_argument "Root path must not end with /")
    else if F.leb scale0 (F.of_int 0) || F.ltb (F.of_int 2) scale0 then
      Throw (invalid_argument "Scale must be > 0 and <= 2.")
    else
      recs ← scan w (directory_iterator w root0) ∅;
      Ok (mk root0 scale0 recs ∅ ∅).

Definition id (pcb : t) : outcome Z :=
  s ← Str.substr (Path.filename (root pcb)) 3 None;
  Str.stoi s.

(** The order of an [unordered_map] traversal is the map's own. *)
Definition recordings (pcb : t) : list Z :=
  (map_to_list (_recordings pcb)).*1.

Definition rescale (pcb : t) (image : Mat) : outcome Mat :=
  if negb (F.eqb (scale pcb) (F.of_int 1))
  then resize image (scale pcb) (scale pcb)
  else Ok image.

Definition image (w : World) (pcb : t) (rec : Z) : outcome Mat :=
  match _recordings pcb !! rec with
  | None => Throw (invalid_argument "Recording does not exist.")
  | Some p =>
      let image := imread w p IMREAD_UNCHANGED in
      if mat_rows image =? 0 then
        Throw (runtime_error "Could not load the image.")
      else rescale pcb image
  end.

Definition mask (w : World) (pcb : t) (rec : Z) : outcome Mat :=
  match _recordings pcb !! rec with
  | None => Throw (invalid_argument "Recording does not exist.")
  | Some p =>
      let impath :=
        Path.append (Path.parent_path p) ("rec" +:+ Str.of_int rec +:+ "-mask.png") in
      if negb (is_regular_file w impath) then
        Throw (runtime_error "Mask file does not exist.")
      else
        let image := imread w impath IMREAD_GRAYSCALE in
        if mat_rows image =? 0 then
          Throw (runtime_error "Could not load the image.")
        else rescale pcb image
  end.

(** The comparison handed to [std::sort] in [_cropinfo]. *)
Definition by_min_area (a b : Contour) : bool :=
  F.ltb (area (size (minAreaRect a))) (area (size (minAreaRect b))).

(** [cnt[cnt.size()-1]]: with an empty vector the index wraps to the
    largest [size_t] and the access is out of bounds. *)
Definition back (cnt : list Contour) : outcome Contour :=
  match last cnt with
  | Some c => Ok c
  | None => Undefined
  end.

(** [PCB::_cropinfo(rec)]. *)
Definition _cropinfo (w : World) (rec : Z) : M Rect := fun pcb =>
  if UMap.count rec (_cache_cropinfo pcb) =? 1 then
    let '(r, c) := UMap.index (mkRect 0 0 0 0) rec (_cache_cropinfo pcb) in
    (Ok r, set_cache_cropinfo c pcb)
  else
      match mask w pcb rec with
      | Ok im =>
          let cnt := std_sort Contour by_min_area (findContours im) in
          match back cnt with
          | Ok c =>
              let pcb' := set_cache_cropinfo
                            (UMap.insert rec (boundingRect c) (_cache_cropinfo pcb)) pcb in
              let '(r, c') := UMap.index (mkRect 0 0 0 0) rec (_cache_cropinfo pcb') in
              (Ok r, set_cache_cropinfo c' pcb')
          | Throw e => (Throw e, pcb)
          | Undefined => (Undefined, pcb)
          end
      | Throw e => (Throw e, pcb)
      | Undefined => (Undefined, pcb)
      end.

(** [PCB::imageMasked(rec)]. *)
Definition imageMasked (w : World) (rec : Z) : M Mat := fun pcb =>
  bind (lift (image w pcb rec)) (fun im =>
  bind (lift (mask w pcb rec)) (fun msk =>
  bind (lift (setTo_zero_where_zero im msk)) (fun im' =>
  bind (_cropinfo w rec) (fun ci =>
  lift (mat_roi im' ci))))) pcb.

(** One line of the annotation file, up to the construction of [rr]
    (lines 161-171). The five [std::stof] calls are arguments of
    constructors, so C++ leaves their order open; it matters only for
    which of two exceptions a line with several bad fields raises. *)
Definition parse_line (line : string) : outcome (RotatedRect * list string) :=
  let split := Str.split line in
  if Z.of_nat (length split) <? 5 then
    Throw (runtime_error "Invalid line encountered while parsing file.")
  else
    cx ← stof (nth 0 split "");
    cy ← stof (nth 1 split "");
    wd ← stof (nth 2 split "");
    ht ← stof (nth 3 split "");
    an ← stof (nth 4 split "");
    Ok (mkRotatedRect (mkPoint2f cx cy) (mkSize2f wd ht) an, split).

(** Lines 187-192. *)
Definition scale_rect (s : float) (rr : RotatedRect) : RotatedRect :=
  if negb (F.eqb s (F.of_int 1)) then
    mkRotatedRect
      (mkPoint2f (F.mul (pt_x (center rr)) s) (F.mul (pt_y (center rr)) s))
      (mkSize2f (F.mul (width (size rr)) s) (F.mul (height (size rr)) s))
      (angle rr)
  else rr.

(** Lines 196-197. *)
Definition shift_rect (ci : Rect) (rr : RotatedRect) : RotatedRect :=
  mkRotatedRect
    (mkPoint2f (F.sub (pt_x (center rr)) (F.of_int (rect_x ci)))
               (F.sub (pt_y (center rr)) (F.of_int (rect_y ci))))
    (size rr) (angle rr).

(** Lines 200-207, from token [i] on: [toks] are [split[i..]], and
    [i < split.size()-1] says that a token follows. *)
Fixpoint label_from (toks : list string) : string :=
  match toks with
  | [] => ""
  | tok :: rest =>
      (if String.eqb tok "" then ""
       else tok +:+ (match rest with [] => "" | _ => " " end))
      +:+ label_from rest
  end.

Definition label (split : list string) : string := label_from (drop 5 split).

(** The [while(std::getline(file, line))] loop. *)
Fixpoint ics_lines (w : World) (rec : Z) (cropped : bool) (sz asp : Vec2f)
    (lines : list string) (acc : list Annot.t) : M (list Annot.t) :=
  match lines with
  | [] => ret acc
  | line :: rest =>
      bind (lift (parse_line line)) (fun '(rr, split) =>
        let tmp := Annot.mk rr (F.of_int 1) "" in
        if F.ltb (F.of_int 0) (v0 sz) && F.ltb (Annot.sizeCm2 tmp false) (v0 sz) then
          ics_lines w rec cropped sz asp rest acc
        else if F.ltb (F.of_int 0) (v1 sz) && F.ltb (v1 sz) (Annot.sizeCm2 tmp false) then
          ics_lines w rec cropped sz asp rest acc
        else if F.ltb (F.of_int 0) (v0 asp) && F.ltb (Annot.aspect tmp) (v0 asp) then
          ics_lines w rec cropped sz asp rest acc
        else if F.ltb (F.of_int 0) (v1 asp) && F.ltb (v1 asp) (Annot.aspect tmp) then
          ics_lines w rec cropped sz asp rest acc
        else fun pcb =>
          let rr1 := scale_rect (scale pcb) rr in
          bind (if cropped
                then bind (_cropinfo w rec) (fun ci => ret (shift_rect ci rr1))
                else ret rr1)
               (fun rr2 =>
                  ics_lines w rec cropped sz asp rest
                    (acc ++ [Annot.mk rr2 (scale pcb) (label split)]))
               pcb)
  end.

Definition annot_path (p : path) (rec : Z) : path :=
  Path.append (Path.parent_path p) ("rec" +:+ Str.of_int rec +:+ "-annot.txt").

(** [PCB::ics(rec, cropped, size, aspect)]. *)
Definition ics (w : World) (rec : Z) (cropped : bool) (sz asp : Vec2f)
  : M (list Annot.t) := fun pcb =>
  if UMap.count rec (_cache_ics pcb) =? 1 then
    let '(r, c) := UMap.index [] rec (_cache_ics pcb) in
    (Ok r, set_cache_ics c pcb)
  else
    match _recordings pcb !! rec with
    | None => (Throw (invalid_argument "Recording does not exist."), pcb)
    | Some p =>
        let fpath := annot_path p rec in
        if negb (is_regular_file w fpath) then
          (Throw (runtime_error "Annotation file does not exist."), pcb)
        else
          bind (ics_lines w rec cropped sz asp (getlines w fpath) [])
               (fun res pcb1 =>
                  let pcb2 := set_cache_ics (UMap.insert rec res (_cache_ics pcb1)) pcb1 in
                  let '(r, c) := UMap.index [] rec (_cache_ics pcb2) in
                  (Ok r, set_cache_ics c pcb2))
               pcb
    end.

End Methods.
End PCB.

(** ** PCBDataset (pcbdataset.cpp, lines 243-286) *)

Module PCBDataset.

Record t := mk {
  root : path;
  _pcbPaths : gmap Z path;
}.

Section Methods.
Context `{E : Externals}.

Definition is_pcb_name (fname : string) : outcome bool :=
  if 3 <? Str.size fname then
    pre ← Str.substr fname 0 (Some 3);
    Ok (String.eqb pre "pcb")
  else Ok false.

Fixpoint scan (w : World) (entries : list path) (pcbs : gmap Z path)
  : outcome (gmap Z path) :=
  match entries with
  | [] => Ok pcbs
  | p :: rest =>
      if is_directory w p then
        let fname := Path.filename p in
        hit ← is_pcb_name fname;
        if hit : bool then
          s ← Str.substr fname 3 None;
          id ← Str.stoi s;
          scan w rest (UMap.insert id p pcbs)
        else scan w rest pcbs
      else scan w rest pcbs
  end.

(** [PCBDataset::PCBDataset(root)]. *)
Definition make (w : World) (root0 : string) : outcome t :=
  if negb (is_directory w root0) then
    Throw (invalid_argument "Root path is not a directory.")
  else
    last ← Str.substr root0 (Str.size root0 - 1) (Some 1);
    if String.eqb last "/" then
      Throw (invalid_argument "Root path must not end with /")
    else
      pcbs ← scan w (directory_iterator w root0) ∅;
      if decide (pcbs = ∅) then
        Throw (runtime_error "Specified path contains no PCB directories.")
      else Ok (mk root0 pcbs).

Definition numPCBs (d : t) : Z := Z.of_nat (base.size (_pcbPaths d)).

Definition pcbIDs (d : t) : list Z :=
  std_sort Z Z.ltb (map_to_list (_pcbPaths d)).*1.

Definition pcb (w : World) (d : t) (id : Z) (scale0 : float) : outcome PCB.t :=
  match _pcbPaths d !! id with
  | None => Throw (invalid_argument "PCB does not exist.")
  | Some p => PCB.make w p scale0
  end.

End Methods.
End PCBDataset.

(** ** The annotation filter and the emitted annotation, as functions

    [ics_lines] interleaves parsing, the four [continue] tests, the
    transformation and the [push_back]. The definitions below name the
    parts, so that the loop can be compared with a filter followed by a
    map. *)

(** A line is dropped when one of the four tests of lines 175-185 holds
    for [tmp], the annotation of the parsed rectangle at scale 1. *)
Definition rejected (sz asp : Vec2f) (rr : RotatedRect) : bool :=
  let size_cm2 := Annot.sizeCm2 (Annot.mk rr (F.of_int 1) "") false in
  let aspect := Annot.aspect (Annot.mk rr (F.of_int 1) "") in
  (F.ltb (F.of_int 0) (v0 sz) && F.ltb size_cm2 (v0 sz))
  || (F.ltb (F.of_int 0) (v1 sz) && F.ltb (v1 sz) size_cm2)
  || (F.ltb (F.of_int 0) (v0 asp) && F.ltb aspect (v0 asp))
  || (F.ltb (F.of_int 0) (v1 asp) && F.ltb (v1 asp) aspect).

Definition kept (sz asp : Vec2f) (ps : list (RotatedRect * list string))
  : list (RotatedRect * list string) :=
  List.filter (fun p => negb (rejected sz asp (fst p))) ps.

(** The annotation pushed for a surviving line: [off] is the crop
    rectangle when [cropped] is set. *)
Definition emit (s : float) (off : option Rect)
    (p : RotatedRect * list string) : Annot.t :=
  let rr1 := PCB.scale_rect s (fst p) in
  Annot.mk (match off with
            | Some ci => PCB.shift_rect ci rr1
            | None => rr1
            end) s (PCB.label (snd p)).

(** The same annotation written out field by field, after lines 187-198
    and 209: a coordinate [x] becomes [x * s] unless [s] is 1; the
    centre and the size are so multiplied; with a crop rectangle its
    corner is then subtracted from the centre; the angle is as parsed;
    the scale of the annotation is [s]. *)
Definition times (s x : float) : float :=
  if F.eqb s (F.of_int 1) then x else F.mul x s.

Definition annotation (s : float) (off : option Rect)
    (p : RotatedRect * list string) : Annot.t :=
  let cx := times s (pt_x (center (fst p))) in
  let cy := times s (pt_y (center (fst p))) in
  Annot.mk
    (mkRotatedRect
       (match off with
        | Some ci => mkPoint2f (F.sub cx (F.of_int (rect_x ci)))
                               (F.sub cy (F.of_int (rect_y ci)))
        | None => mkPoint2f cx cy
        end)
       (mkSize2f (times s (width (size (fst p)))) (times s (height (size (fst p)))))
       (angle (fst p)))
    s (PCB.label (snd p)).

(** All lines parsed, in order; the first failure is the result. *)
Fixpoint parse_all `{Externals} (lines : list string)
  : outcome (list (RotatedRect * list string)) :=
  match lines with
  | [] => Ok []
  | line :: rest =>
      p ← PCB.parse_line line;
      ps ← parse_all rest;
      Ok (p :: ps)
  end.

(** ** Sequences of calls *)

Section CallSequences.
Context `{E : Externals}.

(** One call of a member function that can change the object, made in
    any state of the filesystem and with any arguments. [image], [mask],
    [id] and [recordings] are [const]. After undefined behaviour there
    is no object to speak of. *)
Inductive call : PCB.t -> PCB.t -> Prop :=
| call_ics w rec cropped sz asp pcb o pcb' :
    PCB.ics w rec cropped sz asp pcb = (o, pcb') ->
    o <> Undefined -> call pcb pcb'
| call_imageMasked w rec pcb o pcb' :
    PCB.imageMasked w rec pcb = (o, pcb') ->
    o <> Undefined -> call pcb pcb'.

(** Any number of calls, one after the other. *)
Inductive calls : PCB.t -> PCB.t -> Prop :=
| calls_nil pcb : calls pcb pcb
| calls_cons pcb pcb1 pcb2 : call pcb pcb1 -> calls pcb1 pcb2 -> calls pcb pcb2.

End CallSequences.

(** The area in cm^2 of a [w] by [h] rectangle, [(w/87.4)*(h/87.4)]. *)
Definition cm2 (w h : float) : float :=
  F.of_double (F.dmul (F.ddiv (F.to_double w) F.lit_87_4)
                      (F.ddiv (F.to_double h) F.lit_87_4)).

Definition upright (w h : Z) : RotatedRect :=
  mkRotatedRect (mkPoint2f (F.of_int 0) (F.of_int 0))
                (mkSize2f (F.of_int w) (F.of_int h)) (F.of_int 0).

(** ** Directory scans, as a fold over the entries

    Both constructors walk a directory and [insert] an integer key for
    the entries they recognise. [scan_with key] is that walk for a
    function [key] that tells, for one entry, whether it is recognised and
    under which integer. *)
Fixpoint scan_with (key : path -> outcome (option Z)) (entries : list path)
    (acc : gmap Z path) : outcome (gmap Z path) :=
  match entries with
  | [] => Ok acc
  | p :: rest =>
      match key p with
      | Ok (Some id) => scan_with key rest (UMap.insert id p acc)
      | Ok None => scan_with key rest acc
      | Throw e => Throw e
      | Undefined => Undefined
      end
  end.

(** A recording name: longer than 7 characters, [rec] in front, [.jpg]
    at the end; its digits are what stands between the two. *)
Definition is_rec_name (fname : string) : bool :=
  (7 <? Str.size fname)
  && String.eqb (String.substring 0 3 fname) "rec"
  && String.eqb (String.substring (Z.to_nat (Str.size fname - 4)) 4 fname) ".jpg".

Definition rec_digits (fname : string) : string :=
  let rid := String.substring 3 (String.length fname) fname in
  String.substring 0 (Z.to_nat (Str.size rid - 4)) rid.

Definition rec_key `{Externals} (w : World) (p : path) : outcome (option Z) :=
  if is_regular_file w p && is_rec_name (Path.filename p) then
    id ← Str.stoi (rec_digits (Path.filename p)); Ok (Some id)
  else Ok None.

(** A board directory name: longer than 3 characters, [pcb] in front;
    its digits are the rest. *)
Definition is_pcb_name (fname : string) : bool :=
  (3 <? Str.size fname) && String.eqb (String.substring 0 3 fname) "pcb".

Definition pcb_digits (fname : string) : string :=
  String.substring 3 (String.length fname) fname.

Definition pcb_key `{Externals} (w : World) (p : path) : outcome (option Z) :=
  if is_directory w p && is_pcb_name (Path.filename p) then
    id ← Str.stoi (pcb_digits (Path.filename p)); Ok (Some id)
  else Ok None.

(** [recording_file w p k]: the entry [p] is a regular file with a
    recording name whose digits [std::stoi] reads as [k]. *)
Definition recording_file `{Externals} (w : World) (p : path) (k : Z) : Prop :=
  is_regular_file w p = true /\
  7 < Str.size (Path.filename p) /\
  String.substring 0 3 (Path.filename p) = "rec" /\
  String.substring (Z.to_nat (Str.size (Path.filename p) - 4)) 4 (Path.filename p) = ".jpg" /\
  Str.stoi (rec_digits (Path.filename p)) = Ok k.

(** [pcb_directory w p k]: the entry [p] is a directory with a board
    name whose digits [std::stoi] reads as [k]. *)
Definition pcb_directory `{Externals} (w : World) (p : path) (k : Z) : Prop :=
  is_directory w p = true /\
  3 < Str.size (Path.filename p) /\
  String.substring 0 3 (Path.filename p) = "pcb" /\
  Str.stoi (pcb_digits (Path.filename p)) = Ok k.

(** [extends a b]: [b] is [a] with, possibly, more cache entries. *)
Definition extends (a b : PCB.t) : Prop :=
  PCB.root b = PCB.root a /\
  PCB.scale b = PCB.scale a /\
  PCB._recordings b = PCB._recordings a /\
  PCB._cache_cropinfo a ⊆ PCB._cache_cropinfo b /\
  PCB._cache_ics a ⊆ PCB._cache_ics b.

(** ** Labels, as a join

    [join_sp] writes the tokens with one space between neighbours. *)
Fixpoint join_sp (toks : list string) : string :=
  match toks with
  | [] => ""
  | t :: rest =>
      match rest with
      | [] => t
      | _ => t +:+ " " +:+ join_sp rest
      end
  end.

Definition nonempty_tokens (toks : list string) : list string :=
  List.filter (fun t => negb (String.eqb t "")) toks.

(** ** What std::sort promises

    After [std::sort(first, last, comp)] the range holds the same
    elements, and no element compares less than one that stands before
    it: [comp(a[i + n], a[i])] is false for all positions [i] and [i + n]. *)
Fixpoint sorted_wrt {A} (comp : A -> A -> bool) (l : list A) : bool :=
  match l with
  | [] => true
  | a :: l' => forallb (fun b => negb (comp b a)) l' && sorted_wrt comp l'
  end.

(** * A small dataset to run the code on

    Stand-ins for the collaborators, and a filesystem with one dataset
    root: enough to evaluate the functions above on concrete input. *)

Module Demo.

(** An image is its number of rows and the external contours of its
    foreground. *)
Record image := mkImage { im_rows : Z; im_contours : list Contour }.

Definition min_list (d : Z) (l : list Z) : Z := fold_right Z.min d l.
Definition max_list (d : Z) (l : list Z) : Z := fold_right Z.max d l.

Definition xs (c : Contour) : list Z := map fst c.
Definition ys (c : Contour) : list Z := map snd c.

(** The upright bounding rectangle of integer points: both end columns
    and rows belong to it. *)
Definition bounding (c : Contour) : Rect :=
  match c with
  | [] => mkRect 0 0 0 0
  | (x, y) :: _ =>
      mkRect (min_list x (xs c)) (min_list y (ys c))
             (max_list x (xs c) - min_list x (xs c) + 1)
             (max_list y (ys c) - min_list y (ys c) + 1)
  end.

(** The enclosing rectangle of least area, for contours that are
    themselves upright rectangles. *)
Definition min_area (c : Contour) : RotatedRect :=
  match c with
  | [] => mkRotatedRect (mkPoint2f (F.of_int 0) (F.of_int 0))
            (mkSize2f (F.of_int 0) (F.of_int 0)) (F.of_int 0)
  | (x, y) :: _ =>
      let x0 := min_list x (xs c) in let x1 := max_list x (xs c) in
      let y0 := min_list y (ys c) in let y1 := max_list y (ys c) in
      mkRotatedRect
        (mkPoint2f (F.div (F.of_int (x0 + x1)) (F.of_int 2))
                   (F.div (F.of_int (y0 + y1)) (F.of_int 2)))
        (mkSize2f (F.of_int (x1 - x0)) (F.of_int (y1 - y0))) (F.of_int 0)
  end.

(** Insertion sort, for [std::sort]. *)
Fixpoint insert_by {A} (comp : A -> A -> bool) (x : A) (l : list A) : list A :=
  match l with
  | [] => [x]
  | y :: l' => if comp x y then x :: l else y :: insert_by comp x l'
  end.

Definition sort_by (A : Type) (comp : A -> A -> bool) (l : list A) : list A :=
  fold_right (insert_by comp) [] l.

(** Decimal notation without exponent, for [std::stof]: white space, a
    sign, digits, a point, digits; the value is rounded once, to the
    nearest [float]. *)
Fixpoint frac_digits (s : string) (m : Z) (k : nat) : Z * nat :=
  match s with
  | String c s' =>
      match Str.digit c with
      | Some d => frac_digits s' (10 * m + d) (S k)
      | None => (m, k)
      end
  | EmptyString => (m, k)
  end.

Fixpoint int_digits (s : string) (m : option Z) : option (Z * nat) :=
  match s with
  | String c s' =>
      match Str.digit c with
      | Some d => int_digits s' (Some (10 * default 0 m + d))
      | None =>
          if Ascii.eqb c "." then
            match m, s' with
            | None, String c' _ =>
                match Str.digit c' with
                | Some _ => Some (frac_digits s' 0 0)
                | None => None
                end
            | None, EmptyString => None
            | Some n, _ => Some (frac_digits s' n 0)
            end
          else option_map (fun n => (n, O)) m
      end
  | EmptyString => option_map (fun n => (n, O)) m
  end.

Definition stof_decimal (s : string) : outcome float :=
  let s1 := Str.skip_space s in
  let '(neg, s2) :=
    match s1 with
    | String "-" r => (true, r)
    | String "+" r => (false, r)
    | _ => (false, s1)
    end in
  match int_digits s2 None with
  | None => Throw (invalid_argument "stof")
  | Some (Z0, _) => Ok (S754_zero neg)
  | Some (Zpos m, k) =>
      Ok (SFdiv 24 128 (S754_finite neg m 0)
                (S754_finite false (Z.to_pos (10 ^ Z.of_nat k)) 0))
  | Some (Zneg _, _) => Throw (invalid_argument "stof")
  end.

#[export] Instance externals : Externals := {|
  Mat := image;
  mat_rows := im_rows;
  resize := fun im _ _ => Ok im;
  setTo_zero_where_zero := fun im _ => Ok im;
  mat_roi := fun im _ => Ok im;
  findContours := im_contours;
  minAreaRect := min_area;
  boundingRect := bounding;
  stof := stof_decimal;
  std_sort := sort_by;
|}.

(** The files. Recording 1 has a mask with two blobs, 10 by 10 and 25
    by 20; recording 2 has a mask without foreground. *)
Definition blob_small : Contour := [(0, 0); (10, 0); (10, 10); (0, 10)].
Definition blob_large : Contour := [(20, 20); (45, 20); (45, 40); (20, 40)].

Definition pcb1_entries : list path :=
  [ "/data/pcb1/rec1.jpg"; "/data/pcb1/rec1-mask.png"; "/data/pcb1/rec1-annot.txt";
    "/data/pcb1/rec2.jpg"; "/data/pcb1/rec2-mask.png"; "/data/pcb1/rec2-annot.txt";
    "/data/pcb1/rec.jpg"; "/data/pcb1/rec12a.jpg"; "/data/pcb1/notes.txt";
    "/data/pcb1/raw" ].

Definition regular_files : list path :=
  [ "/data/pcb1/rec1.jpg"; "/data/pcb1/rec1-mask.png"; "/data/pcb1/rec1-annot.txt";
    "/data/pcb1/rec2.jpg"; "/data/pcb1/rec2-mask.png"; "/data/pcb1/rec2-annot.txt";
    "/data/pcb1/rec.jpg"; "/data/pcb1/rec12a.jpg"; "/data/pcb1/notes.txt";
    "/data/readme.txt" ].

Definition directories : list path :=
  [ "/data"; "/data/pcb1"; "/data/pcb12x"; "/data/pcb1/raw"; "/data/misc" ].

Definition mem (p : path) (l : list path) : bool := existsb (String.eqb p) l.

Definition annot1 : list string :=
  [ "50 50 10 10 0 R1 0402"; "120 80 40 20 90 U7"; "30 30 5 5 0" ].

Definition annot2 : list string :=
  [ "50 50 0 -10 0 X"; "70 30 20 10 45 C3 " ].

Definition world : World := {|
  is_directory := fun p => mem p directories;
  is_regular_file := fun p => mem p regular_files;
  directory_iterator := fun p =>
    if String.eqb p "/data" then
      [ "/data/pcb1"; "/data/readme.txt"; "/data/pcb12x"; "/data/misc" ]
    else if String.eqb p "/data/pcb1" then pcb1_entries
    else [];
  getlines := fun p =>
    if String.eqb p "/data/pcb1/rec1-annot.txt" then annot1
    else if String.eqb p "/data/pcb1/rec2-annot.txt" then annot2
    else [];
  imread := fun p _ =>
    if String.eqb p "/data/pcb1/rec1-mask.png" then mkImage 100 [blob_large; blob_small]
    else if mem p regular_files then mkImage 100 []
    else mkImage 0 [];
|}.

(** The same paths after every annotation file was emptied and the
    masks were blanked. *)
Definition world_later : World := {|
  is_directory := fun p => mem p directories;
  is_regular_file := fun p => mem p regular_files;
  directory_iterator := fun _ => [];
  getlines := fun _ => [];
  imread := fun p _ => if mem p regular_files then mkImage 100 [] else mkImage 0 [];
|}.

Definition no_range : Vec2f := mkVec2f (F.of_int 0) (F.of_int 0).

(** Sizes of at least 0.01 cm^2; aspect ratios of at most 1.5. *)
Definition at_least_001 : Vec2f := mkVec2f (F.div (F.of_int 1) (F.of_int 100)) (F.of_int 0).
Definition at_most_15 : Vec2f := mkVec2f (F.of_int 0) (F.div (F.of_int 3) (F.of_int 2)).

(** The board at scale 1, as [PCB::PCB] builds it. *)
Definition pcb1 : PCB.t :=
  PCB.mk "/data/pcb1" (F.of_int 1)
    (<[12 := "/data/pcb1/rec12a.jpg"]>
       (<[2 := "/data/pcb1/rec2.jpg"]> (<[1 := "/data/pcb1/rec1.jpg"]> ∅)))
    ∅ ∅.

End Demo.

(** The number of separators of a line. *)
Fixpoint count_spaces (s : string) : nat :=
  match s with
  | EmptyString => O
  | String c s' => if Ascii.eqb c " " then S (count_spaces s') else count_spaces s'
  end.

(** ** More states of the filesystem *)

Module More.

(** The files of [Demo.world], each directory listed backwards. *)
Definition world_reversed : World := {|
  is_directory := is_directory Demo.world;
  is_regular_file := is_regular_file Demo.world;
  directory_iterator := fun p => rev (directory_iterator Demo.world p);
  getlines := getlines Demo.world;
  imread := imread Demo.world;
|}.

(** Recording 1 with an annotation file that ends in an empty line, and
    recording 2 without mask file and with an annotation file whose
    only line is 5 by 5. *)
Definition world_edges : World := {|
  is_directory := is_directory Demo.world;
  is_regular_file := fun p =>
    if String.eqb p "/data/pcb1/rec2-mask.png" then false else is_regular_file Demo.world p;
  directory_iterator := directory_iterator Demo.world;
  getlines := fun p =>
    if String.eqb p "/data/pcb1/rec1-annot.txt" then ["50 50 10 10 0 R1 0402"; ""]
    else if String.eqb p "/data/pcb1/rec2-annot.txt" then ["30 30 5 5 0 C9"]
    else [];
  imread := imread Demo.world;
|}.

(** A 20 by 10 annotation at scale 1.0f. *)
Definition annot_unit : Annot.t :=
  Annot.mk (mkRotatedRect (mkPoint2f (F.of_int 50) (F.of_int 50))
                          (mkSize2f (F.of_int 20) (F.of_int 10))
                          (F.of_int 0))
           (F.of_int 1) "R1".

(** The files of [Demo.world] with two more entries: a picture
    [recording.jpg] in the board directory and a directory [pcb_old]
    beside it. *)
Definition world_stray : World := {|
  is_directory := fun p =>
    String.eqb p "/data/pcb_old" || is_directory Demo.world p;
  is_regular_file := fun p =>
    String.eqb p "/data/pcb1/recording.jpg" || is_regular_file Demo.world p;
  directory_iterator := fun p =>
    if String.eqb p "/data" then directory_iterator Demo.world p ++ ["/data/pcb_old"]
    else if String.eqb p "/data/pcb1" then
      directory_iterator Demo.world p ++ ["/data/pcb1/recording.jpg"]
    else directory_iterator Demo.world p;
  getlines := getlines Demo.world;
  imread := imread Demo.world;
|}.

(** The board of [Demo.pcb1] at scale 2, as [PCB::PCB] builds it, and
    the same with the crop rectangle of recording 1 stored. *)
Definition pcb1_x2 : PCB.t :=
  PCB.mk "/data/pcb1" (F.of_int 2) (PCB._recordings Demo.pcb1) ∅ ∅.

Definition pcb1_x2_cropped : PCB.t :=
  PCB.mk "/data/pcb1" (F.of_int 2) (PCB._recordings Demo.pcb1)
         (<[1 := mkRect 20 20 26 21]> ∅) ∅.

(** An annotation with whole-numbered fields. *)
Definition annot_at (cx cy wd ht an s : Z) (t : string) : Annot.t :=
  Annot.mk (mkRotatedRect (mkPoint2f (F.of_int cx) (F.of_int cy))
                          (mkSize2f (F.of_int wd) (F.of_int ht)) (F.of_int an))
           (F.of_int s) t.

(** The three lines of recording 1, [50 50 10 10 0 R1 0402],
    [120 80 40 20 90 U7] and [30 30 5 5 0], at scale 2 and moved by the
    corner (20, 20) of the crop rectangle. *)
Definition rec1_x2_cropped : list Annot.t :=
  [ annot_at 80 80 20 20 0 2 "R1 0402";
    annot_at 220 140 80 40 90 2 "U7";
    annot_at 40 40 10 10 0 2 "" ].

End More.

(** * Properties *)

(** ** The string functions on examples *)

Example stoi_examples :
  Str.stoi "12x" = Ok 12 /\ Str.stoi "  -7" = Ok (-7) /\ Str.stoi "+3.5" = Ok 3 /\
  Str.stoi "x12" = Throw (invalid_argument "stoi") /\
  Str.stoi "" = Throw (invalid_argument "stoi") /\
  Str.stoi "2147483647" = Ok 2147483647 /\
  Str.stoi "2147483648" = Throw (out_of_range "stoi").
Proof. repeat split; reflexivity. Qed.

Example split_examples :
  Str.split "a b  c " = ["a"; "b"; ""; "c"; ""] /\ Str.split "" = [""].
Proof. split; reflexivity. Qed.

Example of_int_examples :
  Str.of_int 120 = "120" /\ Str.of_int (-7) = "-7" /\ Str.of_int 0 = "0".
Proof. repeat split; reflexivity. Qed.

Example path_examples :
  Path.filename "/data/pcb1/rec1.jpg" = "rec1.jpg" /\
  Path.parent_path "/data/pcb1/rec1.jpg" = "/data/pcb1" /\
  Path.append "/data/pcb1" "rec1-mask.png" = "/data/pcb1/rec1-mask.png".
Proof. repeat split; reflexivity. Qed.

(** ** The caches only grow *)

Lemma extends_refl a : extends a a.
Proof. repeat split; reflexivity. Qed.

Lemma extends_trans a b c : extends a b -> extends b c -> extends a c.
Proof.
  intros (r1 & s1 & m1 & c1 & i1) (r2 & s2 & m2 & c2 & i2).
  repeat split; try congruence; etransitivity; eassumption.
Qed.

Lemma UMap_index_present {V} (d v : V) k m :
  m !! k = Some v -> UMap.index d k m = (v, m).
Proof. intros H. unfold UMap.index. rewrite H. reflexivity. Qed.

Lemma UMap_count_1 {V} k (m : gmap Z V) :
  (UMap.count k m =? 1) = true <-> is_Some (m !! k).
Proof.
  unfold UMap.count. destruct (m !! k); simpl; split; intros H;
    try reflexivity; try discriminate; eauto. destruct H; discriminate.
Qed.

Lemma UMap_count_not_1 {V} k (m : gmap Z V) :
  (UMap.count k m =? 1) = false <-> m !! k = None.
Proof.
  unfold UMap.count. destruct (m !! k); simpl; split; intros H;
    try reflexivity; discriminate.
Qed.

Lemma UMap_insert_absent {V} k (v : V) m :
  m !! k = None -> UMap.insert k v m = <[k := v]> m.
Proof. intros H. unfold UMap.insert. rewrite H. reflexivity. Qed.

Lemma UMap_insert_subseteq {V} k (v : V) m : m ⊆ UMap.insert k v m.
Proof.
  unfold UMap.insert. destruct (m !! k) eqn:H; [reflexivity|].
  apply insert_subseteq, H.
Qed.

Lemma set_cache_cropinfo_id pcb : PCB.set_cache_cropinfo (PCB._cache_cropinfo pcb) pcb = pcb.
Proof. destruct pcb; reflexivity. Qed.

Lemma set_cache_ics_id pcb : PCB.set_cache_ics (PCB._cache_ics pcb) pcb = pcb.
Proof. destruct pcb; reflexivity. Qed.

Section CacheFacts.
Context `{E : Externals}.

(** A cached crop rectangle is returned as it is, whatever the files
    now hold, and the object is left alone. *)
Lemma cropinfo_cached w rec pcb r :
  PCB._cache_cropinfo pcb !! rec = Some r ->
  PCB._cropinfo w rec pcb = (Ok r, pcb).
Proof.
  intros H. unfold PCB._cropinfo.
  assert (Hc : (UMap.count rec (PCB._cache_cropinfo pcb) =? 1) = true)
    by (apply UMap_count_1; eauto).
  rewrite Hc, (UMap_index_present _ r) by exact H.
  rewrite set_cache_cropinfo_id. reflexivity.
Qed.

(** What an uncached [_cropinfo] does, by the outcome of [mask] and of
    the access to the last contour. *)
Lemma cropinfo_uncached w rec pcb :
  PCB._cache_cropinfo pcb !! rec = None ->
  PCB._cropinfo w rec pcb =
    match PCB.mask w pcb rec with
    | Ok im =>
        match PCB.back (std_sort Contour PCB.by_min_area (findContours im)) with
        | Ok c => (Ok (boundingRect c),
                   PCB.set_cache_cropinfo
                     (<[rec := boundingRect c]> (PCB._cache_cropinfo pcb)) pcb)
        | Throw e => (Throw e, pcb)
        | Undefined => (Undefined, pcb)
        end
    | Throw e => (Throw e, pcb)
    | Undefined => (Undefined, pcb)
    end.
Proof.
  intros H. unfold PCB._cropinfo.
  assert (Hc : (UMap.count rec (PCB._cache_cropinfo pcb) =? 1) = false)
    by (apply UMap_count_not_1; exact H).
  rewrite Hc. destruct (PCB.mask w pcb rec) as [im|e|]; try reflexivity.
  destruct (PCB.back _) as [c|e|]; try reflexivity.
  rewrite (UMap_insert_absent _ _ _ H). simpl.
  rewrite (UMap_index_present _ (boundingRect c)) by apply lookup_insert_eq.
  destruct pcb; reflexivity.
Qed.

Lemma cropinfo_ok_cached w rec pcb r pcb' :
  PCB._cropinfo w rec pcb = (Ok r, pcb') ->
  PCB._cache_cropinfo pcb' !! rec = Some r.
Proof.
  destruct (PCB._cache_cropinfo pcb !! rec) as [r0|] eqn:H.
  - rewrite (cropinfo_cached _ _ _ _ H). intros [= <- <-]. exact H.
  - rewrite (cropinfo_uncached _ _ _ H).
    destruct (PCB.mask w pcb rec) as [im|e|];
      [destruct (PCB.back _) as [c|e|]|..]; intros [= <- <-].
    simpl. apply lookup_insert_eq.
Qed.

Lemma cropinfo_extends w rec pcb o pcb' :
  PCB._cropinfo w rec pcb = (o, pcb') ->
  extends pcb pcb' /\ PCB._cache_ics pcb' = PCB._cache_ics pcb.
Proof.
  destruct (PCB._cache_cropinfo pcb !! rec) as [r|] eqn:H.
  - rewrite (cropinfo_cached _ _ _ _ H). intros [= <- <-].
    split; [apply extends_refl | reflexivity].
  - rewrite (cropinfo_uncached _ _ _ H).
    destruct (PCB.mask w pcb rec) as [im|e|];
      [destruct (PCB.back _) as [c|e|]|..]; intros [= <- <-];
      try (split; [apply extends_refl | reflexivity]).
    split; [|reflexivity].
    repeat split; simpl; try reflexivity.
    apply insert_subseteq, H.
Qed.

End CacheFacts.

(** ** The annotation loop as a filter and a map *)

Section IcsLines.
Context `{E : Externals}.

(** One turn of the loop, with the four tests read as [rejected]. *)
Lemma ics_lines_cons w rec cropped sz asp line rest acc pcb :
  PCB.ics_lines w rec cropped sz asp (line :: rest) acc pcb =
    match PCB.parse_line line with
    | Ok p =>
        if rejected sz asp (fst p) then PCB.ics_lines w rec cropped sz asp rest acc pcb
        else if cropped then
          match PCB._cropinfo w rec pcb with
          | (Ok ci, pcb1) =>
              PCB.ics_lines w rec cropped sz asp rest
                (acc ++ [emit (PCB.scale pcb) (Some ci) p]) pcb1
          | (Throw e, pcb1) => (Throw e, pcb1)
          | (Undefined, pcb1) => (Undefined, pcb1)
          end
        else PCB.ics_lines w rec cropped sz asp rest
               (acc ++ [emit (PCB.scale pcb) None p]) pcb
    | Throw e => (Throw e, pcb)
    | Undefined => (Undefined, pcb)
    end.
Proof.
  cbn [PCB.ics_lines]. unfold PCB.bind at 1, PCB.lift.
  destruct (PCB.parse_line line) as [[rr split]|e|]; try reflexivity.
  unfold rejected. cbn [fst snd].
  destruct (F.ltb (F.of_int 0) (v0 sz) && _); [reflexivity|].
  destruct (F.ltb (F.of_int 0) (v1 sz) && _); [reflexivity|].
  destruct (F.ltb (F.of_int 0) (v0 asp) && _); [reflexivity|].
  destruct (F.ltb (F.of_int 0) (v1 asp) && _); [reflexivity|].
  cbn [orb]. destruct cropped.
  - unfold PCB.bind, PCB.ret.
    destruct (PCB._cropinfo w rec pcb) as [[ci|e|] pcb1]; reflexivity.
  - reflexivity.
Qed.

(** Without cropping, or with the crop rectangle already cached, the
    loop touches nothing and is [parse_all], [kept] and [emit]. *)
Lemma ics_lines_pure w rec cropped sz asp lines acc pcb ci :
  (cropped = true -> PCB._cache_cropinfo pcb !! rec = Some ci) ->
  PCB.ics_lines w rec cropped sz asp lines acc pcb =
    (ps ← parse_all lines;
     Ok (acc ++ map (emit (PCB.scale pcb) (if cropped then Some ci else None))
                    (kept sz asp ps)),
     pcb).
Proof.
  intros Hc. revert acc. induction lines as [|line rest IH]; intros acc.
  - simpl. unfold PCB.ret. rewrite app_nil_r. reflexivity.
  - rewrite ics_lines_cons. cbn [parse_all].
    destruct (PCB.parse_line line) as [p|e|]; try reflexivity.
    cbn [mbind outcome_bind].
    destruct (rejected sz asp (fst p)) eqn:Hr.
    + rewrite IH. destruct (parse_all rest) as [ps|e|]; try reflexivity.
      cbn [mbind outcome_bind]. unfold kept. cbn [List.filter]. rewrite Hr. reflexivity.
    + destruct cropped.
      * rewrite (cropinfo_cached _ _ _ _ (Hc eq_refl)), IH.
        destruct (parse_all rest) as [ps|e|]; try reflexivity.
        cbn [mbind outcome_bind]. unfold kept. cbn [List.filter]. rewrite Hr.
        cbn [negb map]. rewrite <- app_assoc. reflexivity.
      * rewrite IH. destruct (parse_all rest) as [ps|e|]; try reflexivity.
        cbn [mbind outcome_bind]. unfold kept. cbn [List.filter]. rewrite Hr.
        cbn [negb map]. rewrite <- app_assoc. reflexivity.
Qed.

(** A loop that returns has parsed every line and pushed [emit] of the
    lines [kept], in order; the crop rectangle, when one was needed, is
    what [_cropinfo] returned on the object as the call found it. *)
Lemma ics_lines_ok w rec cropped sz asp lines acc pcb res pcb' :
  PCB.ics_lines w rec cropped sz asp lines acc pcb = (Ok res, pcb') ->
  exists ps off,
    parse_all lines = Ok ps /\
    res = acc ++ map (emit (PCB.scale pcb) off) (kept sz asp ps) /\
    (cropped = false -> off = None /\ pcb' = pcb) /\
    (cropped = true ->
       (kept sz asp ps = [] /\ pcb' = pcb) \/
       (exists ci, off = Some ci /\ PCB._cropinfo w rec pcb = (Ok ci, pcb'))).
Proof.
  destruct cropped.
  2:{ rewrite (ics_lines_pure _ _ false _ _ _ _ _ (mkRect 0 0 0 0)) by discriminate.
      destruct (parse_all lines) as [ps|e|]; cbn [mbind outcome_bind]; intros [= <- <-].
      exists ps, None. repeat split; try reflexivity. discriminate. }
  revert acc. induction lines as [|line rest IH]; intros acc.
  - simpl. unfold PCB.ret. intros [= <- <-]. exists [], None.
    repeat split; try discriminate.
    + simpl. rewrite app_nil_r. reflexivity.
    + intros _. left. split; reflexivity.
  - rewrite ics_lines_cons. cbn [parse_all].
    destruct (PCB.parse_line line) as [p|e|]; try discriminate.
    cbn [mbind outcome_bind].
    destruct (rejected sz asp (fst p)) eqn:Hr.
    + intros H. destruct (IH _ H) as (ps & off & Hp & Hres & Hf & Ht).
      exists (p :: ps), off. rewrite Hp. cbn [mbind outcome_bind].
      unfold kept in *. cbn [List.filter]. rewrite Hr. cbn [negb].
      repeat split; try assumption; try discriminate.
    + destruct (PCB._cropinfo w rec pcb) as [[ci|e|] pcb1] eqn:Hci; try discriminate.
      pose proof (cropinfo_ok_cached _ _ _ _ _ Hci) as Hcache.
      destruct (cropinfo_extends _ _ _ _ _ Hci) as [(_ & Hs & _) _].
      rewrite (ics_lines_pure _ _ true _ _ _ _ _ ci) by (intros _; exact Hcache).
      destruct (parse_all rest) as [ps|e|]; cbn [mbind outcome_bind]; intros [= <- <-].
      exists (p :: ps), (Some ci). unfold kept. cbn [List.filter]. rewrite Hr.
      cbn [negb map]. rewrite Hs, <- app_assoc.
      repeat split; try discriminate.
      intros _. right. exists ci. split; reflexivity.
Qed.

Lemma ics_lines_extends w rec cropped sz asp lines acc pcb o pcb' :
  PCB.ics_lines w rec cropped sz asp lines acc pcb = (o, pcb') ->
  extends pcb pcb' /\ PCB._cache_ics pcb' = PCB._cache_ics pcb.
Proof.
  revert acc pcb. induction lines as [|line rest IH]; intros acc pcb.
  - simpl. unfold PCB.ret. intros [= <- <-]. split; [apply extends_refl|reflexivity].
  - rewrite ics_lines_cons.
    destruct (PCB.parse_line line) as [p|e|];
      try (intros [= <- <-]; split; [apply extends_refl|reflexivity]).
    destruct (rejected sz asp (fst p)); [apply IH|].
    destruct cropped; [|apply IH].
    destruct (PCB._cropinfo w rec pcb) as [[ci|e|] pcb1] eqn:Hci;
      destruct (cropinfo_extends _ _ _ _ _ Hci) as [Hx Hi];
      try (intros [= <- <-]; split; assumption).
    intros H. destruct (IH _ _ H) as [Hx' Hi'].
    split; [eapply extends_trans; eassumption | congruence].
Qed.

End IcsLines.

(** ** Calls on one object *)

Section Calls.
Context `{E : Externals}.

Lemma ics_cached w rec cropped sz asp pcb r :
  PCB._cache_ics pcb !! rec = Some r ->
  PCB.ics w rec cropped sz asp pcb = (Ok r, pcb).
Proof.
  intros H. unfold PCB.ics.
  assert (Hc : (UMap.count rec (PCB._cache_ics pcb) =? 1) = true)
    by (apply UMap_count_1; eauto).
  rewrite Hc, (UMap_index_present _ r) by exact H.
  rewrite set_cache_ics_id. reflexivity.
Qed.

Lemma ics_uncached w rec cropped sz asp pcb :
  PCB._cache_ics pcb !! rec = None ->
  PCB.ics w rec cropped sz asp pcb =
    match PCB._recordings pcb !! rec with
    | None => (Throw (invalid_argument "Recording does not exist."), pcb)
    | Some p =>
        if negb (is_regular_file w (PCB.annot_path p rec)) then
          (Throw (runtime_error "Annotation file does not exist."), pcb)
        else
          match PCB.ics_lines w rec cropped sz asp
                  (getlines w (PCB.annot_path p rec)) [] pcb with
          | (Ok res, pcb1) =>
              (Ok res, PCB.set_cache_ics (<[rec := res]> (PCB._cache_ics pcb1)) pcb1)
          | (Throw e, pcb1) => (Throw e, pcb1)
          | (Undefined, pcb1) => (Undefined, pcb1)
          end
    end.
Proof.
  intros H. unfold PCB.ics.
  assert (Hc : (UMap.count rec (PCB._cache_ics pcb) =? 1) = false)
    by (apply UMap_count_not_1; exact H).
  rewrite Hc. destruct (PCB._recordings pcb !! rec) as [p|]; [|reflexivity].
  destruct (negb _); [reflexivity|]. unfold PCB.bind.
  destruct (PCB.ics_lines _ _ _ _ _ _ _ _) as [[res|e|] pcb1] eqn:Hl; try reflexivity.
  destruct (ics_lines_extends _ _ _ _ _ _ _ _ _ _ Hl) as [_ Hi].
  assert (H1 : PCB._cache_ics pcb1 !! rec = None) by (rewrite Hi; exact H).
  rewrite (UMap_insert_absent _ _ _ H1). simpl.
  rewrite (UMap_index_present _ res) by apply lookup_insert_eq.
  destruct pcb1; reflexivity.
Qed.

Lemma ics_ok_cached w rec cropped sz asp pcb r pcb' :
  PCB.ics w rec cropped sz asp pcb = (Ok r, pcb') ->
  PCB._cache_ics pcb' !! rec = Some r.
Proof.
  destruct (PCB._cache_ics pcb !! rec) as [r0|] eqn:H.
  - rewrite (ics_cached _ _ _ _ _ _ _ H). intros [= <- <-]. exact H.
  - rewrite (ics_uncached _ _ _ _ _ _ H).
    destruct (PCB._recordings pcb !! rec) as [p|]; [|discriminate].
    destruct (negb _); [discriminate|].
    destruct (PCB.ics_lines _ _ _ _ _ _ _ _) as [[res|e|] pcb1]; intros [= <- <-].
    simpl. apply lookup_insert_eq.
Qed.

Lemma ics_extends w rec cropped sz asp pcb o pcb' :
  PCB.ics w rec cropped sz asp pcb = (o, pcb') -> extends pcb pcb'.
Proof.
  destruct (PCB._cache_ics pcb !! rec) as [r0|] eqn:H.
  - rewrite (ics_cached _ _ _ _ _ _ _ H). intros [= <- <-]. apply extends_refl.
  - rewrite (ics_uncached _ _ _ _ _ _ H).
    destruct (PCB._recordings pcb !! rec) as [p|];
      [|intros [= <- <-]; apply extends_refl].
    destruct (negb _); [intros [= <- <-]; apply extends_refl|].
    destruct (PCB.ics_lines _ _ _ _ _ _ _ _) as [[res|e|] pcb1] eqn:Hl;
      destruct (ics_lines_extends _ _ _ _ _ _ _ _ _ _ Hl) as [Hx Hi];
      intros [= <- <-]; try exact Hx.
    eapply extends_trans; [exact Hx|].
    repeat split; simpl; try reflexivity.
    apply insert_subseteq. rewrite Hi. exact H.
Qed.

Lemma imageMasked_extends w rec pcb o pcb' :
  PCB.imageMasked w rec pcb = (o, pcb') -> extends pcb pcb'.
Proof.
  unfold PCB.imageMasked, PCB.bind, PCB.lift.
  destruct (PCB.image w pcb rec) as [im|e|];
    try (intros [= <- <-]; apply extends_refl).
  destruct (PCB.mask w pcb rec) as [msk|e|];
    try (intros [= <- <-]; apply extends_refl).
  destruct (setTo_zero_where_zero im msk) as [im'|e|];
    try (intros [= <- <-]; apply extends_refl).
  destruct (PCB._cropinfo w rec pcb) as [[ci|e|] pcb1] eqn:Hci;
    destruct (cropinfo_extends _ _ _ _ _ Hci) as [Hx _];
    intros [= <- <-]; exact Hx.
Qed.

Lemma call_extends pcb pcb' : call pcb pcb' -> extends pcb pcb'.
Proof.
  intros [w rec cropped sz asp p o p' H _ | w rec p o p' H _].
  - eapply ics_extends, H.
  - eapply imageMasked_extends, H.
Qed.

Lemma calls_extends pcb pcb' : calls pcb pcb' -> extends pcb pcb'.
Proof.
  induction 1 as [|pcb pcb1 pcb2 H1 _ IH]; [apply extends_refl|].
  eapply extends_trans; [apply call_extends, H1 | exact IH].
Qed.

Lemma calls_keep_ics pcb pcb' rec r :
  calls pcb pcb' ->
  PCB._cache_ics pcb !! rec = Some r -> PCB._cache_ics pcb' !! rec = Some r.
Proof.
  intros H%calls_extends. destruct H as (_ & _ & _ & _ & Hi).
  intros Hr. eapply lookup_weaken; eassumption.
Qed.

Lemma calls_keep_cropinfo pcb pcb' rec r :
  calls pcb pcb' ->
  PCB._cache_cropinfo pcb !! rec = Some r ->
  PCB._cache_cropinfo pcb' !! rec = Some r.
Proof.
  intros H%calls_extends. destruct H as (_ & _ & _ & Hc & _).
  intros Hr. eapply lookup_weaken; eassumption.
Qed.

End Calls.

(** * The claims *)

(** ** Annot *)

(** C10. [sizePixels(true)] is [rect.size.width * rect.size.height];
    [sizePixels(false)] is that product divided by [scale]; [sizeCm2]
    follows the same convention: its unscaled value is its scaled value
    divided by [scale]. *)
Theorem sizePixels_convention (a : Annot.t) :
  Annot.sizePixels a true
    = F.mul (width (size (Annot.rect a))) (height (size (Annot.rect a))) /\
  Annot.sizePixels a false
    = F.div (F.mul (width (size (Annot.rect a))) (height (size (Annot.rect a))))
            (Annot.scale a) /\
  Annot.sizeCm2 a false = F.div (Annot.sizeCm2 a true) (Annot.scale a).
Proof. repeat split; reflexivity. Qed.

(** C2. An annotation of a 10 by 10 rectangle at scale 2 has the
    rectangle 20 by 20. Its [sizeCm2(false)] is twice the area of the 10
    by 10 rectangle, not that area: the doubled sides make the area four
    times as large, and [sizeCm2] divides by [scale] once. *)
Theorem sizeCm2_at_scale_2 :
  Annot.sizeCm2 (Annot.mk (upright 20 20) (F.of_int 2) "") false
    = F.mul (F.of_int 2) (cm2 (F.of_int 10) (F.of_int 10)) /\
  Annot.sizeCm2 (Annot.mk (upright 20 20) (F.of_int 2) "") false
    <> cm2 (F.of_int 10) (F.of_int 10) /\
  Annot.sizeCm2 (Annot.mk (upright 10 10) (F.of_int 1) "") false
    = cm2 (F.of_int 10) (F.of_int 10).
Proof.
  split; [vm_compute; reflexivity|].
  split; [vm_compute; discriminate | vm_compute; reflexivity].
Qed.

(** ** The caches *)

(** C1. Once [ics(rec, ...)] has returned a list, every later call of
    [ics] for the same [rec] on the same object returns that list, and
    leaves the object as it is: whatever was called in between, whatever
    the arguments, and whatever the files hold by then. *)
Theorem ics_cache_sticky `{E : Externals} (w : World) rec cropped sz asp pcb r pcb1 :
  PCB.ics w rec cropped sz asp pcb = (Ok r, pcb1) ->
  forall pcb2, calls pcb1 pcb2 ->
  forall (w' : World) cropped' sz' asp',
    PCB.ics w' rec cropped' sz' asp' pcb2 = (Ok r, pcb2).
Proof.
  intros H pcb2 Hcalls w' cropped' sz' asp'.
  apply ics_cached.
  eapply calls_keep_ics; [exact Hcalls|].
  eapply ics_ok_cached, H.
Qed.

(** ** The crop rectangle *)

Section SortedLast.
Context {A : Type} (comp : A -> A -> bool).


End SortedLast.



#[local] Existing Instance Demo.externals.


Example cropinfo_demo :
  fst (PCB._cropinfo Demo.world 1 Demo.pcb1) = Ok (mkRect 20 20 26 21) /\
  area (size (minAreaRect Demo.blob_small)) = F.of_int 100 /\
  area (size (minAreaRect Demo.blob_large)) = F.of_int 500.
Proof. repeat split; vm_compute; reflexivity. Qed.

(** On the small dataset: the list of recording 1 is computed without
    filter, then asked for again, cropped and with ranges that admit
    nothing, after recording 2 was read and the files were emptied. *)
Lemma ics_cache_sticky_witness :
  exists r pcb1 pcb2,
    PCB.ics Demo.world 1 false Demo.no_range Demo.no_range Demo.pcb1 = (Ok r, pcb1) /\
    length r = 3%nat /\
    calls pcb1 pcb2 /\
    PCB.ics Demo.world_later 1 true
      (mkVec2f (F.of_int 1000) (F.of_int 1)) (mkVec2f (F.of_int 1000) (F.of_int 1)) pcb2
    = (Ok r, pcb2).
Proof.
  eexists _, _, _.
  split; [vm_compute; reflexivity|].
  split; [reflexivity|].
  split.
  - eapply calls_cons; [|apply calls_nil].
    eapply (call_ics Demo.world 2 false Demo.no_range Demo.no_range).
    + vm_compute. reflexivity.
    + discriminate.
  - eapply (ics_cache_sticky Demo.world 1 false Demo.no_range Demo.no_range Demo.pcb1).
    + vm_compute. reflexivity.
    + eapply calls_cons; [|apply calls_nil].
      eapply (call_ics Demo.world 2 false Demo.no_range Demo.no_range).
      * vm_compute. reflexivity.
      * discriminate.
Defined.

(** Without a contour the access [cnt[cnt.size()-1]] is out of bounds:
    nothing is thrown and nothing is stored. *)
Lemma cropinfo_no_contours `{E : Externals} (w : World) rec pcb im :
  PCB._cache_cropinfo pcb !! rec = None ->
  PCB.mask w pcb rec = Ok im ->
  findContours im = [] ->
  Permutation (std_sort Contour PCB.by_min_area (findContours im)) (findContours im) ->
  PCB._cropinfo w rec pcb = (Undefined, pcb).
Proof.
  intros Hnone Hmask Hnil Hperm.
  rewrite (cropinfo_uncached _ _ _ Hnone), Hmask.
  rewrite Hnil in Hperm. apply Permutation_sym, Permutation_nil in Hperm.
  rewrite Hnil, Hperm. reflexivity.
Qed.

(** C4. Recording 2 of the small dataset has a mask that decodes and has
    no foreground. [_cropinfo] does not throw: it reads past the empty
    contour vector, and so do [imageMasked] and [ics] with [cropped]. *)
Theorem cropinfo_empty_mask_undefined :
  PCB.mask Demo.world Demo.pcb1 2 = Ok (Demo.mkImage 100 []) /\
  findContours (Demo.mkImage 100 []) = [] /\
  PCB._cropinfo Demo.world 2 Demo.pcb1 = (Undefined, Demo.pcb1) /\
  PCB.imageMasked Demo.world 2 Demo.pcb1 = (Undefined, Demo.pcb1) /\
  PCB.ics Demo.world 2 true Demo.no_range Demo.no_range Demo.pcb1 = (Undefined, Demo.pcb1).
Proof. repeat split; vm_compute; reflexivity. Qed.

(** ** The annotation list *)

Lemma rejected_no_range rr :
  rejected (mkVec2f (F.of_int 0) (F.of_int 0)) (mkVec2f (F.of_int 0) (F.of_int 0)) rr = false.
Proof. reflexivity. Qed.

Lemma kept_no_range ps :
  kept (mkVec2f (F.of_int 0) (F.of_int 0)) (mkVec2f (F.of_int 0) (F.of_int 0)) ps = ps.
Proof.
  unfold kept. induction ps as [|q ps IH]; [reflexivity|].
  cbn [List.filter]. rewrite rejected_no_range. cbn [negb]. rewrite IH. reflexivity.
Qed.

(** An uncached [ics] that returns: the recording is known, every line of
    its annotation file was parsed, and the result is [emit] of the lines
    [kept], in file order. *)
Lemma ics_uncached_ok `{E : Externals} (w : World) rec cropped sz asp pcb res pcb' :
  PCB._cache_ics pcb !! rec = None ->
  PCB.ics w rec cropped sz asp pcb = (Ok res, pcb') ->
  exists p ps off,
    PCB._recordings pcb !! rec = Some p /\
    is_regular_file w (PCB.annot_path p rec) = true /\
    parse_all (getlines w (PCB.annot_path p rec)) = Ok ps /\
    res = map (emit (PCB.scale pcb) off) (kept sz asp ps).
Proof.
  intros Hnone. rewrite (ics_uncached _ _ _ _ _ _ Hnone).
  destruct (PCB._recordings pcb !! rec) as [p|]; [|discriminate].
  destruct (is_regular_file w (PCB.annot_path p rec)) eqn:Hreg; [|discriminate].
  cbn [negb].
  destruct (PCB.ics_lines _ _ _ _ _ _ _ _) as [[r|e|] pcb1] eqn:Hl; try discriminate.
  intros [= <- <-].
  destruct (ics_lines_ok _ _ _ _ _ _ _ _ _ _ Hl) as (ps & off & Hp & Hr & _).
  exists p, ps, off. repeat split; try assumption.
Qed.

(** C5. In an uncached [ics] call that returns, a line is dropped exactly
    when [rejected] holds for its parsed rectangle: the size in cm^2 below
    a positive [size(0)] or above a positive [size(1)], or the aspect ratio
    below a positive [aspect(0)] or above a positive [aspect(1)], both
    measured on the rectangle as parsed, before any scaling. The result is
    the remaining lines in file order; with both ranges (0, 0) it is every
    line. *)
Theorem ics_filter `{E : Externals} (w : World) rec cropped sz asp pcb res pcb' :
  PCB._cache_ics pcb !! rec = None ->
  PCB.ics w rec cropped sz asp pcb = (Ok res, pcb') ->
  exists p ps off,
    PCB._recordings pcb !! rec = Some p /\
    parse_all (getlines w (PCB.annot_path p rec)) = Ok ps /\
    res = map (emit (PCB.scale pcb) off)
              (List.filter (fun q => negb (rejected sz asp (fst q))) ps) /\
    (forall rr, rejected sz asp rr =
       let size_cm2 := F.div (cm2 (width (size rr)) (height (size rr))) (F.of_int 1) in
       let aspect := F.div (F.max (width (size rr)) (height (size rr)))
                           (F.min (width (size rr)) (height (size rr))) in
       (F.ltb (F.of_int 0) (v0 sz) && F.ltb size_cm2 (v0 sz))
       || (F.ltb (F.of_int 0) (v1 sz) && F.ltb (v1 sz) size_cm2)
       || (F.ltb (F.of_int 0) (v0 asp) && F.ltb aspect (v0 asp))
       || (F.ltb (F.of_int 0) (v1 asp) && F.ltb (v1 asp) aspect)) /\
    (sz = mkVec2f (F.of_int 0) (F.of_int 0) ->
     asp = mkVec2f (F.of_int 0) (F.of_int 0) ->
     res = map (emit (PCB.scale pcb) off) ps).
Proof.
  intros Hnone Hics.
  destruct (ics_uncached_ok _ _ _ _ _ _ _ _ Hnone Hics) as (p & ps & off & Hp & _ & Hps & Hr).
  exists p, ps, off. repeat split; try assumption.
  intros -> ->. rewrite Hr, kept_no_range. reflexivity.
Qed.

(** On the small dataset: recording 1 with sizes of at least 0.01 cm^2
    and aspect ratios of at most 1.5. Of the lines 10 by 10, 40 by 20 and
    5 by 5, the second is too long and the third too small. *)
Lemma ics_filter_witness :
  exists res pcb',
    PCB.ics Demo.world 1 false Demo.at_least_001 Demo.at_most_15 Demo.pcb1 = (Ok res, pcb') /\
    map Annot.text res = ["R1 0402"] /\
    exists p ps off,
      PCB._recordings Demo.pcb1 !! 1 = Some p /\
      parse_all (getlines Demo.world (PCB.annot_path p 1)) = Ok ps /\
      res = map (emit (PCB.scale Demo.pcb1) off)
                (List.filter (fun q => negb (rejected Demo.at_least_001 Demo.at_most_15 (fst q))) ps) /\
      (forall rr, rejected Demo.at_least_001 Demo.at_most_15 rr =
         let size_cm2 := F.div (cm2 (width (size rr)) (height (size rr))) (F.of_int 1) in
         let aspect := F.div (F.max (width (size rr)) (height (size rr)))
                             (F.min (width (size rr)) (height (size rr))) in
         (F.ltb (F.of_int 0) (v0 Demo.at_least_001) && F.ltb size_cm2 (v0 Demo.at_least_001))
         || (F.ltb (F.of_int 0) (v1 Demo.at_least_001) && F.ltb (v1 Demo.at_least_001) size_cm2)
         || (F.ltb (F.of_int 0) (v0 Demo.at_most_15) && F.ltb aspect (v0 Demo.at_most_15))
         || (F.ltb (F.of_int 0) (v1 Demo.at_most_15) && F.ltb (v1 Demo.at_most_15) aspect)) /\
      (Demo.at_least_001 = mkVec2f (F.of_int 0) (F.of_int 0) ->
       Demo.at_most_15 = mkVec2f (F.of_int 0) (F.of_int 0) ->
       res = map (emit (PCB.scale Demo.pcb1) off) ps).
Proof.
  eexists _, _.
  split; [vm_compute; reflexivity|].
  split; [reflexivity|].
  eapply (ics_filter Demo.world 1 false Demo.at_least_001 Demo.at_most_15 Demo.pcb1).
  - vm_compute. reflexivity.
  - vm_compute. reflexivity.
Defined.

(** With both ranges (0, 0) all three lines of recording 1 come back. *)
Example ics_no_range_demo :
  map Annot.text (default [] (match fst (PCB.ics Demo.world 1 false Demo.no_range Demo.no_range Demo.pcb1) with
                              | Ok r => Some r
                              | _ => None
                              end))
  = ["R1 0402"; "U7"; ""].
Proof. vm_compute. reflexivity. Qed.

Lemma parse_all_elem `{E : Externals} lines ps q :
  parse_all lines = Ok ps -> q ∈ ps ->
  exists line, line ∈ lines /\ PCB.parse_line line = Ok q.
Proof.
  revert ps. induction lines as [|line rest IH]; intros ps.
  - intros [= <-] Hq. apply elem_of_nil in Hq. contradiction.
  - cbn [parse_all]. destruct (PCB.parse_line line) as [p|e|] eqn:Hp; try discriminate.
    cbn [mbind outcome_bind]. destruct (parse_all rest) as [ps'|e|]; try discriminate.
    cbn [mbind outcome_bind]. intros [= <-] Hq.
    apply elem_of_cons in Hq as [->|Hq].
    + exists line. split; [apply list_elem_of_here | exact Hp].
    + destruct (IH ps' eq_refl Hq) as (l & Hl & Hpl).
      exists l. split; [apply list_elem_of_further, Hl | exact Hpl].
Qed.

Lemma emit_size s off q :
  size (Annot.rect (emit s off q)) = size (PCB.scale_rect s (fst q)).
Proof. unfold emit. destruct off; reflexivity. Qed.

(** [emit], which is made of the code's [scale_rect] and [shift_rect],
    is the annotation written out field by field. *)
Lemma emit_annotation s off q : emit s off q = annotation s off q.
Proof.
  unfold emit, annotation, times, PCB.scale_rect, PCB.shift_rect.
  destruct q as [[[cx cy] [wd ht] an] toks].
  destruct (F.eqb s (F.of_int 1)), off; reflexivity.
Qed.

Lemma map_emit_annotation s off qs : map (emit s off) qs = map (annotation s off) qs.
Proof. apply map_ext. intros q. apply emit_annotation. Qed.

(** [parse_line] accepts any five numbers: a line with five or more
    fields whose first five [std::stof] converts is parsed, whatever the
    sign of the width and of the height. *)
Lemma parse_line_any_sign `{E : Externals} line cx cy wd ht an :
  (5 <= length (Str.split line))%nat ->
  stof (nth 0 (Str.split line) "") = Ok cx ->
  stof (nth 1 (Str.split line) "") = Ok cy ->
  stof (nth 2 (Str.split line) "") = Ok wd ->
  stof (nth 3 (Str.split line) "") = Ok ht ->
  stof (nth 4 (Str.split line) "") = Ok an ->
  PCB.parse_line line
    = Ok (mkRotatedRect (mkPoint2f cx cy) (mkSize2f wd ht) an, Str.split line).
Proof.
  intros Hlen H0 H1 H2 H3 H4. unfold PCB.parse_line.
  destruct (Z.ltb_spec (Z.of_nat (length (Str.split line))) 5) as [Hlt|_]; [lia|].
  rewrite H0, H1, H2, H3, H4. reflexivity.
Qed.

(** C6, as the code has it. [ics] does not look at the sign of a width
    or a height. Every annotation of an uncached call that returns has the
    size parsed from a line of the file, multiplied by [scale] when
    [scale != 1]; and a line is a parse error only for fewer than five
    fields or a field [std::stof] refuses, so that a zero or negative
    width or height is parsed like any other. *)
Theorem ics_sizes_as_parsed `{E : Externals} (w : World) rec cropped sz asp pcb res pcb' :
  PCB._cache_ics pcb !! rec = None ->
  PCB.ics w rec cropped sz asp pcb = (Ok res, pcb') ->
  (forall a, a ∈ res ->
     exists p line rr toks,
       PCB._recordings pcb !! rec = Some p /\
       line ∈ getlines w (PCB.annot_path p rec) /\
       PCB.parse_line line = Ok (rr, toks) /\
       rejected sz asp rr = false /\
       size (Annot.rect a) =
         if F.eqb (PCB.scale pcb) (F.of_int 1) then size rr
         else mkSize2f (F.mul (width (size rr)) (PCB.scale pcb))
                       (F.mul (height (size rr)) (PCB.scale pcb))) /\
  (forall line cx cy wd ht an,
     (5 <= length (Str.split line))%nat ->
     stof (nth 0 (Str.split line) "") = Ok cx ->
     stof (nth 1 (Str.split line) "") = Ok cy ->
     stof (nth 2 (Str.split line) "") = Ok wd ->
     stof (nth 3 (Str.split line) "") = Ok ht ->
     stof (nth 4 (Str.split line) "") = Ok an ->
     PCB.parse_line line
       = Ok (mkRotatedRect (mkPoint2f cx cy) (mkSize2f wd ht) an, Str.split line)).
Proof.
  intros Hnone Hics. split; [|apply @parse_line_any_sign].
  destruct (ics_uncached_ok _ _ _ _ _ _ _ _ Hnone Hics) as (p & ps & off & Hp & _ & Hps & ->).
  intros a Ha. apply list_elem_of_fmap in Ha as (q & -> & Hq).
  unfold kept in Hq. apply list_elem_of_In, filter_In in Hq as [Hq Hrej].
  apply list_elem_of_In in Hq.
  destruct (parse_all_elem _ _ _ Hps Hq) as (line & Hline & Hparse).
  destruct q as [rr toks].
  exists p, line, rr, toks. repeat split; try assumption.
  - apply negb_true_iff, Hrej.
  - rewrite emit_annotation. unfold annotation, times. cbn [Annot.rect size fst].
    destruct (F.eqb (PCB.scale pcb) (F.of_int 1)); [destruct rr as [c [wd ht] an]|];
      reflexivity.
Qed.

(** On the small dataset, the board at scale 2: the first line of
    recording 2 has width 0 and height -10, the second 20 and 10; they
    reach the caller as 0 and -20 and as 40 and 20. *)
Lemma ics_sizes_as_parsed_witness :
  exists res pcb',
    PCB.ics Demo.world 2 false Demo.no_range Demo.no_range More.pcb1_x2 = (Ok res, pcb') /\
    map (fun a => size (Annot.rect a)) res
      = [mkSize2f (F.of_int 0) (F.of_int (-20)); mkSize2f (F.of_int 40) (F.of_int 20)] /\
    forall a, a ∈ res ->
      exists p line rr toks,
        PCB._recordings More.pcb1_x2 !! 2 = Some p /\
        line ∈ getlines Demo.world (PCB.annot_path p 2) /\
        PCB.parse_line line = Ok (rr, toks) /\
        rejected Demo.no_range Demo.no_range rr = false /\
        size (Annot.rect a) =
          if F.eqb (PCB.scale More.pcb1_x2) (F.of_int 1) then size rr
          else mkSize2f (F.mul (width (size rr)) (PCB.scale More.pcb1_x2))
                        (F.mul (height (size rr)) (PCB.scale More.pcb1_x2)).
Proof.
  eexists _, _.
  split; [vm_compute; reflexivity|].
  split; [vm_compute; reflexivity|].
  eapply (ics_sizes_as_parsed Demo.world 2 false Demo.no_range Demo.no_range More.pcb1_x2).
  - vm_compute. reflexivity.
  - vm_compute. reflexivity.
Defined.

(** C6, as stated, fails: the line [50 50 0 -10 0 X] is no parse error,
    and its annotation has width 0 and height -10. *)
Lemma ics_returns_degenerate_annotation :
  exists a res pcb',
    In "50 50 0 -10 0 X" (getlines Demo.world "/data/pcb1/rec2-annot.txt") /\
    PCB.ics Demo.world 2 false Demo.no_range Demo.no_range Demo.pcb1 = (Ok res, pcb') /\
    In a res /\
    Annot.text a = "X" /\
    width (size (Annot.rect a)) = F.of_int 0 /\
    height (size (Annot.rect a)) = F.of_int (-10) /\
    F.ltb (F.of_int 0) (width (size (Annot.rect a))) = false /\
    F.ltb (F.of_int 0) (height (size (Annot.rect a))) = false.
Proof.
  eexists _, _, _.
  split; [left; reflexivity|].
  split; [vm_compute; reflexivity|].
  split; [left; reflexivity|].
  repeat split.
Qed.

(** C7. The line [70 30 20 10 45 C3 ] ends in a space, so its last token
    is empty: the separator written after [C3] stays, and the label is
    [C3] followed by a space. *)
Theorem label_keeps_trailing_space :
  Str.split "70 30 20 10 45 C3 " = ["70"; "30"; "20"; "10"; "45"; "C3"; ""] /\
  PCB.label (Str.split "70 30 20 10 45 C3 ") = "C3 " /\
  In "70 30 20 10 45 C3 " (getlines Demo.world "/data/pcb1/rec2-annot.txt") /\
  exists res pcb',
    PCB.ics Demo.world 2 false Demo.no_range Demo.no_range Demo.pcb1 = (Ok res, pcb') /\
    map Annot.text res = ["X"; "C3 "].
Proof.
  split; [reflexivity|]. split; [reflexivity|].
  split; [right; left; reflexivity|].
  eexists _, _. split; [vm_compute; reflexivity | reflexivity].
Qed.

(** ** The directory scans *)

Lemma substr_in_range s pos n :
  0 <= pos <= Str.size s ->
  Str.substr s pos n
    = Ok (String.substring (Z.to_nat pos)
            (match n with
             | None => String.length s
             | Some k => if k <? 0 then String.length s else Z.to_nat k
             end) s).
Proof.
  intros [H0 H1]. unfold Str.substr.
  destruct (Z.ltb_spec pos 0); [lia|].
  destruct (Z.ltb_spec (Str.size s) pos); [lia|]. reflexivity.
Qed.

Lemma size_nonneg s : 0 <= Str.size s.
Proof. unfold Str.size. lia. Qed.

Lemma substring_length n m s :
  String.length (String.substring n m s) = Nat.min m (String.length s - n).
Proof.
  revert n m. induction s as [|c s IH]; intros n m.
  - destruct n, m; reflexivity.
  - destruct n as [|n].
    + destruct m as [|m]; [reflexivity|]. simpl. rewrite IH. simpl.
      rewrite Nat.sub_0_r. reflexivity.
    + simpl. apply IH.
Qed.

Lemma size_after_3 s : 7 < Str.size s ->
  Str.size (String.substring 3 (String.length s) s) = Str.size s - 3.
Proof. unfold Str.size. rewrite substring_length. lia. Qed.

Lemma is_recording_name_eq fname :
  PCB.is_recording_name fname = Ok (is_rec_name fname).
Proof.
  unfold PCB.is_recording_name, is_rec_name. pose proof (size_nonneg fname).
  destruct (Z.ltb_spec 7 (Str.size fname)) as [H7|H7]; [|reflexivity].
  rewrite (substr_in_range fname 0 (Some 3)) by lia.
  rewrite (substr_in_range fname (Str.size fname - 4) (Some 4)) by lia.
  cbn [mbind outcome_bind andb].
  change (Z.to_nat 0) with 0%nat. change (if 3 <? 0 then _ else _) with 3%nat.
  change (if 4 <? 0 then _ else _) with 4%nat.
  destruct (String.eqb _ "rec"); reflexivity.
Qed.

Section Scans.
Context `{E : Externals}.

Lemma PCB_scan_eq (w : World) entries acc :
  PCB.scan w entries acc = scan_with (rec_key w) entries acc.
Proof.
  revert acc. induction entries as [|p rest IH]; intros acc; [reflexivity|].
  cbn [PCB.scan scan_with]. unfold rec_key.
  destruct (is_regular_file w p); cbn [andb]; [|apply IH].
  rewrite is_recording_name_eq. cbn [mbind outcome_bind].
  destruct (is_rec_name (Path.filename p)) eqn:Hn; [|apply IH].
  apply andb_true_iff in Hn as [[H7%Z.ltb_lt _]%andb_true_iff _].
  pose proof (size_after_3 _ H7) as Hrid.
  rewrite (substr_in_range (Path.filename p) 3 None) by lia. cbn [mbind outcome_bind].
  change (Z.to_nat 3) with 3%nat.
  rewrite (substr_in_range _ 0 (Some _)) by lia. cbn [mbind outcome_bind].
  change (Z.to_nat 0) with 0%nat.
  destruct (Z.ltb_spec (Str.size (String.substring 3 (String.length (Path.filename p))
                                    (Path.filename p)) - 4) 0) as [Hneg|_]; [lia|].
  fold (rec_digits (Path.filename p)).
  destruct (Str.stoi (rec_digits (Path.filename p))); cbn [mbind outcome_bind];
    [apply IH | reflexivity | reflexivity].
Qed.

Lemma PCBDataset_is_pcb_name_eq fname :
  PCBDataset.is_pcb_name fname = Ok (is_pcb_name fname).
Proof.
  unfold PCBDataset.is_pcb_name, is_pcb_name. pose proof (size_nonneg fname).
  destruct (Z.ltb_spec 3 (Str.size fname)) as [H3|H3]; [|reflexivity].
  rewrite (substr_in_range fname 0 (Some 3)) by lia. reflexivity.
Qed.

Lemma PCBDataset_scan_eq (w : World) entries acc :
  PCBDataset.scan w entries acc = scan_with (pcb_key w) entries acc.
Proof.
  revert acc. induction entries as [|p rest IH]; intros acc; [reflexivity|].
  cbn [PCBDataset.scan scan_with]. unfold pcb_key.
  destruct (is_directory w p); cbn [andb]; [|apply IH].
  rewrite PCBDataset_is_pcb_name_eq. cbn [mbind outcome_bind].
  destruct (is_pcb_name (Path.filename p)) eqn:Hn; [|apply IH].
  apply andb_true_iff in Hn as [H3%Z.ltb_lt _].
  pose proof (size_nonneg (Path.filename p)).
  rewrite (substr_in_range (Path.filename p) 3 None) by lia. cbn [mbind outcome_bind].
  change (Z.to_nat 3) with 3%nat.
  fold (pcb_digits (Path.filename p)).
  destruct (Str.stoi (pcb_digits (Path.filename p))); cbn [mbind outcome_bind];
    [apply IH | reflexivity | reflexivity].
Qed.

End Scans.

Lemma UMap_insert_lookup {V} k (v : V) m j x :
  UMap.insert k v m !! j = Some x -> m !! j = Some x \/ (j = k /\ x = v).
Proof.
  unfold UMap.insert. destruct (m !! k) eqn:Hk; [left; assumption|].
  destruct (decide (k = j)) as [->|Hne].
  - rewrite lookup_insert_eq. intros [= <-]. right. split; reflexivity.
  - rewrite lookup_insert_ne by exact Hne. left. assumption.
Qed.

Lemma UMap_insert_is_Some {V} k (v : V) m : is_Some (UMap.insert k v m !! k).
Proof.
  unfold UMap.insert. destruct (m !! k) eqn:Hk; [rewrite Hk; eauto|].
  rewrite lookup_insert_eq. eauto.
Qed.

(** What a scan that returns has registered: the keys it started with,
    and for each recognised entry its key; a path that is new was
    recognised under the key it stands at. *)
Lemma scan_with_spec key entries acc m :
  scan_with key entries acc = Ok m ->
  acc ⊆ m /\
  (forall k q, m !! k = Some q ->
     acc !! k = Some q \/ (q ∈ entries /\ key q = Ok (Some k))) /\
  (forall p k, p ∈ entries -> key p = Ok (Some k) -> is_Some (m !! k)).
Proof.
  revert acc. induction entries as [|p rest IH]; intros acc.
  - intros [= <-]. split; [reflexivity|]. split.
    + intros k q Hq. left. exact Hq.
    + intros p k Hp. apply elem_of_nil in Hp. contradiction.
  - cbn [scan_with]. destruct (key p) as [[id|]|e|] eqn:Hk; try discriminate.
    + intros H. destruct (IH _ H) as (Hsub & Hnew & Hall).
      split; [etransitivity; [apply UMap_insert_subseteq | exact Hsub]|]. split.
      * intros k q Hq. destruct (Hnew k q Hq) as [Hacc|[Hin Hkey]].
        -- apply UMap_insert_lookup in Hacc as [Hacc|[-> ->]]; [left; exact Hacc|].
           right. split; [apply list_elem_of_here | exact Hk].
        -- right. split; [apply list_elem_of_further, Hin | exact Hkey].
      * intros p' k Hp' Hkey. apply elem_of_cons in Hp' as [->|Hp'].
        -- rewrite Hk in Hkey. injection Hkey as <-.
           destruct (UMap_insert_is_Some id p acc) as [x Hx].
           exists x. eapply lookup_weaken; eassumption.
        -- eapply Hall; eassumption.
    + intros H. destruct (IH _ H) as (Hsub & Hnew & Hall).
      split; [exact Hsub|]. split.
      * intros k q Hq. destruct (Hnew k q Hq) as [Hacc|[Hin Hkey]]; [left; exact Hacc|].
        right. split; [apply list_elem_of_further, Hin | exact Hkey].
      * intros p' k Hp' Hkey. apply elem_of_cons in Hp' as [->|Hp'].
        -- rewrite Hk in Hkey. discriminate.
        -- eapply Hall; eassumption.
Qed.

Section Keys.
Context `{E : Externals}.

Lemma rec_key_Some (w : World) p k :
  rec_key w p = Ok (Some k) <-> recording_file w p k.
Proof.
  unfold rec_key, recording_file, is_rec_name. split.
  - destruct (is_regular_file w p); [|discriminate]. cbn [andb].
    destruct (Z.ltb_spec 7 (Str.size (Path.filename p))); [|discriminate]. cbn [andb].
    destruct (String.eqb_spec (String.substring 0 3 (Path.filename p)) "rec");
      [|discriminate]. cbn [andb].
    destruct (String.eqb_spec
                (String.substring (Z.to_nat (Str.size (Path.filename p) - 4)) 4
                   (Path.filename p)) ".jpg"); [|discriminate].
    destruct (Str.stoi _) as [id| |]; cbn [mbind outcome_bind]; try discriminate.
    intros [= ->]. repeat split; assumption.
  - intros (-> & H7 & -> & -> & ->).
    apply Z.ltb_lt in H7. rewrite H7. reflexivity.
Qed.

Lemma pcb_key_Some (w : World) p k :
  pcb_key w p = Ok (Some k) <-> pcb_directory w p k.
Proof.
  unfold pcb_key, pcb_directory, is_pcb_name. split.
  - destruct (is_directory w p); [|discriminate]. cbn [andb].
    destruct (Z.ltb_spec 3 (Str.size (Path.filename p))); [|discriminate]. cbn [andb].
    destruct (String.eqb_spec (String.substring 0 3 (Path.filename p)) "pcb");
      [|discriminate].
    destruct (Str.stoi _) as [id| |]; cbn [mbind outcome_bind]; try discriminate.
    intros [= ->]. repeat split; assumption.
  - intros (-> & H3 & -> & ->).
    apply Z.ltb_lt in H3. rewrite H3. reflexivity.
Qed.

(** A scan from the empty map: the keys are those of the recognised
    entries, and each path stands at the key it was recognised under. *)
Lemma scan_with_empty key entries m :
  scan_with key entries ∅ = Ok m ->
  (forall k, is_Some (m !! k) <-> exists p, p ∈ entries /\ key p = Ok (Some k)) /\
  (forall k p, m !! k = Some p -> p ∈ entries /\ key p = Ok (Some k)).
Proof.
  intros H. destruct (scan_with_spec _ _ _ _ H) as (_ & Hnew & Hall).
  assert (Hpath : forall k p, m !! k = Some p -> p ∈ entries /\ key p = Ok (Some k)).
  { intros k p Hp. destruct (Hnew k p Hp) as [Hempty|Hin]; [|exact Hin].
    rewrite lookup_empty in Hempty. discriminate. }
  split; [|exact Hpath].
  intros k. split.
  - intros [p Hp]. exists p. apply (Hpath k p Hp).
  - intros (p & Hin & Hkey). eapply Hall; eassumption.
Qed.

(** C9. When [PCB::PCB] returns, the recording IDs are exactly the
    numbers [std::stoi] reads between [rec] and [.jpg] in the names of the
    regular files of the directory that are longer than 7 characters,
    start with [rec] and end with [.jpg]; each stored path is such a file,
    stored at its own number. [rec.jpg] has 7 characters and is no
    recording name; [rec12a.jpg] is one, and its digits read 12. *)
Theorem pcb_recordings_by_name (w : World) root0 scale0 pcb :
  PCB.make w root0 scale0 = Ok pcb ->
  (forall k, is_Some (PCB._recordings pcb !! k) <->
             exists p, p ∈ directory_iterator w root0 /\ recording_file w p k) /\
  (forall k p, PCB._recordings pcb !! k = Some p ->
               p ∈ directory_iterator w root0 /\ recording_file w p k) /\
  is_rec_name "rec.jpg" = false /\
  is_rec_name "rec12a.jpg" = true /\
  rec_digits "rec12a.jpg" = "12a" /\
  Str.stoi "12a" = Ok 12.
Proof.
  intros H. unfold PCB.make in H.
  destruct (negb (is_directory w root0)); [discriminate|].
  destruct (Str.substr root0 _ _) as [last| |]; try discriminate.
  cbn [mbind outcome_bind] in H.
  destruct (String.eqb last "/"); [discriminate|].
  destruct (F.leb scale0 (F.of_int 0) || F.ltb (F.of_int 2) scale0); [discriminate|].
  rewrite PCB_scan_eq in H.
  destruct (scan_with _ _ _) as [recs| |] eqn:Hscan; try discriminate.
  cbn [mbind outcome_bind] in H. injection H as <-. cbn [PCB._recordings].
  destruct (scan_with_empty _ _ _ Hscan) as [Hkeys Hpaths].
  split; [|split; [|repeat split]].
  - intros k. rewrite Hkeys. split; intros (p & Hin & Hk); exists p;
      (split; [exact Hin | apply rec_key_Some, Hk]).
  - intros k p Hp. destruct (Hpaths k p Hp) as [Hin Hk].
    split; [exact Hin | apply rec_key_Some, Hk].
Qed.

End Keys.

(** C8, as the code has it. When [PCBDataset::PCBDataset] returns, the
    keys are exactly the numbers [std::stoi] reads after [pcb] in the
    names of the subdirectories that are longer than 3 characters and
    start with [pcb]; each stored path is such a directory, stored at its
    own number. [std::stoi] reads a sign and the leading digits and
    ignores what follows, so [pcb12x] is a board name and its key is 12. *)
Theorem dataset_keys_by_name `{E : Externals} (w : World) root0 d :
  PCBDataset.make w root0 = Ok d ->
  (forall k, is_Some (PCBDataset._pcbPaths d !! k) <->
             exists p, p ∈ directory_iterator w root0 /\ pcb_directory w p k) /\
  (forall k p, PCBDataset._pcbPaths d !! k = Some p ->
               p ∈ directory_iterator w root0 /\ pcb_directory w p k) /\
  is_pcb_name "pcb12x" = true /\
  pcb_digits "pcb12x" = "12x" /\
  Str.stoi "12x" = Ok 12.
Proof.
  intros H. unfold PCBDataset.make in H.
  destruct (negb (is_directory w root0)); [discriminate|].
  destruct (Str.substr root0 _ _) as [last| |]; try discriminate.
  cbn [mbind outcome_bind] in H.
  destruct (String.eqb last "/"); [discriminate|].
  rewrite PCBDataset_scan_eq in H.
  destruct (scan_with _ _ _) as [pcbs| |] eqn:Hscan; try discriminate.
  cbn [mbind outcome_bind] in H.
  destruct (decide (pcbs = ∅)); [discriminate|].
  injection H as <-. cbn [PCBDataset._pcbPaths].
  destruct (scan_with_empty _ _ _ Hscan) as [Hkeys Hpaths].
  split; [|split; [|repeat split]].
  - intros k. rewrite Hkeys. split; intros (p & Hin & Hk); exists p;
      (split; [exact Hin | apply pcb_key_Some, Hk]).
  - intros k p Hp. destruct (Hpaths k p Hp) as [Hin Hk].
    split; [exact Hin | apply pcb_key_Some, Hk].
Qed.

(** On the small dataset: [/data] holds the directories [pcb1],
    [pcb12x] and [misc] and a file. *)
Lemma dataset_keys_by_name_witness :
  exists d,
    PCBDataset.make Demo.world "/data" = Ok d /\
    (forall k, is_Some (PCBDataset._pcbPaths d !! k) <->
               exists p, p ∈ directory_iterator Demo.world "/data" /\
                         pcb_directory Demo.world p k) /\
    (forall k p, PCBDataset._pcbPaths d !! k = Some p ->
                 p ∈ directory_iterator Demo.world "/data" /\
                 pcb_directory Demo.world p k) /\
    is_pcb_name "pcb12x" = true /\
    pcb_digits "pcb12x" = "12x" /\
    Str.stoi "12x" = Ok 12.
Proof.
  eexists. split; [vm_compute; reflexivity|].
  apply (dataset_keys_by_name Demo.world "/data").
  vm_compute. reflexivity.
Defined.

(** C8, as stated, fails: the directory [pcb12x] is not skipped, it is
    registered under key 12. *)
Lemma dataset_registers_pcb12x :
  exists d,
    In "/data/pcb12x" (directory_iterator Demo.world "/data") /\
    is_directory Demo.world "/data/pcb12x" = true /\
    Path.filename "/data/pcb12x" = "pcb12x" /\
    PCBDataset.make Demo.world "/data" = Ok d /\
    PCBDataset._pcbPaths d !! 12 = Some "/data/pcb12x".
Proof.
  eexists. split; [right; right; left; reflexivity|].
  split; [reflexivity|]. split; [reflexivity|].
  split; vm_compute; reflexivity.
Qed.

(** On the small dataset: [/data/pcb1] holds [rec1.jpg], [rec2.jpg],
    [rec.jpg], [rec12a.jpg], masks, annotation files, a text file and a
    directory; the recordings are 1, 2 and 12. *)
Lemma pcb_recordings_by_name_witness :
  exists pcb,
    PCB.make Demo.world "/data/pcb1" (F.of_int 1) = Ok pcb /\
    PCB._recordings pcb !! 12 = Some "/data/pcb1/rec12a.jpg" /\
    (forall k, PCB._recordings pcb !! k = Some "/data/pcb1/rec.jpg" -> False) /\
    (forall k, is_Some (PCB._recordings pcb !! k) <->
               exists p, p ∈ directory_iterator Demo.world "/data/pcb1" /\
                         recording_file Demo.world p k) /\
    (forall k p, PCB._recordings pcb !! k = Some p ->
                 p ∈ directory_iterator Demo.world "/data/pcb1" /\
                 recording_file Demo.world p k) /\
    is_rec_name "rec.jpg" = false /\
    is_rec_name "rec12a.jpg" = true /\
    rec_digits "rec12a.jpg" = "12a" /\
    Str.stoi "12a" = Ok 12.
Proof.
  pose proof (pcb_recordings_by_name Demo.world "/data/pcb1" (F.of_int 1) Demo.pcb1) as H.
  exists Demo.pcb1.
  split; [vm_compute; reflexivity|].
  split; [vm_compute; reflexivity|].
  split.
  - intros k Hk. apply H in Hk as [_ (_ & H7 & _)]; [|vm_compute; reflexivity].
    vm_compute in H7. discriminate.
  - apply H. vm_compute. reflexivity.
Defined.

(** ** Labels of lines that do not end in a space *)

Lemma append_empty_r (s : string) : s +:+ "" = s.
Proof.
  induction s as [|c s IH]; [reflexivity|].
  change (String c s +:+ "") with (String c (s +:+ "")). rewrite IH. reflexivity.
Qed.

Lemma append_assoc_str (a b c : string) : (a +:+ b) +:+ c = a +:+ (b +:+ c).
Proof.
  induction a as [|x a IH]; [reflexivity|].
  change (String x ((a +:+ b) +:+ c) = String x (a +:+ (b +:+ c))).
  rewrite IH. reflexivity.
Qed.

Lemma nonempty_tokens_last toks t :
  last toks = Some t -> t <> "" -> nonempty_tokens toks <> [].
Proof.
  intros Hlast Ht Hnil.
  assert (Hin : In t (nonempty_tokens toks)).
  { apply filter_In. split.
    - apply list_elem_of_In. eapply last_Some_elem_of, Hlast.
    - apply negb_true_iff, String.eqb_neq, Ht. }
  rewrite Hnil in Hin. exact Hin.
Qed.

Lemma label_from_join toks t :
  last toks = Some t -> t <> "" ->
  PCB.label_from toks = join_sp (nonempty_tokens toks).
Proof.
  revert t. induction toks as [|tok rest IH]; intros t Hlast Ht; [discriminate|].
  destruct rest as [|tok' rest'].
  - injection Hlast as ->. unfold nonempty_tokens. cbn [PCB.label_from List.filter].
    destruct (String.eqb_spec t "") as [->|_]; [contradiction|].
    cbn [negb join_sp]. rewrite !append_empty_r. reflexivity.
  - change (last (tok :: tok' :: rest')) with (last (tok' :: rest')) in Hlast.
    pose proof (nonempty_tokens_last _ _ Hlast Ht) as Hne.
    change (PCB.label_from (tok :: tok' :: rest'))
      with ((if String.eqb tok "" then "" else tok +:+ " ")
            +:+ PCB.label_from (tok' :: rest')).
    rewrite (IH t Hlast Ht).
    change (nonempty_tokens (tok :: tok' :: rest'))
      with (if negb (String.eqb tok "")
            then tok :: nonempty_tokens (tok' :: rest')
            else nonempty_tokens (tok' :: rest')).
    destruct (String.eqb_spec tok "") as [->|_]; [reflexivity|].
    cbn [negb]. destruct (nonempty_tokens (tok' :: rest')) as [|u us]; [contradiction|].
    cbn [join_sp]. rewrite append_assoc_str. reflexivity.
Qed.

Lemma last_drop_cons {A} n (l : list A) x rest :
  drop n l = x :: rest -> last (drop n l) = last l.
Proof.
  revert l. induction n as [|n IH]; intros l H; [reflexivity|].
  destruct l as [|a l]; [discriminate|]. cbn [drop] in *.
  rewrite (IH l H). destruct l as [|b l]; [|reflexivity].
  rewrite drop_nil in H. discriminate.
Qed.

(** For a line that does not end in a space (its last token is not
    empty), the label is the non-empty tokens from index 5 on, in order,
    with exactly one space between neighbours and none at either end. *)
Theorem label_single_spaces line t :
  last (Str.split line) = Some t -> t <> "" ->
  PCB.label (Str.split line)
    = join_sp (nonempty_tokens (drop 5 (Str.split line))).
Proof.
  intros Hlast Ht. unfold PCB.label.
  destruct (drop 5 (Str.split line)) as [|x rest] eqn:Hd; [reflexivity|].
  rewrite <- Hd. apply (label_from_join _ t); [|exact Ht].
  rewrite (last_drop_cons _ _ _ _ Hd). exact Hlast.
Qed.

Lemma label_single_spaces_witness :
  PCB.label (Str.split "50 50 10 10 0 R1  0402 top")
    = join_sp (nonempty_tokens (drop 5 (Str.split "50 50 10 10 0 R1  0402 top"))) /\
  PCB.label (Str.split "50 50 10 10 0 R1  0402 top") = "R1 0402 top".
Proof.
  split; [|reflexivity].
  apply (label_single_spaces "50 50 10 10 0 R1  0402 top" "top").
  - reflexivity.
  - discriminate.
Defined.

(** An uncached [ics] for a recording that was not found at construction
    throws [invalid_argument] and leaves the object as it is. *)
Theorem ics_unknown_recording `{E : Externals} (w : World) rec cropped sz asp pcb :
  PCB._cache_ics pcb !! rec = None ->
  PCB._recordings pcb !! rec = None ->
  PCB.ics w rec cropped sz asp pcb
    = (Throw (invalid_argument "Recording does not exist."), pcb).
Proof.
  intros Hc Hr. rewrite (ics_uncached _ _ _ _ _ _ Hc), Hr. reflexivity.
Qed.

Lemma ics_unknown_recording_witness :
  PCB.ics Demo.world 99 false Demo.no_range Demo.no_range Demo.pcb1
    = (Throw (invalid_argument "Recording does not exist."), Demo.pcb1).
Proof.
  apply (ics_unknown_recording Demo.world 99 false Demo.no_range Demo.no_range Demo.pcb1).
  - vm_compute. reflexivity.
  - vm_compute. reflexivity.
Defined.

(** [PCB::PCB] accepts a scale only when neither [scale <= 0] nor
    [scale > 2] holds. *)
Theorem make_checks_scale `{E : Externals} (w : World) root0 scale0 pcb :
  PCB.make w root0 scale0 = Ok pcb ->
  F.leb scale0 (F.of_int 0) = false /\ F.ltb (F.of_int 2) scale0 = false /\
  PCB.scale pcb = scale0 /\ PCB.root pcb = root0 /\
  PCB._cache_cropinfo pcb = ∅ /\ PCB._cache_ics pcb = ∅.
Proof.
  unfold PCB.make.
  destruct (negb (is_directory w root0)); [discriminate|].
  destruct (Str.substr root0 _ _) as [last| |]; try discriminate.
  cbn [mbind outcome_bind].
  destruct (String.eqb last "/"); [discriminate|].
  destruct (F.leb scale0 (F.of_int 0)); [discriminate|].
  destruct (F.ltb (F.of_int 2) scale0); [discriminate|].
  cbn [orb]. destruct (PCB.scan _ _ _) as [recs| |]; try discriminate.
  cbn [mbind outcome_bind]. intros [= <-]. repeat split.
Qed.

Lemma make_checks_scale_witness :
  F.leb (F.of_int 1) (F.of_int 0) = false /\ F.ltb (F.of_int 2) (F.of_int 1) = false /\
  PCB.scale Demo.pcb1 = F.of_int 1 /\ PCB.root Demo.pcb1 = "/data/pcb1" /\
  PCB._cache_cropinfo Demo.pcb1 = ∅ /\ PCB._cache_ics Demo.pcb1 = ∅.
Proof.
  apply (make_checks_scale Demo.world "/data/pcb1" (F.of_int 1) Demo.pcb1).
  vm_compute. reflexivity.
Defined.

(** * Further properties of the code *)

(** ** What the constructors establish *)

Section Constructors.
Context `{E : Externals}.

(** [PCB::PCB] returns only past its three checks, with the entries of
    the directory scanned into [_recordings] and both caches empty. *)
Lemma PCB_make_inv (w : World) root0 scale0 pcb :
  PCB.make w root0 scale0 = Ok pcb ->
  is_directory w root0 = true /\
  (exists last, Str.substr root0 (Str.size root0 - 1) (Some 1) = Ok last /\ last <> "/") /\
  F.leb scale0 (F.of_int 0) = false /\
  F.ltb (F.of_int 2) scale0 = false /\
  scan_with (rec_key w) (directory_iterator w root0) ∅ = Ok (PCB._recordings pcb) /\
  pcb = PCB.mk root0 scale0 (PCB._recordings pcb) ∅ ∅.
Proof.
  unfold PCB.make.
  destruct (is_directory w root0); [|discriminate]. cbn [negb].
  destruct (Str.substr root0 _ _) as [last| |]; try discriminate.
  cbn [mbind outcome_bind].
  destruct (String.eqb_spec last "/") as [|Hl]; [discriminate|].
  destruct (F.leb scale0 (F.of_int 0)); [discriminate|].
  destruct (F.ltb (F.of_int 2) scale0); [discriminate|].
  cbn [orb]. rewrite PCB_scan_eq.
  destruct (scan_with _ _ _) as [recs| |]; try discriminate.
  cbn [mbind outcome_bind]. intros [= <-].
  repeat split. exists last. split; [reflexivity | exact Hl].
Qed.

(** The converse: past the checks, the constructor returns what the scan
    returns. *)
Lemma PCB_make_intro (w : World) root0 scale0 last recs :
  is_directory w root0 = true ->
  Str.substr root0 (Str.size root0 - 1) (Some 1) = Ok last -> last <> "/" ->
  F.leb scale0 (F.of_int 0) = false ->
  F.ltb (F.of_int 2) scale0 = false ->
  scan_with (rec_key w) (directory_iterator w root0) ∅ = Ok recs ->
  PCB.make w root0 scale0 = Ok (PCB.mk root0 scale0 recs ∅ ∅).
Proof.
  intros Hd Hs Hl H0 H2 Hscan. unfold PCB.make.
  rewrite Hd, Hs. cbn [negb mbind outcome_bind].
  destruct (String.eqb_spec last "/") as [|_]; [contradiction|].
  rewrite H0, H2. cbn [orb]. rewrite PCB_scan_eq, Hscan. reflexivity.
Qed.

(** [PCBDataset::PCBDataset] returns only past its checks, with the
    entries of the directory scanned into [_pcbPaths], which is not
    empty. *)
Lemma PCBDataset_make_inv (w : World) root0 d :
  PCBDataset.make w root0 = Ok d ->
  is_directory w root0 = true /\
  (exists last, Str.substr root0 (Str.size root0 - 1) (Some 1) = Ok last /\ last <> "/") /\
  scan_with (pcb_key w) (directory_iterator w root0) ∅ = Ok (PCBDataset._pcbPaths d) /\
  PCBDataset._pcbPaths d <> ∅ /\
  PCBDataset.root d = root0.
Proof.
  unfold PCBDataset.make.
  destruct (is_directory w root0); [|discriminate]. cbn [negb].
  destruct (Str.substr root0 _ _) as [last| |]; try discriminate.
  cbn [mbind outcome_bind].
  destruct (String.eqb_spec last "/") as [|Hl]; [discriminate|].
  rewrite PCBDataset_scan_eq.
  destruct (scan_with _ _ _) as [pcbs| |]; try discriminate.
  cbn [mbind outcome_bind].
  destruct (decide (pcbs = ∅)) as [|Hne]; [discriminate|].
  intros [= <-]. repeat split; try assumption.
  exists last. split; [reflexivity | exact Hl].
Qed.

Lemma PCBDataset_make_intro (w : World) root0 last pcbs :
  is_directory w root0 = true ->
  Str.substr root0 (Str.size root0 - 1) (Some 1) = Ok last -> last <> "/" ->
  scan_with (pcb_key w) (directory_iterator w root0) ∅ = Ok pcbs ->
  pcbs <> ∅ ->
  PCBDataset.make w root0 = Ok (PCBDataset.mk root0 pcbs).
Proof.
  intros Hd Hs Hl Hscan Hne. unfold PCBDataset.make.
  rewrite Hd, Hs. cbn [negb mbind outcome_bind].
  destruct (String.eqb_spec last "/") as [|_]; [contradiction|].
  rewrite PCBDataset_scan_eq, Hscan. cbn [mbind outcome_bind].
  destruct (decide (pcbs = ∅)) as [|_]; [contradiction|]. reflexivity.
Qed.

End Constructors.

(** ** recordings() *)

Lemma recordings_elem pcb rec :
  rec ∈ PCB.recordings pcb <-> is_Some (PCB._recordings pcb !! rec).
Proof.
  unfold PCB.recordings. rewrite list_elem_of_fmap. split.
  - intros ([k p] & -> & Hin). apply elem_of_map_to_list in Hin. eauto.
  - intros [p Hp]. exists (rec, p). split; [reflexivity|].
    apply elem_of_map_to_list, Hp.
Qed.

(** When [PCB::PCB] has returned, [recordings()] lists every recording
    ID once, and the IDs listed are exactly the numbers read from the
    names of the recording files of the directory. *)
Theorem recordings_after_make `{E : Externals} (w : World) root0 scale0 pcb :
  PCB.make w root0 scale0 = Ok pcb ->
  NoDup (PCB.recordings pcb) /\
  (forall k, k ∈ PCB.recordings pcb <->
             exists p, p ∈ directory_iterator w root0 /\ recording_file w p k).
Proof.
  intros H. destruct (PCB_make_inv _ _ _ _ H) as (_ & _ & _ & _ & Hscan & _).
  split; [apply NoDup_fst_map_to_list|].
  destruct (scan_with_empty _ _ _ Hscan) as [Hkeys _].
  intros k. rewrite recordings_elem, Hkeys.
  split; intros (p & Hin & Hk); exists p; (split; [exact Hin | apply rec_key_Some, Hk]).
Qed.

Lemma recordings_after_make_witness :
  PCB.make Demo.world "/data/pcb1" (F.of_int 1) = Ok Demo.pcb1 /\
  length (PCB.recordings Demo.pcb1) = 3%nat /\
  NoDup (PCB.recordings Demo.pcb1) /\
  (forall k, k ∈ PCB.recordings Demo.pcb1 <->
             exists p, p ∈ directory_iterator Demo.world "/data/pcb1" /\
                       recording_file Demo.world p k).
Proof.
  split; [vm_compute; reflexivity|].
  split; [vm_compute; reflexivity|].
  apply (recordings_after_make Demo.world "/data/pcb1" (F.of_int 1) Demo.pcb1).
  vm_compute. reflexivity.
Defined.

(** ** The order of the directory entries *)

(** A scan returns exactly when [key] returns for every entry. *)
Lemma scan_with_returns key entries acc :
  (exists m, scan_with key entries acc = Ok m) <->
  Forall (fun p => exists o, key p = Ok o) entries.
Proof.
  revert acc. induction entries as [|p rest IH]; intros acc.
  - split; [constructor | intros _; exists acc; reflexivity].
  - cbn [scan_with]. rewrite Forall_cons. split.
    + intros [m Hm]. destruct (key p) as [[id|]| |] eqn:Hk; try discriminate.
      * split; [eauto | apply (IH (UMap.insert id p acc)); eauto].
      * split; [eauto | apply (IH acc); eauto].
    + intros [[o Ho] Hrest]. rewrite Ho. destruct o as [id|]; apply IH, Hrest.
Qed.

(** Two scans of the same entries in different orders, when both start
    empty: the one returns when the other does, with the same keys. *)
Lemma scan_with_permutation key entries entries' m :
  Permutation entries' entries ->
  scan_with key entries ∅ = Ok m ->
  exists m', scan_with key entries' ∅ = Ok m' /\
             forall k, is_Some (m' !! k) <-> is_Some (m !! k).
Proof.
  intros Hperm Hm.
  assert (Hall : Forall (fun p => exists o, key p = Ok o) entries')
    by (rewrite Hperm; apply (scan_with_returns key entries ∅); eauto).
  apply (scan_with_returns key entries' ∅) in Hall as [m' Hm'].
  exists m'. split; [exact Hm'|].
  destruct (scan_with_empty _ _ _ Hm) as [Hk _].
  destruct (scan_with_empty _ _ _ Hm') as [Hk' _].
  intros k. rewrite Hk, Hk'.
  split; intros (p & Hin & Hp); exists p; (split; [|exact Hp]).
  - rewrite <- Hperm. exact Hin.
  - rewrite Hperm. exact Hin.
Qed.

Lemma scan_with_ext key key' entries acc :
  (forall p, key p = key' p) ->
  scan_with key entries acc = scan_with key' entries acc.
Proof.
  intros Hk. revert acc. induction entries as [|p rest IH]; intros acc; [reflexivity|].
  cbn [scan_with]. rewrite <- Hk.
  destruct (key p) as [[id|]| |]; try reflexivity; apply IH.
Qed.

(** The recording IDs do not depend on the order in which the directory
    is listed: with the same files listed in another order, [PCB::PCB]
    returns again, and [recordings()] has the same members. *)
Theorem recordings_any_listing_order `{E : Externals} (w w' : World) root0 scale0 pcb :
  PCB.make w root0 scale0 = Ok pcb ->
  is_directory w' root0 = true ->
  (forall p, is_regular_file w' p = is_regular_file w p) ->
  Permutation (directory_iterator w' root0) (directory_iterator w root0) ->
  exists pcb',
    PCB.make w' root0 scale0 = Ok pcb' /\
    forall k, k ∈ PCB.recordings pcb' <-> k ∈ PCB.recordings pcb.
Proof.
  intros H Hd Hreg Hperm.
  destruct (PCB_make_inv _ _ _ _ H) as (_ & (last & Hs & Hl) & H0 & H2 & Hscan & _).
  assert (Hkey : forall p, rec_key w' p = rec_key w p).
  { intros p. unfold rec_key. rewrite Hreg. reflexivity. }
  destruct (scan_with_permutation _ _ _ _ Hperm Hscan) as (m' & Hm' & Hsame).
  rewrite <- (scan_with_ext _ _ _ _ Hkey) in Hm'.
  exists (PCB.mk root0 scale0 m' ∅ ∅). split.
  - eapply PCB_make_intro; eassumption.
  - intros k. rewrite !recordings_elem. apply Hsame.
Qed.

Lemma recordings_any_listing_order_witness :
  exists pcb',
    PCB.make More.world_reversed "/data/pcb1" (F.of_int 1) = Ok pcb' /\
    forall k, k ∈ PCB.recordings pcb' <-> k ∈ PCB.recordings Demo.pcb1.
Proof.
  apply (recordings_any_listing_order Demo.world More.world_reversed).
  - vm_compute. reflexivity.
  - reflexivity.
  - intros p. reflexivity.
  - apply Permutation_sym, Permutation_rev.
Defined.

(** ** Unknown recordings *)

(** For an ID that [recordings()] does not list, [image] and [mask]
    throw [invalid_argument], and so do [imageMasked] and an [ics] that
    has nothing cached for the ID; the object stays as it is. *)
Theorem unknown_recording_rejected `{E : Externals} (w : World) rec cropped sz asp pcb :
  rec ∉ PCB.recordings pcb ->
  PCB._cache_ics pcb !! rec = None ->
  PCB.image w pcb rec = Throw (invalid_argument "Recording does not exist.") /\
  PCB.mask w pcb rec = Throw (invalid_argument "Recording does not exist.") /\
  PCB.imageMasked w rec pcb = (Throw (invalid_argument "Recording does not exist."), pcb) /\
  PCB.ics w rec cropped sz asp pcb
    = (Throw (invalid_argument "Recording does not exist."), pcb).
Proof.
  intros Hnot Hc.
  assert (Hr : PCB._recordings pcb !! rec = None).
  { apply eq_None_not_Some. rewrite <- recordings_elem. exact Hnot. }
  assert (Hi : PCB.image w pcb rec = Throw (invalid_argument "Recording does not exist."))
    by (unfold PCB.image; rewrite Hr; reflexivity).
  split; [exact Hi|]. split.
  - unfold PCB.mask. rewrite Hr. reflexivity.
  - split.
    + unfold PCB.imageMasked, PCB.bind, PCB.lift. rewrite Hi. reflexivity.
    + rewrite (ics_uncached _ _ _ _ _ _ Hc), Hr. reflexivity.
Qed.

Lemma unknown_recording_rejected_witness :
  PCB.image Demo.world Demo.pcb1 99 = Throw (invalid_argument "Recording does not exist.") /\
  PCB.mask Demo.world Demo.pcb1 99 = Throw (invalid_argument "Recording does not exist.") /\
  PCB.imageMasked Demo.world 99 Demo.pcb1
    = (Throw (invalid_argument "Recording does not exist."), Demo.pcb1) /\
  PCB.ics Demo.world 99 true Demo.no_range Demo.no_range Demo.pcb1
    = (Throw (invalid_argument "Recording does not exist."), Demo.pcb1).
Proof.
  apply (unknown_recording_rejected Demo.world 99 true Demo.no_range Demo.no_range Demo.pcb1).
  - rewrite recordings_elem. vm_compute. intros [x Hx]. discriminate.
  - vm_compute. reflexivity.
Defined.

(** ** What calls leave alone *)

(** No sequence of [ics] and [imageMasked] calls changes the root, the
    scale or the recordings of the object, and none removes or replaces a
    stored crop rectangle or a stored annotation list. *)
Theorem calls_frame `{E : Externals} pcb pcb' :
  calls pcb pcb' ->
  PCB.root pcb' = PCB.root pcb /\
  PCB.scale pcb' = PCB.scale pcb /\
  PCB.recordings pcb' = PCB.recordings pcb /\
  (forall rec r, PCB._cache_cropinfo pcb !! rec = Some r ->
                 PCB._cache_cropinfo pcb' !! rec = Some r) /\
  (forall rec l, PCB._cache_ics pcb !! rec = Some l ->
                 PCB._cache_ics pcb' !! rec = Some l).
Proof.
  intros H. destruct (calls_extends _ _ H) as (Hr & Hs & Hm & Hc & Hi).
  split; [exact Hr|]. split; [exact Hs|]. split.
  - unfold PCB.recordings. rewrite Hm. reflexivity.
  - split; intros rec x Hx; eapply lookup_weaken; eassumption.
Qed.

Lemma calls_frame_witness :
  exists pcb',
    calls Demo.pcb1 pcb' /\
    PCB._cache_cropinfo pcb' !! 1 = Some (mkRect 20 20 26 21) /\
    PCB.root pcb' = PCB.root Demo.pcb1 /\
    PCB.scale pcb' = PCB.scale Demo.pcb1 /\
    PCB.recordings pcb' = PCB.recordings Demo.pcb1 /\
    (forall rec r, PCB._cache_cropinfo Demo.pcb1 !! rec = Some r ->
                   PCB._cache_cropinfo pcb' !! rec = Some r) /\
    (forall rec l, PCB._cache_ics Demo.pcb1 !! rec = Some l ->
                   PCB._cache_ics pcb' !! rec = Some l).
Proof.
  eexists.
  assert (Hc : calls Demo.pcb1 (snd (PCB.imageMasked Demo.world 1 Demo.pcb1))).
  { eapply calls_cons; [|apply calls_nil].
    eapply (call_imageMasked Demo.world 1 Demo.pcb1).
    - apply surjective_pairing.
    - vm_compute. discriminate. }
  split; [exact Hc|]. split; [vm_compute; reflexivity|].
  apply (calls_frame Demo.pcb1 _ Hc).
Defined.

(** ** ics without a call to _cropinfo *)

Section IcsWhole.
Context `{E : Externals}.

(** The whole of an uncached [ics] that needs no new crop rectangle
    ([cropped] is off, or the rectangle is already stored), on a file
    whose lines all parse: the lines that pass the filters are returned
    in file order, each with its centre and size multiplied by the scale
    (unless the scale is 1), its centre then moved by the corner of the
    stored rectangle when [cropped] is set, its angle as parsed, and the
    label of its tokens; the list is stored for the recording and nothing
    else of the object changes. The mask is not read. *)
Theorem ics_without_cropinfo (w : World) rec cropped sz asp pcb p ci ps :
  PCB._cache_ics pcb !! rec = None ->
  PCB._recordings pcb !! rec = Some p ->
  is_regular_file w (PCB.annot_path p rec) = true ->
  (cropped = true -> PCB._cache_cropinfo pcb !! rec = Some ci) ->
  parse_all (getlines w (PCB.annot_path p rec)) = Ok ps ->
  PCB.ics w rec cropped sz asp pcb =
    (Ok (map (annotation (PCB.scale pcb) (if cropped then Some ci else None))
             (kept sz asp ps)),
     PCB.set_cache_ics
       (<[rec := map (annotation (PCB.scale pcb) (if cropped then Some ci else None))
                     (kept sz asp ps)]> (PCB._cache_ics pcb)) pcb).
Proof.
  intros Hc Hr Hreg Hci Hps.
  rewrite (ics_uncached _ _ _ _ _ _ Hc), Hr, Hreg. cbn [negb].
  rewrite (ics_lines_pure _ _ _ _ _ _ _ _ ci Hci), Hps.
  cbn [mbind outcome_bind app]. rewrite map_emit_annotation. reflexivity.
Qed.

Lemma split_from_length cur s :
  length (Str.split_from cur s) = S (count_spaces s).
Proof.
  revert cur. induction s as [|c s IH]; intros cur; [reflexivity|].
  cbn [Str.split_from count_spaces].
  destruct (Ascii.eqb c " "); [cbn [length]; rewrite IH; reflexivity | apply IH].
Qed.

Lemma parse_all_app_short pre line post ps0 :
  parse_all pre = Ok ps0 ->
  (count_spaces line < 4)%nat ->
  parse_all (pre ++ line :: post)
    = Throw (runtime_error "Invalid line encountered while parsing file.").
Proof.
  intros Hpre Hshort. revert ps0 Hpre.
  induction pre as [|l pre IH]; intros ps0 Hpre.
  - cbn [app parse_all]. unfold PCB.parse_line, Str.split.
    rewrite split_from_length.
    destruct (Z.ltb_spec (Z.of_nat (S (count_spaces line))) 5) as [_|Hge]; [reflexivity|lia].
  - cbn [app parse_all] in *.
    destruct (PCB.parse_line l) as [q|e|]; try discriminate.
    cbn [mbind outcome_bind] in *.
    destruct (parse_all pre) as [qs|e|] eqn:Hq; try discriminate.
    rewrite (IH qs eq_refl). reflexivity.
Qed.

(** A line with fewer than four separators, after lines that parse,
    ends an uncached [ics] with [runtime_error], whatever follows it and
    whatever the filters; nothing is stored. An empty line is such a
    line. *)
Theorem ics_short_line (w : World) rec cropped sz asp pcb p ci pre line post ps0 :
  PCB._cache_ics pcb !! rec = None ->
  PCB._recordings pcb !! rec = Some p ->
  is_regular_file w (PCB.annot_path p rec) = true ->
  (cropped = true -> PCB._cache_cropinfo pcb !! rec = Some ci) ->
  getlines w (PCB.annot_path p rec) = pre ++ line :: post ->
  parse_all pre = Ok ps0 ->
  (count_spaces line < 4)%nat ->
  PCB.ics w rec cropped sz asp pcb
    = (Throw (runtime_error "Invalid line encountered while parsing file."), pcb).
Proof.
  intros Hc Hr Hreg Hci Hlines Hpre Hshort.
  rewrite (ics_uncached _ _ _ _ _ _ Hc), Hr, Hreg. cbn [negb].
  rewrite (ics_lines_pure _ _ _ _ _ _ _ _ ci Hci), Hlines.
  rewrite (parse_all_app_short _ _ _ _ Hpre Hshort). reflexivity.
Qed.

(** When every line is dropped, the loop returns what it had, without a
    call to [_cropinfo], also with [cropped] set. *)
Lemma ics_lines_none_kept (w : World) rec cropped sz asp lines ps acc pcb :
  parse_all lines = Ok ps -> kept sz asp ps = [] ->
  PCB.ics_lines w rec cropped sz asp lines acc pcb = (Ok acc, pcb).
Proof.
  revert ps. induction lines as [|line rest IH]; intros ps; [reflexivity|].
  rewrite ics_lines_cons. cbn [parse_all].
  destruct (PCB.parse_line line) as [q|e|]; try discriminate.
  cbn [mbind outcome_bind].
  destruct (parse_all rest) as [qs|e|]; try discriminate.
  cbn [mbind outcome_bind]. intros [= <-]. unfold kept. cbn [List.filter].
  destruct (rejected sz asp (fst q)); cbn [negb]; [|discriminate].
  intros Hk. apply (IH qs eq_refl Hk).
Qed.

(** An annotation file that is empty, or of which the filters drop every
    line, gives the empty list, which is stored; with [cropped] set as
    without it, and without the mask being read: the call returns also
    for a recording that has no mask file. *)
Theorem ics_nothing_kept (w : World) rec cropped sz asp pcb p ps :
  PCB._cache_ics pcb !! rec = None ->
  PCB._recordings pcb !! rec = Some p ->
  is_regular_file w (PCB.annot_path p rec) = true ->
  parse_all (getlines w (PCB.annot_path p rec)) = Ok ps ->
  kept sz asp ps = [] ->
  PCB.ics w rec cropped sz asp pcb
    = (Ok [], PCB.set_cache_ics (<[rec := []]> (PCB._cache_ics pcb)) pcb).
Proof.
  intros Hc Hr Hreg Hps Hk.
  rewrite (ics_uncached _ _ _ _ _ _ Hc), Hr, Hreg. cbn [negb].
  rewrite (ics_lines_none_kept _ _ _ _ _ _ _ _ _ Hps Hk). reflexivity.
Qed.

(** An [ics] that throws stores no list: [_cache_ics] is as before and
    still has nothing for the recording, so that the next call reads the
    file again. *)
Theorem ics_throw_stores_nothing (w : World) rec cropped sz asp pcb e pcb' :
  PCB.ics w rec cropped sz asp pcb = (Throw e, pcb') ->
  PCB._cache_ics pcb' = PCB._cache_ics pcb /\
  PCB._cache_ics pcb' !! rec = None.
Proof.
  destruct (PCB._cache_ics pcb !! rec) as [r0|] eqn:H.
  - rewrite (ics_cached _ _ _ _ _ _ _ H). discriminate.
  - rewrite (ics_uncached _ _ _ _ _ _ H).
    destruct (PCB._recordings pcb !! rec) as [p|]; [|intros [= _ <-]; split; [reflexivity|exact H]].
    destruct (negb _); [intros [= _ <-]; split; [reflexivity|exact H]|].
    destruct (PCB.ics_lines _ _ _ _ _ _ _ _) as [[res|e'|] pcb1] eqn:Hl; try discriminate.
    destruct (ics_lines_extends _ _ _ _ _ _ _ _ _ _ Hl) as [_ Hi].
    intros [= _ <-]. split; [exact Hi | rewrite Hi; exact H].
Qed.

End IcsWhole.

(** On the small dataset, the board at scale 2 with the crop rectangle
    of recording 1 stored: the three lines come back doubled and moved by
    (20, 20), while the mask file is gone. *)
Lemma ics_without_cropinfo_witness :
  exists ps,
    parse_all (getlines Demo.world_later "/data/pcb1/rec1-annot.txt") = Ok [] /\
    parse_all (getlines Demo.world (PCB.annot_path "/data/pcb1/rec1.jpg" 1)) = Ok ps /\
    map (annotation (F.of_int 2) (Some (mkRect 20 20 26 21)))
        (kept Demo.no_range Demo.no_range ps) = More.rec1_x2_cropped /\
    fst (PCB.ics Demo.world 1 true Demo.no_range Demo.no_range More.pcb1_x2_cropped)
      = Ok More.rec1_x2_cropped /\
    PCB.ics Demo.world 1 true Demo.no_range Demo.no_range More.pcb1_x2_cropped =
      (Ok (map (annotation (PCB.scale More.pcb1_x2_cropped) (Some (mkRect 20 20 26 21)))
               (kept Demo.no_range Demo.no_range ps)),
       PCB.set_cache_ics
         (<[1 := map (annotation (PCB.scale More.pcb1_x2_cropped)
                                 (Some (mkRect 20 20 26 21)))
                     (kept Demo.no_range Demo.no_range ps)]>
            (PCB._cache_ics More.pcb1_x2_cropped)) More.pcb1_x2_cropped).
Proof.
  eexists.
  split; [vm_compute; reflexivity|].
  split; [vm_compute; reflexivity|].
  split; [vm_compute; reflexivity|].
  split; [vm_compute; reflexivity|].
  apply (ics_without_cropinfo Demo.world 1 true Demo.no_range Demo.no_range
           More.pcb1_x2_cropped "/data/pcb1/rec1.jpg" (mkRect 20 20 26 21)).
  - vm_compute. reflexivity.
  - vm_compute. reflexivity.
  - vm_compute. reflexivity.
  - intros _. vm_compute. reflexivity.
  - vm_compute. reflexivity.
Defined.

Lemma ics_short_line_witness :
  getlines More.world_edges "/data/pcb1/rec1-annot.txt" = ["50 50 10 10 0 R1 0402"; ""] /\
  PCB.ics More.world_edges 1 false Demo.no_range Demo.no_range Demo.pcb1
    = (Throw (runtime_error "Invalid line encountered while parsing file."), Demo.pcb1).
Proof.
  split; [reflexivity|].
  eapply (ics_short_line More.world_edges 1 false Demo.no_range Demo.no_range Demo.pcb1
            "/data/pcb1/rec1.jpg" (mkRect 0 0 0 0) ["50 50 10 10 0 R1 0402"] "" []).
  - vm_compute. reflexivity.
  - vm_compute. reflexivity.
  - vm_compute. reflexivity.
  - discriminate.
  - reflexivity.
  - vm_compute. reflexivity.
  - vm_compute. lia.
Defined.

Lemma ics_nothing_kept_witness :
  PCB.mask More.world_edges Demo.pcb1 2 = Throw (runtime_error "Mask file does not exist.") /\
  PCB.ics More.world_edges 2 true Demo.at_least_001 Demo.no_range Demo.pcb1
    = (Ok [], PCB.set_cache_ics (<[2 := []]> (PCB._cache_ics Demo.pcb1)) Demo.pcb1).
Proof.
  split; [vm_compute; reflexivity|].
  eapply (ics_nothing_kept More.world_edges 2 true Demo.at_least_001 Demo.no_range Demo.pcb1
            "/data/pcb1/rec2.jpg").
  - vm_compute. reflexivity.
  - vm_compute. reflexivity.
  - vm_compute. reflexivity.
  - vm_compute. reflexivity.
  - vm_compute. reflexivity.
Defined.

Lemma ics_throw_stores_nothing_witness :
  PCB.ics Demo.world 12 false Demo.no_range Demo.no_range Demo.pcb1
    = (Throw (runtime_error "Annotation file does not exist."), Demo.pcb1) /\
  PCB._cache_ics Demo.pcb1 = PCB._cache_ics Demo.pcb1 /\
  PCB._cache_ics Demo.pcb1 !! 12 = None.
Proof.
  split; [vm_compute; reflexivity|].
  apply (ics_throw_stores_nothing Demo.world 12 false Demo.no_range Demo.no_range Demo.pcb1
           (runtime_error "Annotation file does not exist.") Demo.pcb1).
  vm_compute. reflexivity.
Defined.

(** ** The crop rectangle shared by imageMasked and ics *)

Section SharedCrop.
Context `{E : Externals}.

Lemma imageMasked_ok_inv (w : World) rec pcb m pcb1 :
  PCB.imageMasked w rec pcb = (Ok m, pcb1) ->
  exists im msk im' ci,
    PCB.image w pcb rec = Ok im /\
    PCB.mask w pcb rec = Ok msk /\
    setTo_zero_where_zero im msk = Ok im' /\
    PCB._cropinfo w rec pcb = (Ok ci, pcb1) /\
    mat_roi im' ci = Ok m.
Proof.
  unfold PCB.imageMasked, PCB.bind, PCB.lift.
  destruct (PCB.image w pcb rec) as [im|e|]; try discriminate.
  destruct (PCB.mask w pcb rec) as [msk|e|]; try discriminate.
  destruct (setTo_zero_where_zero im msk) as [im'|e|] eqn:Hs; try discriminate.
  destruct (PCB._cropinfo w rec pcb) as [[ci|e|] pcb'] eqn:Hci; try discriminate.
  intros [= Hm <-]. exists im, msk, im', ci.
  repeat split; first [reflexivity | assumption].
Qed.


(** [ics] with [cropped] first, [imageMasked] later: when the list is
    not empty, [ics] has stored a crop rectangle [ci], every annotation
    of the list has [ci.x] and [ci.y] subtracted from its (scaled)
    centre, and the image is the masked image cut to that same [ci]. *)
Theorem ics_then_imageMasked (w w' : World) rec sz asp pcb res pcb1 pcb2 m pcb3 :
  PCB._cache_ics pcb !! rec = None ->
  PCB.ics w rec true sz asp pcb = (Ok res, pcb1) ->
  res <> [] ->
  calls pcb1 pcb2 ->
  PCB.imageMasked w' rec pcb2 = (Ok m, pcb3) ->
  exists ci p ps im msk im',
    PCB._cache_cropinfo pcb1 !! rec = Some ci /\
    PCB._recordings pcb !! rec = Some p /\
    parse_all (getlines w (PCB.annot_path p rec)) = Ok ps /\
    res = map (annotation (PCB.scale pcb) (Some ci)) (kept sz asp ps) /\
    (forall a, a ∈ res -> exists rr toks,
       (rr, toks) ∈ ps /\
       pt_x (center (Annot.rect a))
         = F.sub (times (PCB.scale pcb) (pt_x (center rr))) (F.of_int (rect_x ci)) /\
       pt_y (center (Annot.rect a))
         = F.sub (times (PCB.scale pcb) (pt_y (center rr))) (F.of_int (rect_y ci))) /\
    PCB.image w' pcb2 rec = Ok im /\
    PCB.mask w' pcb2 rec = Ok msk /\
    setTo_zero_where_zero im msk = Ok im' /\
    mat_roi im' ci = Ok m /\
    pcb3 = pcb2.
Proof.
  intros Hnone Hics Hne Hcalls Him.
  rewrite (ics_uncached _ _ _ _ _ _ Hnone) in Hics.
  destruct (PCB._recordings pcb !! rec) as [p|] eqn:Hp; [|discriminate].
  destruct (negb _); [discriminate|].
  destruct (PCB.ics_lines _ _ _ _ _ _ _ _) as [[r|e|] pcb0] eqn:Hl; try discriminate.
  injection Hics as <- <-.
  destruct (ics_lines_ok _ _ _ _ _ _ _ _ _ _ Hl) as (ps & off & Hps & Hr & _ & Ht).
  cbn [app] in Hr.
  destruct (Ht eq_refl) as [[Hk _]|(ci & -> & Hci)].
  { rewrite Hk in Hr. contradiction. }
  pose proof (cropinfo_ok_cached _ _ _ _ _ Hci) as Hc0.
  assert (Hc2 : PCB._cache_cropinfo pcb2 !! rec = Some ci).
  { eapply calls_keep_cropinfo; [exact Hcalls|]. exact Hc0. }
  destruct (imageMasked_ok_inv _ _ _ _ _ Him) as (im & msk & im' & ci' & Hi & Hm & Hs & Hci' & Hroi).
  rewrite (cropinfo_cached _ _ _ _ Hc2) in Hci'. injection Hci' as <- <-.
  subst r. exists ci, p, ps, im, msk, im'.
  split; [exact Hc0|]. split; [reflexivity|]. split; [exact Hps|].
  split; [apply map_emit_annotation|]. split.
  { intros a Ha. apply list_elem_of_fmap in Ha as ([rr toks] & -> & Hq).
    exists rr, toks. split; [|rewrite emit_annotation; split; reflexivity].
    unfold kept in Hq. apply list_elem_of_In, filter_In in Hq as [Hq _].
    apply list_elem_of_In, Hq. }
  repeat split; first [reflexivity | assumption].
Qed.

End SharedCrop.


(** On the small dataset, the board at scale 2: [ics] stores the
    rectangle at (20, 20) and returns the centres 100, 240 and 60 of the
    doubled lines as 80, 220 and 40; [imageMasked], called after the mask
    was blanked, cuts to the stored rectangle. *)
Lemma ics_then_imageMasked_witness :
  exists res pcb1 m,
    PCB.ics Demo.world 1 true Demo.no_range Demo.no_range More.pcb1_x2 = (Ok res, pcb1) /\
    res = More.rec1_x2_cropped /\
    PCB._cache_cropinfo pcb1 !! 1 = Some (mkRect 20 20 26 21) /\
    PCB.imageMasked Demo.world_later 1 pcb1 = (Ok m, pcb1) /\
    exists ci p ps im msk im',
      PCB._cache_cropinfo pcb1 !! 1 = Some ci /\
      PCB._recordings More.pcb1_x2 !! 1 = Some p /\
      parse_all (getlines Demo.world (PCB.annot_path p 1)) = Ok ps /\
      res = map (annotation (PCB.scale More.pcb1_x2) (Some ci))
                (kept Demo.no_range Demo.no_range ps) /\
      (forall a, a ∈ res -> exists rr toks,
         (rr, toks) ∈ ps /\
         pt_x (center (Annot.rect a))
           = F.sub (times (PCB.scale More.pcb1_x2) (pt_x (center rr))) (F.of_int (rect_x ci)) /\
         pt_y (center (Annot.rect a))
           = F.sub (times (PCB.scale More.pcb1_x2) (pt_y (center rr))) (F.of_int (rect_y ci))) /\
      PCB.image Demo.world_later pcb1 1 = Ok im /\
      PCB.mask Demo.world_later pcb1 1 = Ok msk /\
      setTo_zero_where_zero im msk = Ok im' /\
      mat_roi im' ci = Ok m /\
      pcb1 = pcb1.
Proof.
  eexists _, _, _.
  split; [vm_compute; reflexivity|].
  split; [vm_compute; reflexivity|].
  split; [vm_compute; reflexivity|].
  split; [vm_compute; reflexivity|].
  eapply (ics_then_imageMasked Demo.world Demo.world_later 1 Demo.no_range Demo.no_range More.pcb1_x2).
  - vm_compute. reflexivity.
  - vm_compute. reflexivity.
  - discriminate.
  - apply calls_nil.
  - vm_compute. reflexivity.
Defined.

(** ** What an annotation carries *)

Lemma scale_rect_angle s rr : angle (PCB.scale_rect s rr) = angle rr.
Proof. unfold PCB.scale_rect. destruct (negb _); reflexivity. Qed.

Lemma scale_rect_one s rr : F.eqb s (F.of_int 1) = true -> PCB.scale_rect s rr = rr.
Proof. intros H. unfold PCB.scale_rect. rewrite H. reflexivity. Qed.

Lemma emit_fields s off q :
  Annot.scale (emit s off q) = s /\
  Annot.text (emit s off q) = PCB.label (snd q) /\
  angle (Annot.rect (emit s off q)) = angle (fst q).
Proof.
  unfold emit. cbn [Annot.scale Annot.text Annot.rect].
  split; [reflexivity|]. split; [reflexivity|].
  destruct off; cbn [PCB.shift_rect angle]; apply scale_rect_angle.
Qed.

(** Every annotation of an uncached [ics] that returns carries the scale
    of the board, the label of its line and the angle as parsed: scaling
    and cropping leave the angle alone. With [cropped] off and a scale
    that compares equal to 1, the rectangle is the parsed one, untouched. *)
Theorem ics_annotation_fields `{E : Externals} (w : World) rec cropped sz asp pcb res pcb' :
  PCB._cache_ics pcb !! rec = None ->
  PCB.ics w rec cropped sz asp pcb = (Ok res, pcb') ->
  forall a, a ∈ res ->
    Annot.scale a = PCB.scale pcb /\
    exists p line rr toks,
      PCB._recordings pcb !! rec = Some p /\
      line ∈ getlines w (PCB.annot_path p rec) /\
      PCB.parse_line line = Ok (rr, toks) /\
      Annot.text a = PCB.label toks /\
      angle (Annot.rect a) = angle rr /\
      (cropped = false -> F.eqb (PCB.scale pcb) (F.of_int 1) = true -> Annot.rect a = rr).
Proof.
  intros Hnone Hics a Ha.
  rewrite (ics_uncached _ _ _ _ _ _ Hnone) in Hics.
  destruct (PCB._recordings pcb !! rec) as [p|]; [|discriminate].
  destruct (negb _); [discriminate|].
  destruct (PCB.ics_lines _ _ _ _ _ _ _ _) as [[r|e|] pcb0] eqn:Hl; try discriminate.
  injection Hics as <- _.
  destruct (ics_lines_ok _ _ _ _ _ _ _ _ _ _ Hl) as (ps & off & Hps & -> & Hf & _).
  cbn [app] in Ha. apply list_elem_of_fmap in Ha as (q & -> & Hq).
  unfold kept in Hq. apply list_elem_of_In, filter_In in Hq as [Hq _].
  apply list_elem_of_In in Hq.
  destruct (parse_all_elem _ _ _ Hps Hq) as (line & Hline & Hparse).
  destruct (emit_fields (PCB.scale pcb) off q) as (Hs & Ht & Ha).
  split; [exact Hs|]. destruct q as [rr toks].
  exists p, line, rr, toks. repeat split; try assumption.
  intros Hcr H1. destruct (Hf Hcr) as [-> _].
  unfold emit. cbn [Annot.rect fst]. apply scale_rect_one, H1.
Qed.

Lemma ics_annotation_fields_witness :
  exists res pcb',
    PCB.ics Demo.world 1 false Demo.no_range Demo.no_range Demo.pcb1 = (Ok res, pcb') /\
    forall a, a ∈ res ->
      Annot.scale a = PCB.scale Demo.pcb1 /\
      exists p line rr toks,
        PCB._recordings Demo.pcb1 !! 1 = Some p /\
        line ∈ getlines Demo.world (PCB.annot_path p 1) /\
        PCB.parse_line line = Ok (rr, toks) /\
        Annot.text a = PCB.label toks /\
        angle (Annot.rect a) = angle rr /\
        (false = false -> F.eqb (PCB.scale Demo.pcb1) (F.of_int 1) = true ->
         Annot.rect a = rr).
Proof.
  eexists _, _. split; [vm_compute; reflexivity|].
  eapply (ics_annotation_fields Demo.world 1 false Demo.no_range Demo.no_range Demo.pcb1).
  - vm_compute. reflexivity.
  - vm_compute. reflexivity.
Defined.
(** ** The aspect ratio *)

(** Comparing the other way round gives the opposite answer. *)
Lemma SFcompare_swap (a b : spec_float) :
  SFcompare b a = option_map CompOpp (SFcompare a b).
Proof.
  destruct a as [sa|sa| |sa ma ea], b as [sb|sb| |sb mb eb];
    try destruct sa; try destruct sb; try reflexivity;
    cbn [SFcompare option_map]; rewrite (Z.compare_antisym ea eb);
    destruct (ea ?= eb); cbn [CompOpp]; try reflexivity;
    rewrite (Pos.compare_cont_antisym ma mb Eq); reflexivity.
Qed.

Lemma ltb_asym (a b : float) : F.ltb a b = true -> F.ltb b a = false.
Proof.
  unfold F.ltb, SFltb. rewrite (SFcompare_swap a b).
  destruct (SFcompare a b) as [[| |]|]; cbn [option_map CompOpp]; congruence.
Qed.

Lemma SFcompare_None (a b : spec_float) :
  SFcompare a b = None -> a = S754_nan \/ b = S754_nan.
Proof.
  destruct a as [sa|sa| |sa ma ea], b as [sb|sb| |sb mb eb];
    try (intros _; left; reflexivity); try (intros _; right; reflexivity);
    cbn [SFcompare]; discriminate.
Qed.

Lemma SFcompare_Eq (a b : spec_float) :
  SFcompare a b = Some Eq ->
  a = b \/ (exists sa sb, a = S754_zero sa /\ b = S754_zero sb).
Proof.
  destruct a as [sa|sa| |sa ma ea], b as [sb|sb| |sb mb eb];
    try (intros _; right; eauto; fail); try discriminate.
  - destruct sb; discriminate.
  - destruct sb; discriminate.
  - destruct sa; discriminate.
  - destruct sa, sb; try discriminate; intros _; left; reflexivity.
  - destruct sa; discriminate.
  - destruct sa; discriminate.
  - destruct sb; discriminate.
  - cbn [SFcompare]. rewrite (Pos.compare_cont_spec ma mb Eq).
    intros [= H]. left.
    destruct sa, sb; try discriminate;
      destruct (Z.compare_spec ea eb) as [Heq| |]; try discriminate; subst eb;
      destruct (Pos.compare_spec ma mb) as [Hm| |];
      try discriminate; subst mb; reflexivity.
Qed.

(** Two numbers of which neither is less than the other are the same
    number, or are both zero. *)
Lemma ltb_neither (a b : float) :
  a <> S754_nan -> b <> S754_nan ->
  F.ltb a b = false -> F.ltb b a = false ->
  a = b \/ (exists sa sb, a = S754_zero sa /\ b = S754_zero sb).
Proof.
  intros Ha Hb. unfold F.ltb, SFltb. rewrite (SFcompare_swap a b).
  destruct (SFcompare a b) as [[| |]|] eqn:Hc; cbn [option_map CompOpp]; try congruence.
  - intros _ _. apply SFcompare_Eq, Hc.
  - destruct (SFcompare_None _ _ Hc); contradiction.
Qed.

(** The aspect ratio depends on the two sides only, and not on which of
    them is the width: as long as neither is a NaN, swapping width and
    height (and changing centre, angle, scale or label) gives the same
    ratio. *)
Theorem aspect_symmetric (c c' : Point2f) (wd ht an an' s s' : float) (t t' : string) :
  wd <> S754_nan -> ht <> S754_nan ->
  Annot.aspect (Annot.mk (mkRotatedRect c (mkSize2f wd ht) an) s t)
    = Annot.aspect (Annot.mk (mkRotatedRect c' (mkSize2f ht wd) an') s' t').
Proof.
  intros Hw Hh. unfold Annot.aspect, F.max, F.min.
  cbn [Annot.rect size width height].
  destruct (F.ltb wd ht) eqn:H1.
  - rewrite (ltb_asym _ _ H1). reflexivity.
  - destruct (F.ltb ht wd) eqn:H2; [reflexivity|].
    destruct (ltb_neither _ _ Hw Hh H1 H2) as [->|(sa & sb & -> & ->)]; [reflexivity|].
    destruct sa, sb; reflexivity.
Qed.

Lemma aspect_symmetric_witness :
  Annot.aspect (Annot.mk (upright 40 20) (F.of_int 1) "U7")
    = Annot.aspect (Annot.mk (upright 20 40) (F.of_int 2) "") /\
  Annot.aspect (Annot.mk (upright 40 20) (F.of_int 1) "U7") = F.of_int 2.
Proof.
  split; [|vm_compute; reflexivity].
  apply (aspect_symmetric _ _ (F.of_int 40) (F.of_int 20)); discriminate.
Defined.

(** With a NaN among the sides the order matters. *)
Example aspect_nan_order :
  Annot.aspect (Annot.mk (mkRotatedRect (mkPoint2f (F.of_int 0) (F.of_int 0))
                            (mkSize2f S754_nan (F.of_int 1)) (F.of_int 0)) (F.of_int 1) "")
    = S754_nan /\
  Annot.aspect (Annot.mk (mkRotatedRect (mkPoint2f (F.of_int 0) (F.of_int 0))
                            (mkSize2f (F.of_int 1) S754_nan) (F.of_int 0)) (F.of_int 1) "")
    = F.of_int 1.
Proof. split; vm_compute; reflexivity. Qed.

(** ** The dataset *)

(** A board handed out by [PCBDataset::pcb] knows its number: for a
    dataset that was constructed, [pcb(k, scale)], when it returns,
    returns a board whose [id()] is [k], whose scale is [scale] and whose
    root is the directory registered under [k]. A constructed dataset has
    at least one board. *)
Theorem dataset_pcb_id `{E : Externals} (w w' : World) root0 d k scale0 pcb :
  PCBDataset.make w root0 = Ok d ->
  PCBDataset.pcb w' d k scale0 = Ok pcb ->
  PCB.id pcb = Ok k /\
  PCB.scale pcb = scale0 /\
  PCBDataset._pcbPaths d !! k = Some (PCB.root pcb) /\
  1 <= PCBDataset.numPCBs d.
Proof.
  intros Hd Hp.
  destruct (PCBDataset_make_inv _ _ _ Hd) as (_ & _ & Hscan & Hne & _).
  unfold PCBDataset.pcb in Hp.
  destruct (PCBDataset._pcbPaths d !! k) as [p|] eqn:Hk; [|discriminate].
  destruct (PCB_make_inv _ _ _ _ Hp) as (_ & _ & _ & _ & _ & ->).
  cbn [PCB.root PCB.scale].
  destruct (scan_with_empty _ _ _ Hscan) as [_ Hpaths].
  destruct (Hpaths k p Hk) as [_ Hkey].
  apply pcb_key_Some in Hkey as (_ & H3 & _ & Hstoi).
  repeat split.
  - unfold PCB.id. cbn [PCB.root].
    pose proof (size_nonneg (Path.filename p)).
    rewrite (substr_in_range (Path.filename p) 3 None) by lia.
    cbn [mbind outcome_bind]. exact Hstoi.
  - apply map_size_non_empty_iff in Hne. unfold PCBDataset.numPCBs. lia.
Qed.

Lemma dataset_pcb_id_witness :
  exists d pcb,
    PCBDataset.make Demo.world "/data" = Ok d /\
    PCBDataset.pcb Demo.world d 12 (F.of_int 2) = Ok pcb /\
    PCB.root pcb = "/data/pcb12x" /\
    PCB.id pcb = Ok 12 /\
    PCB.scale pcb = F.of_int 2 /\
    PCBDataset._pcbPaths d !! 12 = Some (PCB.root pcb) /\
    1 <= PCBDataset.numPCBs d.
Proof.
  eexists _, _.
  split; [vm_compute; reflexivity|].
  split; [vm_compute; reflexivity|].
  split; [reflexivity|].
  eapply (dataset_pcb_id Demo.world Demo.world "/data").
  - vm_compute. reflexivity.
  - vm_compute. reflexivity.
Defined.

Lemma sorted_wrt_lookup {A} (comp : A -> A -> bool) l i j a b :
  sorted_wrt comp l = true -> (i < j)%nat ->
  l !! i = Some a -> l !! j = Some b -> comp b a = false.
Proof.
  revert i j. induction l as [|x l IH]; intros i j Hs Hij Hi Hj; [discriminate|].
  cbn [sorted_wrt] in Hs. apply andb_true_iff in Hs as [Hx Hl].
  destruct j as [|j]; [lia|]. cbn in Hj.
  destruct i as [|i].
  - injection Hi as ->. rewrite forallb_forall in Hx.
    apply negb_true_iff, Hx. apply list_elem_of_In.
    eapply list_elem_of_lookup_2, Hj.
  - cbn in Hi. apply (IH i j Hl); [lia | exact Hi | exact Hj].
Qed.

(** [pcbIDs()], with [std::sort] doing on the vector of the keys what it
    promises (the same elements, none less than one before it): the
    registered numbers, each once, in strictly ascending order, as many
    as [numPCBs()] says; and [pcb(k, ...)] throws [invalid_argument] for
    every [k] that is not among them. *)
Theorem pcbIDs_ascending `{E : Externals} (d : PCBDataset.t) :
  Permutation (std_sort Z Z.ltb (map_to_list (PCBDataset._pcbPaths d)).*1)
              (map_to_list (PCBDataset._pcbPaths d)).*1 ->
  sorted_wrt Z.ltb (std_sort Z Z.ltb (map_to_list (PCBDataset._pcbPaths d)).*1) = true ->
  (forall k, k ∈ PCBDataset.pcbIDs d <-> is_Some (PCBDataset._pcbPaths d !! k)) /\
  Z.of_nat (length (PCBDataset.pcbIDs d)) = PCBDataset.numPCBs d /\
  (forall i j a b, (i < j)%nat ->
     PCBDataset.pcbIDs d !! i = Some a -> PCBDataset.pcbIDs d !! j = Some b -> a < b) /\
  (forall (w : World) k s, k ∉ PCBDataset.pcbIDs d ->
     PCBDataset.pcb w d k s = Throw (invalid_argument "PCB does not exist.")).
Proof.
  intros Hperm Hsorted.
  change (std_sort Z Z.ltb (map_to_list (PCBDataset._pcbPaths d)).*1)
    with (PCBDataset.pcbIDs d) in Hperm, Hsorted.
  assert (Hmem : forall k, k ∈ PCBDataset.pcbIDs d <-> is_Some (PCBDataset._pcbPaths d !! k)).
  { intros k. rewrite Hperm, list_elem_of_fmap. split.
    - intros ([k' p] & -> & Hin). apply elem_of_map_to_list in Hin. eauto.
    - intros [p Hp]. exists (k, p). split; [reflexivity|].
      apply elem_of_map_to_list, Hp. }
  assert (Hnodup : NoDup (PCBDataset.pcbIDs d)).
  { rewrite Hperm. apply NoDup_fst_map_to_list. }
  split; [exact Hmem|]. split; [|split].
  - rewrite Hperm, length_fmap, length_map_to_list. reflexivity.
  - intros i j a b Hij Hi Hj.
    pose proof (sorted_wrt_lookup _ _ _ _ _ _ Hsorted Hij Hi Hj) as Hle.
    apply Z.ltb_ge in Hle.
    assert (a <> b).
    { intros ->. pose proof (NoDup_lookup _ _ _ _ Hnodup Hi Hj). lia. }
    lia.
  - intros w k s Hk. unfold PCBDataset.pcb.
    destruct (PCBDataset._pcbPaths d !! k) as [p|] eqn:Hp; [|reflexivity].
    exfalso. apply Hk, Hmem. eauto.
Qed.

Lemma pcbIDs_ascending_witness :
  exists d,
    PCBDataset.make Demo.world "/data" = Ok d /\
    PCBDataset.pcbIDs d = [1; 12] /\
    (forall k, k ∈ PCBDataset.pcbIDs d <-> is_Some (PCBDataset._pcbPaths d !! k)) /\
    Z.of_nat (length (PCBDataset.pcbIDs d)) = PCBDataset.numPCBs d /\
    (forall i j a b, (i < j)%nat ->
       PCBDataset.pcbIDs d !! i = Some a -> PCBDataset.pcbIDs d !! j = Some b -> a < b) /\
    (forall (w : World) k s, k ∉ PCBDataset.pcbIDs d ->
       PCBDataset.pcb w d k s = Throw (invalid_argument "PCB does not exist.")).
Proof.
  eexists. split; [vm_compute; reflexivity|].
  split; [vm_compute; reflexivity|].
  apply pcbIDs_ascending.
  - vm_compute. first [reflexivity | apply perm_swap].
  - vm_compute. reflexivity.
Defined.

(** ** ics with a call to _cropinfo *)

Section IcsCropped.
Context `{E : Externals}.

Lemma ics_lines_cropped (w : World) rec sz asp lines ps acc pcb :
  parse_all lines = Ok ps -> kept sz asp ps <> [] ->
  PCB.ics_lines w rec true sz asp lines acc pcb =
    match PCB._cropinfo w rec pcb with
    | (Ok ci, pcb1) =>
        (Ok (acc ++ map (emit (PCB.scale pcb) (Some ci)) (kept sz asp ps)), pcb1)
    | (Throw e, pcb1) => (Throw e, pcb1)
    | (Undefined, pcb1) => (Undefined, pcb1)
    end.
Proof.
  revert ps. induction lines as [|line rest IH]; intros ps.
  - intros [= <-] Hk. contradiction.
  - rewrite ics_lines_cons. cbn [parse_all].
    destruct (PCB.parse_line line) as [q|e|]; try discriminate.
    cbn [mbind outcome_bind].
    destruct (parse_all rest) as [qs|e|] eqn:Hqs; try discriminate.
    cbn [mbind outcome_bind]. intros [= <-]. unfold kept. cbn [List.filter].
    destruct (rejected sz asp (fst q)); cbn [negb].
    + intros Hk. apply (IH qs eq_refl Hk).
    + intros _.
      destruct (PCB._cropinfo w rec pcb) as [[ci|e|] pcb1] eqn:Hci; try reflexivity.
      pose proof (cropinfo_ok_cached _ _ _ _ _ Hci) as Hc.
      destruct (cropinfo_extends _ _ _ _ _ Hci) as [(_ & Hs & _) _].
      rewrite (ics_lines_pure _ _ true _ _ _ _ _ ci (fun _ => Hc)), Hqs.
      cbn [mbind outcome_bind map]. rewrite Hs, <- app_assoc. reflexivity.
Qed.

(** The whole of an uncached [ics] with [cropped] set, for a file whose
    lines all parse and of which at least one survives the filters: the
    crop rectangle is asked for once. If [_cropinfo] throws, [ics] throws
    the same and stores no list; if it returns the rectangle [ci], the
    surviving lines are returned with centre and size multiplied by the
    scale (unless the scale is 1) and [ci.x] and [ci.y] subtracted from
    the centre, and are stored. *)
Theorem ics_with_cropinfo (w : World) rec sz asp pcb p ps :
  PCB._cache_ics pcb !! rec = None ->
  PCB._recordings pcb !! rec = Some p ->
  is_regular_file w (PCB.annot_path p rec) = true ->
  parse_all (getlines w (PCB.annot_path p rec)) = Ok ps ->
  kept sz asp ps <> [] ->
  PCB.ics w rec true sz asp pcb =
    match PCB._cropinfo w rec pcb with
    | (Ok ci, pcb1) =>
        (Ok (map (annotation (PCB.scale pcb) (Some ci)) (kept sz asp ps)),
         PCB.set_cache_ics
           (<[rec := map (annotation (PCB.scale pcb) (Some ci)) (kept sz asp ps)]>
              (PCB._cache_ics pcb)) pcb1)
    | (Throw e, pcb1) => (Throw e, pcb1)
    | (Undefined, pcb1) => (Undefined, pcb1)
    end.
Proof.
  intros Hc Hr Hreg Hps Hk.
  rewrite (ics_uncached _ _ _ _ _ _ Hc), Hr, Hreg. cbn [negb].
  rewrite (ics_lines_cropped _ _ _ _ _ _ _ _ Hps Hk).
  destruct (PCB._cropinfo w rec pcb) as [[ci|e|] pcb1] eqn:Hci; try reflexivity.
  destruct (cropinfo_extends _ _ _ _ _ Hci) as [_ Hi].
  cbn [app]. rewrite Hi, map_emit_annotation. reflexivity.
Qed.

(** [cropped] moves the centres and nothing else: on the same object and
    the same files, the list with [cropped] and the list without have the
    same sizes, angles, scales and labels, in the same order. *)
Theorem cropped_moves_centres_only (w : World) rec sz asp pcb res pcb1 res' pcb2 :
  PCB._cache_ics pcb !! rec = None ->
  PCB.ics w rec false sz asp pcb = (Ok res, pcb1) ->
  PCB.ics w rec true sz asp pcb = (Ok res', pcb2) ->
  map (fun a => (size (Annot.rect a), angle (Annot.rect a), Annot.scale a, Annot.text a)) res'
  = map (fun a => (size (Annot.rect a), angle (Annot.rect a), Annot.scale a, Annot.text a)) res.
Proof.
  intros Hc H1 H2.
  destruct (ics_uncached_ok _ _ _ _ _ _ _ _ Hc H1) as (p & ps & off & Hp & _ & Hps & ->).
  destruct (ics_uncached_ok _ _ _ _ _ _ _ _ Hc H2) as (p' & ps' & off' & Hp' & _ & Hps' & ->).
  rewrite Hp in Hp'. injection Hp' as <-. rewrite Hps in Hps'. injection Hps' as <-.
  rewrite !map_map. apply map_ext. intros q.
  rewrite !emit_size.
  destruct (emit_fields (PCB.scale pcb) off q) as (-> & -> & ->).
  destruct (emit_fields (PCB.scale pcb) off' q) as (-> & -> & ->).
  reflexivity.
Qed.

End IcsCropped.

(** On the small dataset, the board at scale 2: the crop rectangle of
    recording 1 is found at (20, 20), and the three lines come back
    doubled and moved by it. *)
Lemma ics_with_cropinfo_witness :
  exists ps,
    parse_all (getlines Demo.world (PCB.annot_path "/data/pcb1/rec1.jpg" 1)) = Ok ps /\
    PCB._cropinfo Demo.world 1 More.pcb1_x2
      = (Ok (mkRect 20 20 26 21),
         PCB.set_cache_cropinfo (<[1 := mkRect 20 20 26 21]> ∅) More.pcb1_x2) /\
    fst (PCB.ics Demo.world 1 true Demo.no_range Demo.no_range More.pcb1_x2)
      = Ok More.rec1_x2_cropped /\
    PCB.ics Demo.world 1 true Demo.no_range Demo.no_range More.pcb1_x2 =
      match PCB._cropinfo Demo.world 1 More.pcb1_x2 with
      | (Ok ci, pcb1) =>
          (Ok (map (annotation (PCB.scale More.pcb1_x2) (Some ci))
                   (kept Demo.no_range Demo.no_range ps)),
           PCB.set_cache_ics
             (<[1 := map (annotation (PCB.scale More.pcb1_x2) (Some ci))
                         (kept Demo.no_range Demo.no_range ps)]>
                (PCB._cache_ics More.pcb1_x2)) pcb1)
      | (Throw e, pcb1) => (Throw e, pcb1)
      | (Undefined, pcb1) => (Undefined, pcb1)
      end.
Proof.
  eexists. split; [vm_compute; reflexivity|].
  split; [vm_compute; reflexivity|].
  split; [vm_compute; reflexivity|].
  apply (ics_with_cropinfo Demo.world 1 Demo.no_range Demo.no_range More.pcb1_x2
           "/data/pcb1/rec1.jpg").
  - vm_compute. reflexivity.
  - vm_compute. reflexivity.
  - vm_compute. reflexivity.
  - vm_compute. reflexivity.
  - vm_compute. discriminate.
Defined.

Lemma cropped_moves_centres_only_witness :
  exists res res' pcb1 pcb2,
    PCB.ics Demo.world 1 false Demo.no_range Demo.no_range Demo.pcb1 = (Ok res, pcb1) /\
    PCB.ics Demo.world 1 true Demo.no_range Demo.no_range Demo.pcb1 = (Ok res', pcb2) /\
    res <> res' /\
    map (fun a => (size (Annot.rect a), angle (Annot.rect a), Annot.scale a, Annot.text a)) res'
    = map (fun a => (size (Annot.rect a), angle (Annot.rect a), Annot.scale a, Annot.text a)) res.
Proof.
  eexists _, _, _, _.
  split; [vm_compute; reflexivity|].
  split; [vm_compute; reflexivity|].
  split; [discriminate|].
  eapply (cropped_moves_centres_only Demo.world 1 Demo.no_range Demo.no_range Demo.pcb1).
  - vm_compute. reflexivity.
  - vm_compute. reflexivity.
  - vm_compute. reflexivity.
Defined.

(** ** Filters only remove *)

Lemma kept_sublist sz asp ps : sublist (kept sz asp ps) ps.
Proof.
  unfold kept. induction ps as [|q ps IH]; [constructor|].
  cbn [List.filter]. destruct (negb _); constructor; exact IH.
Qed.

(** An uncached [ics] that returns, with what is known of the crop
    rectangle it used. *)
Lemma ics_uncached_ok_off `{E : Externals} (w : World) rec cropped sz asp pcb res pcb' :
  PCB._cache_ics pcb !! rec = None ->
  PCB.ics w rec cropped sz asp pcb = (Ok res, pcb') ->
  exists p ps off,
    PCB._recordings pcb !! rec = Some p /\
    parse_all (getlines w (PCB.annot_path p rec)) = Ok ps /\
    res = map (emit (PCB.scale pcb) off) (kept sz asp ps) /\
    (cropped = false -> off = None) /\
    (cropped = true ->
       kept sz asp ps = [] \/
       exists ci pcb0, off = Some ci /\ PCB._cropinfo w rec pcb = (Ok ci, pcb0)).
Proof.
  intros Hnone. rewrite (ics_uncached _ _ _ _ _ _ Hnone).
  destruct (PCB._recordings pcb !! rec) as [p|]; [|discriminate].
  destruct (negb _); [discriminate|].
  destruct (PCB.ics_lines _ _ _ _ _ _ _ _) as [[r|e|] pcb1] eqn:Hl; try discriminate.
  intros [= <- <-].
  destruct (ics_lines_ok _ _ _ _ _ _ _ _ _ _ Hl) as (ps & off & Hp & Hr & Hf & Ht).
  exists p, ps, off. repeat split; try assumption.
  - intros Hc. apply (Hf Hc).
  - intros Hc. destruct (Ht Hc) as [[Hk _]|(ci & Ho & Hci)]; [left; exact Hk|].
    right. eauto.
Qed.

(** The size and aspect ranges only remove annotations: on the same
    object and files, the list for any ranges is a sublist of the list for
    the ranges (0, 0), with the same annotations in the same order. *)
Theorem filters_only_remove `{E : Externals} (w : World) rec cropped sz asp
    pcb res pcb1 all pcb2 :
  PCB._cache_ics pcb !! rec = None ->
  PCB.ics w rec cropped sz asp pcb = (Ok res, pcb1) ->
  PCB.ics w rec cropped (mkVec2f (F.of_int 0) (F.of_int 0))
          (mkVec2f (F.of_int 0) (F.of_int 0)) pcb = (Ok all, pcb2) ->
  sublist res all /\ (length res <= length all)%nat.
Proof.
  intros Hc H1 H2.
  destruct (ics_uncached_ok_off _ _ _ _ _ _ _ _ Hc H1)
    as (p & ps & off & Hp & Hps & -> & Hf & Ht).
  destruct (ics_uncached_ok_off _ _ _ _ _ _ _ _ Hc H2)
    as (p' & ps' & off' & Hp' & Hps' & -> & Hf' & Ht').
  rewrite Hp in Hp'. injection Hp' as <-. rewrite Hps in Hps'. injection Hps' as <-.
  rewrite kept_no_range in *.
  assert (Hsub : sublist (map (emit (PCB.scale pcb) off) (kept sz asp ps))
                         (map (emit (PCB.scale pcb) off') ps)).
  { destruct cropped.
    - destruct (Ht eq_refl) as [->|(ci & pcb0 & -> & Hci)]; [apply sublist_nil_l|].
      destruct (Ht' eq_refl) as [->|(ci' & pcb0' & -> & Hci')]; [apply sublist_nil_l|].
      rewrite Hci in Hci'. injection Hci' as <- _.
      apply (fmap_sublist (emit (PCB.scale pcb) (Some ci))), kept_sublist.
    - rewrite (Hf eq_refl), (Hf' eq_refl).
      apply (fmap_sublist (emit (PCB.scale pcb) None)), kept_sublist. }
  split; [exact Hsub | apply sublist_length, Hsub].
Qed.

Lemma filters_only_remove_witness :
  exists res all pcb1 pcb2,
    PCB.ics Demo.world 1 true Demo.at_least_001 Demo.at_most_15 Demo.pcb1 = (Ok res, pcb1) /\
    PCB.ics Demo.world 1 true Demo.no_range Demo.no_range Demo.pcb1 = (Ok all, pcb2) /\
    map Annot.text res = ["R1 0402"] /\
    map Annot.text all = ["R1 0402"; "U7"; ""] /\
    sublist res all /\ (length res <= length all)%nat.
Proof.
  eexists _, _, _, _.
  split; [vm_compute; reflexivity|].
  split; [vm_compute; reflexivity|].
  split; [reflexivity|]. split; [reflexivity|].
  eapply (filters_only_remove Demo.world 1 true Demo.at_least_001 Demo.at_most_15 Demo.pcb1).
  - vm_compute. reflexivity.
  - vm_compute. reflexivity.
  - vm_compute. reflexivity.
Defined.

(** ** Where the mask and the annotations are looked for *)

Lemma parent_path_sep r name :
  Path.has_sep name = false -> Path.parent_path (r +:+ "/" +:+ name) = r.
Proof.
  intros Hn. induction r as [|c r IH].
  - change ("" +:+ "/" +:+ name) with (String "/" name).
    cbn [Path.parent_path]. rewrite Hn. reflexivity.
  - change (String c r +:+ "/" +:+ name) with (String c (r +:+ "/" +:+ name)).
    cbn [Path.parent_path].
    assert (Hs : Path.has_sep (r +:+ "/" +:+ name) = true).
    { clear IH. induction r as [|d r IHr]; [reflexivity|].
      change (String d r +:+ "/" +:+ name) with (String d (r +:+ "/" +:+ name)).
      cbn [Path.has_sep]. rewrite IHr. apply orb_true_r. }
    rewrite Hs, IH. reflexivity.
Qed.

Lemma parent_path_append root0 name :
  Path.has_sep name = false -> Path.parent_path (Path.append root0 name) = root0.
Proof.
  intros Hn. destruct root0 as [|c r].
  - cbn [Path.append]. destruct name as [|d name]; [reflexivity|].
    cbn [Path.parent_path]. cbn [Path.has_sep] in Hn.
    apply orb_false_iff in Hn as [_ ->]. reflexivity.
  - cbn [Path.append]. apply parent_path_sep, Hn.
Qed.

(** The mask and the annotation file of a recording are looked for
    under the root of the board, by the number of the recording and not by
    the name of its image file: for a board constructed over a directory
    whose entries are the root, a separator and a name, recording [k] has
    its annotations at [root/rec<k>-annot.txt], and without a regular file
    [root/rec<k>-mask.png] its mask is reported missing. *)
Theorem files_by_number `{E : Externals} (w : World) root0 scale0 pcb k p :
  PCB.make w root0 scale0 = Ok pcb ->
  (forall q, q ∈ directory_iterator w root0 ->
             exists name, Path.has_sep name = false /\ q = Path.append root0 name) ->
  PCB._recordings pcb !! k = Some p ->
  PCB.annot_path p k = Path.append root0 ("rec" +:+ Str.of_int k +:+ "-annot.txt") /\
  (forall w' : World,
     is_regular_file w' (Path.append root0 ("rec" +:+ Str.of_int k +:+ "-mask.png")) = false ->
     PCB.mask w' pcb k = Throw (runtime_error "Mask file does not exist.")) /\
  (forall (w' : World) cropped sz asp,
     is_regular_file w' (Path.append root0 ("rec" +:+ Str.of_int k +:+ "-annot.txt")) = false ->
     PCB.ics w' k cropped sz asp pcb
       = (Throw (runtime_error "Annotation file does not exist."), pcb)).
Proof.
  intros Hmake Hentries Hp.
  destruct (PCB_make_inv _ _ _ _ Hmake) as (_ & _ & _ & _ & Hscan & Hpcb).
  destruct (scan_with_empty _ _ _ Hscan) as [_ Hpaths].
  destruct (Hpaths k p Hp) as [Hin _].
  destruct (Hentries p Hin) as (name & Hname & ->).
  assert (Hparent : Path.parent_path (Path.append root0 name) = root0)
    by apply parent_path_append, Hname.
  split; [unfold PCB.annot_path; rewrite Hparent; reflexivity|]. split.
  - intros w' Hreg. unfold PCB.mask. rewrite Hp, Hparent, Hreg. reflexivity.
  - intros w' cropped sz asp Hreg.
    assert (Hc : PCB._cache_ics pcb !! k = None) by (rewrite Hpcb; apply lookup_empty).
    rewrite (ics_uncached _ _ _ _ _ _ Hc), Hp.
    unfold PCB.annot_path. rewrite Hparent, Hreg. reflexivity.
Qed.

(** On the small dataset: recording 12 comes from [rec12a.jpg]; its mask
    is looked for at [rec12-mask.png]. *)
Lemma files_by_number_witness :
  PCB._recordings Demo.pcb1 !! 12 = Some "/data/pcb1/rec12a.jpg" /\
  PCB.annot_path "/data/pcb1/rec12a.jpg" 12 = "/data/pcb1/rec12-annot.txt" /\
  PCB.annot_path "/data/pcb1/rec12a.jpg" 12
    = Path.append "/data/pcb1" ("rec" +:+ Str.of_int 12 +:+ "-annot.txt") /\
  (forall w' : World,
     is_regular_file w' (Path.append "/data/pcb1" ("rec" +:+ Str.of_int 12 +:+ "-mask.png"))
       = false ->
     PCB.mask w' Demo.pcb1 12 = Throw (runtime_error "Mask file does not exist.")) /\
  (forall (w' : World) cropped sz asp,
     is_regular_file w' (Path.append "/data/pcb1" ("rec" +:+ Str.of_int 12 +:+ "-annot.txt"))
       = false ->
     PCB.ics w' 12 cropped sz asp Demo.pcb1
       = (Throw (runtime_error "Annotation file does not exist."), Demo.pcb1)).
Proof.
  split; [vm_compute; reflexivity|]. split; [reflexivity|].
  apply (files_by_number Demo.world "/data/pcb1" (F.of_int 1) Demo.pcb1 12
           "/data/pcb1/rec12a.jpg").
  - vm_compute. reflexivity.
  - intros q Hq. apply list_elem_of_In in Hq.
    repeat (destruct Hq as [<-|Hq];
            [eexists; split; [|cbn [Path.append]; reflexivity]; reflexivity|]).
    destruct Hq.
  - vm_compute. reflexivity.
Defined.

(** ** pcbIDs() and the order of the directory entries *)

Lemma ascending_tail (x : Z) l :
  (forall i j a b, (i < j)%nat -> (x :: l) !! i = Some a -> (x :: l) !! j = Some b -> a < b) ->
  (forall i j a b, (i < j)%nat -> l !! i = Some a -> l !! j = Some b -> a < b) /\
  (forall y, y ∈ l -> x < y).
Proof.
  intros H. split.
  - intros i j a b Hij Hi Hj. apply (H (S i) (S j) a b); [lia | exact Hi | exact Hj].
  - intros y Hy. apply list_elem_of_lookup in Hy as [j Hj].
    apply (H O (S j) x y); [lia | reflexivity | exact Hj].
Qed.

(** Two strictly ascending lists with the same members are the same
    list. *)
Lemma ascending_unique (l1 l2 : list Z) :
  (forall i j a b, (i < j)%nat -> l1 !! i = Some a -> l1 !! j = Some b -> a < b) ->
  (forall i j a b, (i < j)%nat -> l2 !! i = Some a -> l2 !! j = Some b -> a < b) ->
  (forall k, k ∈ l1 <-> k ∈ l2) ->
  l1 = l2.
Proof.
  revert l2. induction l1 as [|x l1 IH]; intros l2 H1 H2 Hmem.
  - destruct l2 as [|y l2]; [reflexivity|].
    exfalso. apply (elem_of_nil y), Hmem, list_elem_of_here.
  - destruct l2 as [|y l2].
    { exfalso. apply (elem_of_nil x), Hmem, list_elem_of_here. }
    destruct (ascending_tail _ _ H1) as [H1' Hx].
    destruct (ascending_tail _ _ H2) as [H2' Hy].
    assert (x = y) as <-.
    { assert (Hxy : x ∈ y :: l2) by (apply Hmem, list_elem_of_here).
      assert (Hyx : y ∈ x :: l1) by (apply Hmem, list_elem_of_here).
      apply elem_of_cons in Hxy as [Hxy|Hxy]; [exact Hxy|].
      apply elem_of_cons in Hyx as [Hyx|Hyx]; [symmetry; exact Hyx|].
      pose proof (Hy x Hxy). pose proof (Hx y Hyx). lia. }
    f_equal. apply (IH l2 H1' H2'). intros k. split; intros Hk.
    + assert (Hk' : k ∈ x :: l2) by (apply Hmem, list_elem_of_further, Hk).
      apply elem_of_cons in Hk' as [->|Hk']; [|exact Hk'].
      pose proof (Hx x Hk). lia.
    + assert (Hk' : k ∈ x :: l1) by (apply Hmem, list_elem_of_further, Hk).
      apply elem_of_cons in Hk' as [->|Hk']; [|exact Hk'].
      pose proof (Hy x Hk). lia.
Qed.

Section PcbIDs.
Context `{E : Externals}.

Lemma pcbIDs_elem (d : PCBDataset.t) k :
  Permutation (PCBDataset.pcbIDs d) (map_to_list (PCBDataset._pcbPaths d)).*1 ->
  k ∈ PCBDataset.pcbIDs d <-> is_Some (PCBDataset._pcbPaths d !! k).
Proof.
  intros Hperm. rewrite Hperm, list_elem_of_fmap. split.
  - intros ([k' p] & -> & Hin). apply elem_of_map_to_list in Hin. eauto.
  - intros [p Hp]. exists (k, p). split; [reflexivity|].
    apply elem_of_map_to_list, Hp.
Qed.

Lemma pcbIDs_lookup_lt (d : PCBDataset.t) i j a b :
  Permutation (PCBDataset.pcbIDs d) (map_to_list (PCBDataset._pcbPaths d)).*1 ->
  sorted_wrt Z.ltb (PCBDataset.pcbIDs d) = true ->
  (i < j)%nat ->
  PCBDataset.pcbIDs d !! i = Some a -> PCBDataset.pcbIDs d !! j = Some b -> a < b.
Proof.
  intros Hperm Hsorted Hij Hi Hj.
  assert (Hnodup : NoDup (PCBDataset.pcbIDs d)).
  { rewrite Hperm. apply NoDup_fst_map_to_list. }
  pose proof (sorted_wrt_lookup _ _ _ _ _ _ Hsorted Hij Hi Hj) as Hle.
  apply Z.ltb_ge in Hle.
  assert (a <> b).
  { intros ->. pose proof (NoDup_lookup _ _ _ _ Hnodup Hi Hj). lia. }
  lia.
Qed.

(** [pcbIDs()] does not depend on the order in which the dataset root is
    listed: two datasets constructed over the same directories, listed in
    different orders, give the same list of numbers, with [std::sort]
    doing what it promises (the same elements, none less than one before
    it) on the vector of the keys of each. *)
Theorem pcbIDs_any_listing_order (w w' : World) root0 d d' :
  PCBDataset.make w root0 = Ok d ->
  PCBDataset.make w' root0 = Ok d' ->
  (forall p, is_directory w' p = is_directory w p) ->
  Permutation (directory_iterator w' root0) (directory_iterator w root0) ->
  Permutation (std_sort Z Z.ltb (map_to_list (PCBDataset._pcbPaths d)).*1)
              (map_to_list (PCBDataset._pcbPaths d)).*1 ->
  sorted_wrt Z.ltb (std_sort Z Z.ltb (map_to_list (PCBDataset._pcbPaths d)).*1) = true ->
  Permutation (std_sort Z Z.ltb (map_to_list (PCBDataset._pcbPaths d')).*1)
              (map_to_list (PCBDataset._pcbPaths d')).*1 ->
  sorted_wrt Z.ltb (std_sort Z Z.ltb (map_to_list (PCBDataset._pcbPaths d')).*1) = true ->
  PCBDataset.pcbIDs d' = PCBDataset.pcbIDs d.
Proof.
  intros Hd Hd' Hdir Hperm Hp Hs Hp' Hs'.
  change (std_sort Z Z.ltb (map_to_list (PCBDataset._pcbPaths d)).*1)
    with (PCBDataset.pcbIDs d) in Hp, Hs.
  change (std_sort Z Z.ltb (map_to_list (PCBDataset._pcbPaths d')).*1)
    with (PCBDataset.pcbIDs d') in Hp', Hs'.
  destruct (PCBDataset_make_inv _ _ _ Hd) as (_ & _ & Hscan & _).
  destruct (PCBDataset_make_inv _ _ _ Hd') as (_ & _ & Hscan' & _).
  assert (Hkey : forall p, pcb_key w' p = pcb_key w p).
  { intros p. unfold pcb_key. rewrite Hdir. reflexivity. }
  rewrite (scan_with_ext _ _ _ _ Hkey) in Hscan'.
  destruct (scan_with_permutation _ _ _ _ Hperm Hscan) as (m' & Hm' & Hsame).
  rewrite Hscan' in Hm'. injection Hm' as <-.
  apply ascending_unique.
  - intros i j a b. apply pcbIDs_lookup_lt; assumption.
  - intros i j a b. apply pcbIDs_lookup_lt; assumption.
  - intros k. rewrite (pcbIDs_elem d' k Hp'), (pcbIDs_elem d k Hp). apply Hsame.
Qed.

End PcbIDs.

Lemma pcbIDs_any_listing_order_witness :
  exists d d',
    PCBDataset.make Demo.world "/data" = Ok d /\
    PCBDataset.make More.world_reversed "/data" = Ok d' /\
    PCBDataset.pcbIDs d = [1; 12] /\
    PCBDataset.pcbIDs d' = PCBDataset.pcbIDs d.
Proof.
  exists (PCBDataset.mk "/data" (<[12 := "/data/pcb12x"]> (<[1 := "/data/pcb1"]> ∅))),
         (PCBDataset.mk "/data" (<[1 := "/data/pcb1"]> (<[12 := "/data/pcb12x"]> ∅))).
  split; [vm_compute; reflexivity|].
  split; [vm_compute; reflexivity|].
  split; [vm_compute; reflexivity|].
  eapply (pcbIDs_any_listing_order Demo.world More.world_reversed "/data").
  - vm_compute. reflexivity.
  - vm_compute. reflexivity.
  - intros p. reflexivity.
  - apply Permutation_sym, Permutation_rev.
  - vm_compute. first [reflexivity | apply perm_swap].
  - vm_compute. reflexivity.
  - vm_compute. first [reflexivity | apply perm_swap].
  - vm_compute. reflexivity.
Defined.

(** ** Numbers printed and read back *)

(** The character of a decimal digit. *)
Lemma digit_of_char (d : Z) :
  0 <= d <= 9 ->
  Str.digit (ascii_of_nat (Z.to_nat (48 + d))) = Some d /\
  Str.isspace (ascii_of_nat (Z.to_nat (48 + d))) = false /\
  ascii_of_nat (Z.to_nat (48 + d)) <> "-"%char /\
  ascii_of_nat (Z.to_nat (48 + d)) <> "+"%char.
Proof.
  intros H.
  assert (Hd : d = 0 \/ d = 1 \/ d = 2 \/ d = 3 \/ d = 4 \/ d = 5 \/ d = 6 \/ d = 7
               \/ d = 8 \/ d = 9) by lia.
  destruct Hd as [->|[->|[->|[->|[->|[->|[->|[->|[->| ->]]]]]]]]];
    (split; [reflexivity|]; split; [reflexivity|]; split; discriminate).
Qed.

(** [pos_digits] starts with a digit. *)
Lemma pos_digits_head fuel n t :
  0 <= n ->
  exists d rest, 0 <= d <= 9 /\
    Str.pos_digits (S fuel) n t = String (ascii_of_nat (Z.to_nat (48 + d))) rest.
Proof.
  revert n t. induction fuel as [|fuel IH]; intros n t Hn.
  - exists (n mod 10), t. split; [pose proof (Z.mod_pos_bound n 10); lia|].
    cbn [Str.pos_digits]. destruct (n / 10 =? 0); reflexivity.
  - change (Str.pos_digits (S (S fuel)) n t)
      with (if n / 10 =? 0
            then String (ascii_of_nat (Z.to_nat (48 + n mod 10))) t
            else Str.pos_digits (S fuel) (n / 10)
                   (String (ascii_of_nat (Z.to_nat (48 + n mod 10))) t)).
    destruct (n / 10 =? 0).
    + exists (n mod 10), t. split; [pose proof (Z.mod_pos_bound n 10); lia | reflexivity].
    + apply IH. apply Z.div_pos; lia.
Qed.

(** Reading what [pos_digits] wrote appends the digits of [n] to the
    number read so far. *)
Lemma digits_from_pos_digits fuel n t a :
  0 <= n < 10 ^ Z.of_nat (S fuel) ->
  exists k, 0 <= k /\
    Str.digits_from a (Str.pos_digits (S fuel) n t)
      = Str.digits_from (Some (default 0 a * 10 ^ k + n)) t.
Proof.
  revert n t a. induction fuel as [|fuel IH]; intros n t a Hn.
  - assert (Hq : n / 10 = 0) by (apply Z.div_small; cbn in Hn; lia).
    assert (Hm : n mod 10 = n) by (apply Z.mod_small; cbn in Hn; lia).
    exists 1. split; [lia|].
    cbn [Str.pos_digits]. rewrite Hq, Hm. cbn [Z.eqb Str.digits_from].
    destruct (digit_of_char n) as (-> & _); [cbn in Hn; lia|].
    f_equal. f_equal. lia.
  - change (Str.pos_digits (S (S fuel)) n t)
      with (if n / 10 =? 0
            then String (ascii_of_nat (Z.to_nat (48 + n mod 10))) t
            else Str.pos_digits (S fuel) (n / 10)
                   (String (ascii_of_nat (Z.to_nat (48 + n mod 10))) t)).
    pose proof (Z.mod_pos_bound n 10 ltac:(lia)) as Hmod.
    pose proof (Z.div_mod n 10 ltac:(lia)) as Hdm.
    destruct (digit_of_char (n mod 10)) as (Hdig & _); [lia|].
    destruct (Z.eqb_spec (n / 10) 0) as [Hq|Hq].
    + exists 1. split; [lia|]. cbn [Str.digits_from]. rewrite Hdig.
      f_equal. f_equal. lia.
    + assert (Hlt : 0 <= n / 10 < 10 ^ Z.of_nat (S fuel)).
      { split; [apply Z.div_pos; lia|].
        apply Z.div_lt_upper_bound; [lia|].
        replace (10 * 10 ^ Z.of_nat (S fuel)) with (10 ^ Z.of_nat (S (S fuel))); [lia|].
        rewrite (Nat2Z.inj_succ (S fuel)), Z.pow_succ_r by lia. reflexivity. }
      destruct (IH (n / 10) (String (ascii_of_nat (Z.to_nat (48 + n mod 10))) t) a Hlt)
        as (k & Hk & ->).
      exists (k + 1). split; [lia|]. cbn [Str.digits_from]. rewrite Hdig.
      cbn [default]. f_equal. f_equal.
      rewrite Z.pow_add_r, Z.pow_1_r by lia. unfold id. lia.
Qed.

Lemma enough_fuel n : 0 <= n -> n < 10 ^ Z.of_nat (S (Z.to_nat (Z.log2 n))).
Proof.
  intros Hn. rewrite Nat2Z.inj_succ, Z2Nat.id by apply Z.log2_nonneg.
  destruct (Z.eq_dec n 0) as [->|Hne]; [reflexivity|].
  pose proof (Z.log2_spec n ltac:(lia)) as [_ Hlt].
  pose proof (Z.log2_nonneg n).
  assert (2 ^ Z.succ (Z.log2 n) <= 10 ^ Z.succ (Z.log2 n))
    by (apply Z.pow_le_mono_l; lia).
  lia.
Qed.

Lemma leading_digits_pos_digits n :
  0 <= n ->
  Str.leading_digits (Str.pos_digits (S (Z.to_nat (Z.log2 n))) n "") = Some n.
Proof.
  intros Hn. unfold Str.leading_digits.
  destruct (digits_from_pos_digits (Z.to_nat (Z.log2 n)) n "" None) as (k & Hk & ->).
  - split; [exact Hn | apply enough_fuel, Hn].
  - cbn [Str.digits_from default]. f_equal; lia.
Qed.

(** [std::stoi] reads back every [int] as [operator<<] prints it. *)
Lemma stoi_of_int k :
  Str.INT_MIN <= k <= Str.INT_MAX -> Str.stoi (Str.of_int k) = Ok k.
Proof.
  intros Hk. unfold Str.of_int. destruct (Z.ltb_spec k 0) as [Hneg|Hpos].
  - unfold Str.stoi.
    change (Str.skip_space ("-" +:+ ?s)) with ("-" +:+ s).
    cbv beta iota zeta. change ("-" +:+ ?s) with (String "-" s). cbv beta iota.
    rewrite leading_digits_pos_digits by lia.
    rewrite Z.opp_involutive.
    destruct (Z.leb_spec Str.INT_MIN k); [|lia].
    destruct (Z.leb_spec k Str.INT_MAX); [|lia]. reflexivity.
  - destruct (pos_digits_head (Z.to_nat (Z.log2 k)) k "" Hpos) as (d & rest & Hd & Hs).
    pose proof (leading_digits_pos_digits k Hpos) as Hl.
    rewrite Hs in *.
    destruct (digit_of_char d Hd) as (_ & Hsp & Hm & Hp).
    unfold Str.stoi. cbn [Str.skip_space]. rewrite Hsp.
    destruct (ascii_of_nat (Z.to_nat (48 + d))) as [b0 b1 b2 b3 b4 b5 b6 b7] eqn:Hc.
    destruct b0, b1, b2, b3, b4, b5, b6, b7; try contradiction;
      cbv beta iota zeta; rewrite Hl;
      destruct (Z.leb_spec Str.INT_MIN k); try lia;
      destruct (Z.leb_spec k Str.INT_MAX); try lia; reflexivity.
Qed.

Lemma length_append_str (a b : string) :
  String.length (a +:+ b) = (String.length a + String.length b)%nat.
Proof.
  induction a as [|c a IH]; [reflexivity|].
  change (String c a +:+ b) with (String c (a +:+ b)). cbn [String.length].
  rewrite IH. reflexivity.
Qed.

Lemma substring_0_all n s : (String.length s <= n)%nat -> String.substring 0 n s = s.
Proof.
  revert n. induction s as [|c s IH]; intros n Hn.
  - destruct n; reflexivity.
  - destruct n as [|n]; [cbn in Hn; lia|]. cbn [String.substring].
    rewrite IH by (cbn in Hn; lia). reflexivity.
Qed.

Lemma substring_0_app a b : String.substring 0 (String.length a) (a +:+ b) = a.
Proof.
  induction a as [|c a IH].
  - destruct b; reflexivity.
  - change (String c a +:+ b) with (String c (a +:+ b)).
    cbn [String.length String.substring]. rewrite IH. reflexivity.
Qed.

Lemma substring_skip_app a b n :
  String.substring (String.length a) n (a +:+ b) = String.substring 0 n b.
Proof.
  induction a as [|c a IH]; [reflexivity|].
  change (String c a +:+ b) with (String c (a +:+ b)).
  cbn [String.length String.substring]. exact IH.
Qed.

(** A name made of [rec], a string and [.jpg] is a recording name, and
    the string is its digits. *)
Lemma rec_name_of_digits x :
  (1 <= String.length x)%nat ->
  is_rec_name ("rec" +:+ x +:+ ".jpg") = true /\
  rec_digits ("rec" +:+ x +:+ ".jpg") = x.
Proof.
  intros Hx.
  assert (Hlen : String.length ("rec" +:+ x +:+ ".jpg") = (3 + String.length x + 4)%nat).
  { rewrite !length_append_str. reflexivity. }
  split.
  - unfold is_rec_name, Str.size. rewrite Hlen.
    destruct (Z.ltb_spec 7 (Z.of_nat (3 + String.length x + 4))) as [_|]; [|lia].
    replace (Z.to_nat (Z.of_nat (3 + String.length x + 4) - 4))
      with (String.length ("rec" +:+ x)) by (rewrite length_append_str; cbn; lia).
    assert (Hpre : String.substring 0 3 ("rec" +:+ x +:+ ".jpg") = "rec").
    { change (String.substring 0 3 ("rec" +:+ x +:+ ".jpg"))
        with (String "r" (String "e" (String "c" (String.substring 0 0 (x +:+ ".jpg"))))).
      destruct (x +:+ ".jpg"); reflexivity. }
    rewrite Hpre.
    rewrite <- (append_assoc_str "rec" x ".jpg"), substring_skip_app.
    reflexivity.
  - unfold rec_digits.
    change (String.substring 3 ?n ("rec" +:+ ?y)) with (String.substring 0 n y).
    rewrite Hlen.
    rewrite (substring_0_all _ (x +:+ ".jpg"))
      by (rewrite length_append_str; cbn; lia).
    unfold Str.size. rewrite length_append_str.
    replace (Z.to_nat (Z.of_nat (String.length x + String.length ".jpg") - 4))
      with (String.length x) by (cbn; lia).
    apply substring_0_app.
Qed.

Lemma of_int_length k : (1 <= String.length (Str.of_int k))%nat.
Proof.
  unfold Str.of_int. destruct (Z.ltb_spec k 0) as [Hk|Hk].
  - rewrite length_append_str. change (String.length "-") with 1%nat. lia.
  - destruct (pos_digits_head (Z.to_nat (Z.log2 k)) k "" Hk) as (d & rest & _ & ->).
    cbn [String.length]. lia.
Qed.

(** File names as the code writes them are read back as the code reads
    them: a regular file of the directory whose name is [rec], the number
    [k] as [operator<<] prints it, and [.jpg], is registered as recording
    [k] by [PCB::PCB], for every [k] of type [int]. *)
Theorem numbered_file_is_registered `{E : Externals} (w : World) root0 scale0 pcb p k :
  PCB.make w root0 scale0 = Ok pcb ->
  p ∈ directory_iterator w root0 ->
  is_regular_file w p = true ->
  Path.filename p = "rec" +:+ Str.of_int k +:+ ".jpg" ->
  Str.INT_MIN <= k <= Str.INT_MAX ->
  k ∈ PCB.recordings pcb /\ Str.stoi (Str.of_int k) = Ok k.
Proof.
  intros Hmake Hin Hreg Hname Hk.
  pose proof (stoi_of_int k Hk) as Hstoi. split; [|exact Hstoi].
  destruct (PCB_make_inv _ _ _ _ Hmake) as (_ & _ & _ & _ & Hscan & _).
  destruct (scan_with_empty _ _ _ Hscan) as [Hkeys _].
  apply recordings_elem, Hkeys. exists p. split; [exact Hin|].
  destruct (rec_name_of_digits (Str.of_int k) (of_int_length k)) as [Hn Hd].
  unfold rec_key. rewrite Hreg, Hname, Hn, Hd, Hstoi. reflexivity.
Qed.

Lemma numbered_file_is_registered_witness :
  Path.filename "/data/pcb1/rec2.jpg" = "rec" +:+ Str.of_int 2 +:+ ".jpg" /\
  2 ∈ PCB.recordings Demo.pcb1 /\ Str.stoi (Str.of_int 2) = Ok 2.
Proof.
  split; [reflexivity|].
  apply (numbered_file_is_registered Demo.world "/data/pcb1" (F.of_int 1) Demo.pcb1
           "/data/pcb1/rec2.jpg" 2).
  - vm_compute. reflexivity.
  - apply list_elem_of_In. vm_compute. tauto.
  - reflexivity.
  - reflexivity.
  - vm_compute. split; discriminate.
Defined.


(** ** Division by 1.0f *)

Lemma div_eucl_mul (q b : Z) : 0 < b -> Z.div_eucl (q * b) b = (q, 0).
Proof.
  intros Hb.
  assert (H1 : fst (Z.div_eucl (q * b) b) = q) by (apply (Z.div_mul q b); lia).
  assert (H2 : snd (Z.div_eucl (q * b) b) = 0) by (apply (Z.mod_mul q b); lia).
  destruct (Z.div_eucl (q * b) b) as [x y]. cbn in H1, H2. congruence.
Qed.

(** Rounding a mantissa that is already in canonical position leaves it
    alone. *)
Lemma binary_round_aux_canonical s m e :
  bounded 24 128 m e = true ->
  binary_round_aux 24 128 s (Zpos m) e loc_Exact = S754_finite s m e.
Proof.
  unfold bounded, canonical_mantissa.
  intros [Hc%Z.eqb_eq He]%andb_true_iff.
  unfold binary_round_aux, shr_fexp.
  cbn [Zdigits2 shr_record_of_loc]. rewrite Hc, Z.sub_diag.
  cbn [shr shr_m loc_of_shr_record round_nearest_even Zdigits2 shr_record_of_loc].
  rewrite Hc, Z.sub_diag. cbn [shr shr_m]. rewrite He. reflexivity.
Qed.

(** The same for twice the mantissa, one exponent lower. *)
Lemma binary_round_aux_doubled s m e :
  bounded 24 128 m e = true ->
  binary_round_aux 24 128 s (Zpos m~0) (e - 1) loc_Exact = S754_finite s m e.
Proof.
  unfold bounded, canonical_mantissa.
  intros [Hc%Z.eqb_eq He]%andb_true_iff.
  unfold binary_round_aux, shr_fexp.
  cbn [Zdigits2 shr_record_of_loc digits2_pos].
  replace (Z.pos (Pos.succ (digits2_pos m)) + (e - 1)) with (Z.pos (digits2_pos m) + e) by lia.
  rewrite Hc. replace (e - (e - 1)) with 1 by lia.
  cbn [shr SpecFloat.iter_pos shr_1 orb shr_m shr_r shr_s loc_of_shr_record round_nearest_even
       Zdigits2 shr_record_of_loc].
  replace (e - 1 + 1) with e by lia.
  rewrite Hc, Z.sub_diag. cbn [shr shr_m]. rewrite He. reflexivity.
Qed.

(** Dividing a binary32 number by 1.0f gives the number. *)
Lemma div_by_one (x : float) :
  valid_binary 24 128 x = true -> F.div x (F.of_int 1) = x.
Proof.
  destruct x as [s|s| |s m e]; try (destruct s; reflexivity); [reflexivity|].
  cbn [valid_binary]. intros Hb.
  change (F.of_int 1) with (S754_finite false 8388608 (-23)).
  unfold F.div, SFdiv, SFdiv_core_binary.
  change (Zdigits2 (Z.pos 8388608)) with 24.
  rewrite xorb_false_r.
  pose proof Hb as Hb'. unfold bounded, canonical_mantissa in Hb'.
  apply andb_true_iff in Hb' as [Hc%Z.eqb_eq He%Z.leb_le].
  unfold fexp, emin in Hc |- *. cbn [Zdigits2].
  set (d := Z.pos (digits2_pos m)) in *.
  assert (Hd : 1 <= d) by (unfold d; lia).
  assert (Hcase : (d = 24 /\ -149 < e) \/ (-149 = e /\ d <= 24)) by lia.
  destruct Hcase as [[Hd24 Hlt]|[Hmin Hle]].
  - replace (Z.min (Z.max (d + e - (24 + -23) - 24) (3 - 128 - 24)) (e - -23))
      with (e - 1) by lia.
    replace (e - -23 - (e - 1)) with 24 by lia.
    rewrite Z.shiftl_mul_pow2 by lia.
    replace (Z.pos m * 2 ^ 24) with (Z.pos m~0 * Z.pos 8388608) by lia.
    rewrite div_eucl_mul by lia.
    change (new_location (Z.pos 8388608) 0) with loc_Exact.
    apply binary_round_aux_doubled, Hb.
  - replace (Z.min (Z.max (d + e - (24 + -23) - 24) (3 - 128 - 24)) (e - -23))
      with e by lia.
    replace (e - -23 - e) with 23 by lia.
    rewrite Z.shiftl_mul_pow2 by lia.
    replace (Z.pos m * 2 ^ 23) with (Z.pos m * Z.pos 8388608) by lia.
    rewrite div_eucl_mul by lia.
    change (new_location (Z.pos 8388608) 0) with loc_Exact.
    apply binary_round_aux_canonical, Hb.
Qed.

(** The [scaled] flag of [sizePixels] and [sizeCm2] selects a division by
    the annotation's scale (source lines 31-32 and 40-41). For an
    annotation of scale 1.0f the division changes nothing, so both values
    of the flag give the same size. The sizes are taken to be binary32
    numbers ([spec_float] also has terms that denote none, which no C++
    float can hold). *)
Theorem unit_scale_flag_irrelevant (a : Annot.t) :
  Annot.scale a = F.of_int 1 ->
  valid_binary 24 128 (Annot.sizePixels a true) = true ->
  valid_binary 24 128 (Annot.sizeCm2 a true) = true ->
  Annot.sizePixels a false = Annot.sizePixels a true /\
  Annot.sizeCm2 a false = Annot.sizeCm2 a true.
Proof.
  intros Hs Hp Hc. unfold Annot.sizePixels, Annot.sizeCm2 in *.
  cbn [negb] in *. rewrite Hs. split; apply div_by_one; assumption.
Qed.

Lemma unit_scale_flag_irrelevant_witness :
  Annot.sizePixels More.annot_unit false = F.of_int 200 /\
  Annot.sizePixels More.annot_unit false = Annot.sizePixels More.annot_unit true /\
  Annot.sizeCm2 More.annot_unit false = Annot.sizeCm2 More.annot_unit true.
Proof.
  split; [vm_compute; reflexivity|].
  apply (unit_scale_flag_irrelevant More.annot_unit); vm_compute; reflexivity.
Defined.
(** ** A recording without its mask file *)


(** ** What a returning constructor has found *)

Lemma rec_key_returns `{E : Externals} (w : World) p :
  (exists o, rec_key w p = Ok o) <->
  (is_regular_file w p = true -> is_rec_name (Path.filename p) = true ->
   exists k, Str.stoi (rec_digits (Path.filename p)) = Ok k).
Proof.
  unfold rec_key.
  destruct (is_regular_file w p), (is_rec_name (Path.filename p)); cbn [andb];
    try (split; [intros _ ?; discriminate | intros _; eauto]).
  destruct (Str.stoi _) as [k| |]; cbn [mbind outcome_bind]; split.
  - eauto.
  - eauto.
  - intros [o Ho]. discriminate.
  - intros H. destruct (H eq_refl eq_refl) as [k Hk]. discriminate.
  - intros [o Ho]. discriminate.
  - intros H. destruct (H eq_refl eq_refl) as [k Hk]. discriminate.
Qed.

Lemma pcb_key_returns `{E : Externals} (w : World) p :
  (exists o, pcb_key w p = Ok o) <->
  (is_directory w p = true -> is_pcb_name (Path.filename p) = true ->
   exists k, Str.stoi (pcb_digits (Path.filename p)) = Ok k).
Proof.
  unfold pcb_key.
  destruct (is_directory w p), (is_pcb_name (Path.filename p)); cbn [andb];
    try (split; [intros _ ?; discriminate | intros _; eauto]).
  destruct (Str.stoi _) as [k| |]; cbn [mbind outcome_bind]; split.
  - eauto.
  - eauto.
  - intros [o Ho]. discriminate.
  - intros H. destruct (H eq_refl eq_refl) as [k Hk]. discriminate.
  - intros [o Ho]. discriminate.
  - intros H. destruct (H eq_refl eq_refl) as [k Hk]. discriminate.
Qed.

(** [PCB::PCB] returns only when the root is a directory whose path
    does not end in a separator, the scale passes its test, and
    [std::stoi] reads a number from every regular file of the directory
    that has a recording name; that number is then a recording. So with
    one file such as [recording.jpg], whose middle part [ording] has no
    leading digits, the constructor does not return. *)
Theorem PCB_make_returns_only_if `{E : Externals} (w : World) root0 scale0 pcb :
  PCB.make w root0 scale0 = Ok pcb ->
  is_directory w root0 = true /\
  (exists last, Str.substr root0 (Str.size root0 - 1) (Some 1) = Ok last /\ last <> "/") /\
  F.leb scale0 (F.of_int 0) = false /\
  F.ltb (F.of_int 2) scale0 = false /\
  (forall p, p ∈ directory_iterator w root0 ->
     is_regular_file w p = true -> is_rec_name (Path.filename p) = true ->
     exists k, Str.stoi (rec_digits (Path.filename p)) = Ok k /\ k ∈ PCB.recordings pcb).
Proof.
  intros H.
  destruct (PCB_make_inv _ _ _ _ H) as (Hd & Hl & H0 & H2 & Hscan & _).
  repeat (split; [assumption|]).
  intros p Hin Hreg Hname.
  assert (Hall : exists m, scan_with (rec_key w) (directory_iterator w root0) ∅ = Ok m)
    by eauto.
  apply scan_with_returns in Hall. rewrite Forall_forall in Hall.
  destruct (proj1 (rec_key_returns w p) (Hall p Hin) Hreg Hname) as [k Hk].
  exists k. split; [exact Hk|].
  apply recordings_elem.
  destruct (scan_with_spec _ _ _ _ Hscan) as (_ & _ & Hsome).
  apply (Hsome p k Hin). unfold rec_key. rewrite Hreg, Hname. cbn [andb].
  rewrite Hk. reflexivity.
Qed.

(** On the small dataset the board directory passes; with the file
    [recording.jpg] added to it the constructor cannot have returned. *)
Lemma PCB_make_returns_only_if_witness :
  (is_directory Demo.world "/data/pcb1" = true /\
   (exists last, Str.substr "/data/pcb1" (Str.size "/data/pcb1" - 1) (Some 1) = Ok last /\
                 last <> "/") /\
   F.leb (F.of_int 1) (F.of_int 0) = false /\
   F.ltb (F.of_int 2) (F.of_int 1) = false /\
   (forall p, p ∈ directory_iterator Demo.world "/data/pcb1" ->
      is_regular_file Demo.world p = true -> is_rec_name (Path.filename p) = true ->
      exists k, Str.stoi (rec_digits (Path.filename p)) = Ok k /\
                k ∈ PCB.recordings Demo.pcb1)) /\
  is_regular_file More.world_stray "/data/pcb1/recording.jpg" = true /\
  Str.stoi (rec_digits "recording.jpg") = Throw (invalid_argument "stoi") /\
  (forall s pcb, PCB.make More.world_stray "/data/pcb1" s <> Ok pcb).
Proof.
  split.
  { apply (PCB_make_returns_only_if Demo.world "/data/pcb1" (F.of_int 1) Demo.pcb1).
    vm_compute. reflexivity. }
  split; [vm_compute; reflexivity|].
  split; [vm_compute; reflexivity|].
  intros s pcb H.
  destruct (PCB_make_returns_only_if More.world_stray "/data/pcb1" s pcb H)
    as (_ & _ & _ & _ & Hall).
  destruct (Hall "/data/pcb1/recording.jpg") as (k & Hk & _).
  - apply list_elem_of_In. vm_compute. tauto.
  - vm_compute. reflexivity.
  - vm_compute. reflexivity.
  - vm_compute in Hk. discriminate.
Defined.

(** [PCBDataset::PCBDataset] returns only when the root is a directory
    whose path does not end in a separator, [std::stoi] reads a number
    from every subdirectory with a board name, which is then a
    registered board, and there is at least one such subdirectory. So
    with a subdirectory such as [pcb_old] the constructor does not
    return. *)
Theorem PCBDataset_make_returns_only_if `{E : Externals} (w : World) root0 d :
  PCBDataset.make w root0 = Ok d ->
  is_directory w root0 = true /\
  (exists last, Str.substr root0 (Str.size root0 - 1) (Some 1) = Ok last /\ last <> "/") /\
  (forall p, p ∈ directory_iterator w root0 ->
     is_directory w p = true -> is_pcb_name (Path.filename p) = true ->
     exists k, Str.stoi (pcb_digits (Path.filename p)) = Ok k /\
               is_Some (PCBDataset._pcbPaths d !! k)) /\
  (exists p, p ∈ directory_iterator w root0 /\
     is_directory w p = true /\ is_pcb_name (Path.filename p) = true).
Proof.
  intros H.
  destruct (PCBDataset_make_inv _ _ _ H) as (Hd & Hl & Hscan & Hne & _).
  repeat (split; [assumption|]). split.
  - intros p Hin Hdir Hname.
    assert (Hall : exists m, scan_with (pcb_key w) (directory_iterator w root0) ∅ = Ok m)
      by eauto.
    apply scan_with_returns in Hall. rewrite Forall_forall in Hall.
    destruct (proj1 (pcb_key_returns w p) (Hall p Hin) Hdir Hname) as [k Hk].
    exists k. split; [exact Hk|].
    destruct (scan_with_spec _ _ _ _ Hscan) as (_ & _ & Hsome).
    apply (Hsome p k Hin). unfold pcb_key. rewrite Hdir, Hname. cbn [andb].
    rewrite Hk. reflexivity.
  - destruct (scan_with_empty _ _ _ Hscan) as [_ Hpaths].
    apply map_choose in Hne as (k & p & Hp).
    destruct (Hpaths k p Hp) as [Hin Hk]. exists p. split; [exact Hin|].
    unfold pcb_key in Hk.
    destruct (is_directory w p), (is_pcb_name (Path.filename p));
      cbn [andb] in Hk; try discriminate. split; reflexivity.
Qed.

(** On the small dataset the root passes; with the directory [pcb_old]
    added to it the constructor cannot have returned. *)
Lemma PCBDataset_make_returns_only_if_witness :
  (exists d,
     PCBDataset.make Demo.world "/data" = Ok d /\
     is_directory Demo.world "/data" = true /\
     (exists last, Str.substr "/data" (Str.size "/data" - 1) (Some 1) = Ok last /\
                   last <> "/") /\
     (forall p, p ∈ directory_iterator Demo.world "/data" ->
        is_directory Demo.world p = true -> is_pcb_name (Path.filename p) = true ->
        exists k, Str.stoi (pcb_digits (Path.filename p)) = Ok k /\
                  is_Some (PCBDataset._pcbPaths d !! k)) /\
     (exists p, p ∈ directory_iterator Demo.world "/data" /\
        is_directory Demo.world p = true /\ is_pcb_name (Path.filename p) = true)) /\
  is_directory More.world_stray "/data/pcb_old" = true /\
  Str.stoi (pcb_digits "pcb_old") = Throw (invalid_argument "stoi") /\
  (forall d, PCBDataset.make More.world_stray "/data" <> Ok d).
Proof.
  split.
  { exists (PCBDataset.mk "/data" (<[12 := "/data/pcb12x"]> (<[1 := "/data/pcb1"]> ∅))).
    split; [vm_compute; reflexivity|].
    apply (PCBDataset_make_returns_only_if Demo.world "/data").
    vm_compute. reflexivity. }
  split; [vm_compute; reflexivity|].
  split; [vm_compute; reflexivity|].
  intros d H.
  destruct (PCBDataset_make_returns_only_if More.world_stray "/data" d H)
    as (_ & _ & Hall & _).
  destruct (Hall "/data/pcb_old") as (k & Hk & _).
  - apply list_elem_of_In. vm_compute. tauto.
  - vm_compute. reflexivity.
  - vm_compute. reflexivity.
  - vm_compute in Hk. discriminate.
Defined.
